(** * FortnitePorting, Blender plugin: [import_task.py]

    A shallow embedding of the material pipeline of [DataImportTask]:
    the override merge ([replace_or_add_parameter]), the fingerprint and
    the per-run material cache, the choice of the shader template and
    of the mapping table, the per-parameter resolution
    ([texture_param], [scalar_param], ...) and the post-processing of
    [import_material].

    Conventions.
    - JSON values are [pyval]; a parameter entry is the dict
      [{"Name": str, "Value": json, "sRGB": json}], here the record
      [param].  The kind-sequences hold parameter dicts only: a [null]
      entry is excluded by the type [list param].
    - Python exceptions are values of [exn]; statements that can raise
      live in the monad [M], which keeps the mutations made before the
      raise, as Python does.
    - What Blender owns and the sources do not define is the record
      [env]: the node-group library of [fortnite_porting_data.blend],
      the image loader, the import options, [str.casefold] and the
      type check of a socket value.
    - A node tree is a list of nodes and a list of links.  Of the
      node API the embedding keeps what the importer relies on:
      [nodes.new] appends a node with the sockets of its type,
      [nodes.remove] takes the links of the node with it, a group node
      takes the sockets of the node group assigned to it, an input
      socket holds one link ([links.new] drops the one it had), a
      missing socket name is a [KeyError] and a missing index an
      [IndexError].  The attributes the importer writes on a node, on
      its image and on the material are kept by name. *)

From Stdlib Require Import ZArith QArith List String Ascii Bool Lia.
From Stdlib Require Import Hexadecimal HexadecimalString HexadecimalN.
From stdpp Require Import base option list strings gmap.

Import ListNotations.
Local Open Scope Z_scope.
Local Open Scope string_scope.
Local Open Scope list_scope.

(** ** Python values *)

#[warnings="-register-all"]
Inductive pyval : Type :=
| VNone
| VBool (b : bool)
| VNum (q : Q)
| VStr (s : string)
| VTuple (items : list pyval)
| VDict (kv : list (string * pyval)).

(** [bool(v)]: [None], [False], zero, the empty string and the empty
    dict are false. *)
Definition truthy (v : pyval) : bool :=
  match v with
  | VNone => false
  | VBool b => b
  | VNum q => negb (Qeq_bool q 0)
  | VStr s => negb (String.eqb s "")
  | VTuple items => match items with [] => false | _ => true end
  | VDict kv => match kv with [] => false | _ => true end
  end.

(** [v == 1] for an [int] literal on the right: numbers compare by
    value and [True == 1]. *)
Definition py_eq_int (v : pyval) (n : Z) : bool :=
  match v with
  | VNum q => Qeq_bool q (inject_Z n)
  | VBool b => Z.eqb (if b then 1 else 0) n
  | _ => false
  end.

(** [v is False] *)
Definition is_False (v : pyval) : bool :=
  match v with VBool false => true | _ => false end.

Inductive exn : Type :=
| AttributeError (msg : string)
| KeyError (key : string)
| IndexError (msg : string)
| NameError (name : string)
| TypeError (msg : string)
| ValueError (msg : string)
| RuntimeError (msg : string).

(** [d[k]] on a JSON value. *)
Fixpoint assoc_get (kv : list (string * pyval)) (k : string) : option pyval :=
  match kv with
  | [] => None
  | (k', v) :: kv' => if String.eqb k' k then Some v else assoc_get kv' k
  end.

Definition py_getitem (v : pyval) (k : string) : exn + pyval :=
  match v with
  | VDict kv =>
      match assoc_get kv k with
      | Some x => inr x
      | None => inl (KeyError k)
      end
  | _ => inl (TypeError "object is not subscriptable")
  end.

(** [d.get(k)] on a JSON value. *)
Definition py_get (v : pyval) (k : string) : exn + pyval :=
  match v with
  | VDict kv => inr (default VNone (assoc_get kv k))
  | _ => inl (AttributeError "get")
  end.

(** ** The list helpers of the module: [first], [where], [any] *)

Section Helpers.
Context {A : Type}.

(** [first(target, expr)]: [None] on an empty target, else the first
    element the predicate accepts. *)
Definition first (target : list A) (expr : A -> bool) : option A :=
  match target with
  | [] => None
  | _ => List.find expr target
  end.

(** [where(target, expr)] *)
Definition where_ (target : list A) (expr : A -> bool) : list A :=
  match target with
  | [] => []
  | _ => List.filter expr target
  end.

(** The module's own [any(target, expr)], which shadows the builtin:
    [len(list(filter(expr, target))) > 0]. *)
Definition any (target : list A) (expr : A -> bool) : bool :=
  match target with
  | [] => false
  | _ => Nat.ltb 0 (List.length (List.filter expr target))
  end.
End Helpers.

(** ** Parameters and [replace_or_add_parameter] *)

Record param : Type := mkParam {
  Name : string;
  Value : pyval;
  sRGB : pyval
}.

(** The keys of a parameter dict, for [key in scalar]. *)
Definition param_keys : list string := ["Name"; "Value"; "sRGB"].

Definition name_is (n : string) (p : param) : bool := String.eqb (Name p) n.

(** The [for index, item in enumerate(list)] loop: every entry whose
    name equals the name of [replace_item] is overwritten in place.
    The guard [if item is None: continue] has no case here, the list
    holds dicts. *)
Fixpoint replace_loop (l : list param) (replace_item : param) : list param :=
  match l with
  | [] => []
  | item :: rest =>
      (if String.eqb (Name item) (Name replace_item) then replace_item else item)
        :: replace_loop rest replace_item
  end.

(** [replace_or_add_parameter(list, replace_item)]; the list is mutated
    in place, the function returns it. *)
Definition replace_or_add_parameter (l : list param) (replace_item : option param)
  : list param :=
  match replace_item with
  | None => l
  | Some r =>
      let l1 := replace_loop l r in
      if negb (any l1 (fun x => String.eqb (Name x) (Name r)))
      then l1 ++ [r]
      else l1
  end.

(** ** [hash_code] *)

(** [hex(n)] of Python: sign, ["0x"], lower-case digits without leading
    zeros. *)
Definition py_hex (n : Z) : string :=
  String.append (if Z.ltb n 0 then "-" else "")
    (String.append "0x" (NilZero.string_of_uint (N.to_hex_uint (Z.to_N (Z.abs n))))).

(** [s[2:]] *)
Definition drop2 (s : string) : string :=
  match s with
  | String _ (String _ t) => t
  | _ => ""
  end.

Definition hash_code (num : Z) : string := drop2 (py_hex (Z.abs num)).

(** ** [int(value)], the value transform of the toon table *)

Definition is_space (c : ascii) : bool :=
  let n := nat_of_ascii c in
  (Nat.leb 9 n && Nat.leb n 13) || (Nat.leb 28 n && Nat.leb n 32).

Definition digit_of (c : ascii) : option Z :=
  let n := nat_of_ascii c in
  if Nat.leb 48 n && Nat.leb n 57 then Some (Z.of_nat (n - 48)) else None.

Fixpoint lstrip (s : string) : string :=
  match s with
  | String c t => if is_space c then lstrip t else s
  | EmptyString => EmptyString
  end.

Fixpoint rstrip (s : string) : string :=
  match s with
  | String c t =>
      match rstrip t with
      | EmptyString => if is_space c then EmptyString else String c EmptyString
      | t' => String c t'
      end
  | EmptyString => EmptyString
  end.

(** Decimal digits with single underscores between them. *)
Fixpoint parse_digits (s : string) (acc : Z) (after_digit : bool) : option Z :=
  match s with
  | EmptyString => if after_digit then Some acc else None
  | String c t =>
      match digit_of c with
      | Some d => parse_digits t (10 * acc + d) true
      | None =>
          if Ascii.eqb c "_" && after_digit then parse_digits t acc false else None
      end
  end.

(** [int(s)] for a [str] in base 10; ASCII white space and digits. *)
Definition int_of_str (s : string) : option Z :=
  match lstrip (rstrip s) with
  | String "-" t => option_map Z.opp (parse_digits t 0 false)
  | String "+" t => parse_digits t 0 false
  | t => parse_digits t 0 false
  end.

(** [int(value)]: truncation towards zero on numbers, [TypeError] on
    [None], tuples and dicts, [ValueError] on a string that is no
    literal. *)
Definition py_int (value : pyval) : exn + pyval :=
  match value with
  | VBool b => inr (VNum (inject_Z (if b then 1 else 0)))
  | VNum q => inr (VNum (inject_Z (Z.quot (Qnum q) (Zpos (Qden q)))))
  | VStr s =>
      match int_of_str s with
      | Some z => inr (VNum (inject_Z z))
      | None => inl (ValueError "invalid literal for int() with base 10")
      end
  | _ => inl (TypeError "int() argument must be a string or a real number")
  end.

(** ** Mapping tables *)

Record SlotMapping_ : Type := mkSlotMapping {
  name : string;
  slot : string;
  alpha_slot : option string;
  switch_slot : option string;
  value_func : option (pyval -> exn + pyval);
  coords : string
}.

(** [SlotMapping.__init__]: [slot] defaults to [name], [coords] to ["UV0"]. *)
Definition SlotMapping (name : string) (slot alpha_slot switch_slot : option string)
    (value_func : option (pyval -> exn + pyval)) (coords : option string) : SlotMapping_ :=
  mkSlotMapping name (default name slot) alpha_slot switch_slot value_func
    (default "UV0" coords).

(** [SlotMapping(name)] and [SlotMapping(name, slot)] *)
Definition sm (name : string) : SlotMapping_ :=
  SlotMapping name None None None None None.
Definition sm_to (name slot : string) : SlotMapping_ :=
  SlotMapping name (Some slot) None None None None.

Record MappingCollection : Type := mkMappingCollection {
  textures : list SlotMapping_;
  scalars : list SlotMapping_;
  vectors : list SlotMapping_;
  switches : list SlotMapping_;
  component_masks : list SlotMapping_
}.

Definition default_mappings : MappingCollection :=
  {|
    textures :=
      [ sm "Diffuse";
        sm_to "D" "Diffuse";
        sm_to "Base Color" "Diffuse";
        sm_to "Concrete" "Diffuse";
        sm_to "Trunk_BaseColor" "Diffuse";
        SlotMapping "Background Diffuse" None (Some "Background Diffuse Alpha") None None None;
        SlotMapping "BG Diffuse Texture" (Some "Background Diffuse") (Some "Background Diffuse Alpha") None None None;
        sm "M";
        sm_to "Mask" "M";
        sm "SpecularMasks";
        sm_to "S" "SpecularMasks";
        sm_to "SRM" "SpecularMasks";
        sm_to "Specular Mask" "SpecularMasks";
        sm_to "Concrete_SpecMask" "SpecularMasks";
        sm_to "Trunk_Specular" "SpecularMasks";
        sm "Normals";
        sm_to "N" "Normals";
        sm_to "Normal" "Normals";
        sm_to "NormalMap" "Normals";
        sm_to "ConcreteTextureNormal" "Normals";
        sm_to "Trunk_Normal" "Normals";
        sm_to "Emissive" "Emission";
        sm_to "EmissiveTexture" "Emission";
        sm "MaskTexture";
        sm_to "OpacityMask" "MaskTexture" ];
    scalars :=
      [ sm_to "RoughnessMin" "Roughness Min";
        sm_to "SpecRoughnessMin" "Roughness Min";
        sm_to "RawRoughnessMin" "Roughness Min";
        sm_to "RoughnessMax" "Roughness Max";
        sm_to "SpecRoughnessMax" "Roughness Max";
        sm_to "RawRoughnessMax" "Roughness Max";
        sm_to "emissive mult" "Emission Strength" ];
    vectors :=
      [ SlotMapping "Skin Boost Color And Exponent" (Some "Skin Color") (Some "Skin Boost") None None None;
        SlotMapping "SkinTint" (Some "Skin Color") (Some "Skin Boost") None None None;
        sm_to "EmissiveMultiplier" "Emission Multiplier";
        sm_to "Emissive Multiplier" "Emission Multiplier";
        SlotMapping "Emissive Color" (Some "Emission Color") None (Some "Use Emission Color") None None ];
    switches :=
      [ sm "SwizzleRoughnessToGreen" ];
    component_masks := []
  |}.

Definition layer_mappings : MappingCollection :=
  {|
    textures :=
      [ sm "Diffuse";
        sm "SpecularMasks";
        sm "Normals";
        sm "EmissiveTexture";
        sm "Diffuse_Texture_2";
        sm "SpecularMasks_2";
        sm "Normals_Texture_2";
        sm "Emissive_Texture_2";
        sm "Diffuse_Texture_3";
        sm "SpecularMasks_3";
        sm "Normals_Texture_3";
        sm "Emissive_Texture_3";
        sm "Diffuse_Texture_4";
        sm "SpecularMasks_4";
        sm "Normals_Texture_4";
        sm "Emissive_Texture_4";
        sm "Diffuse_Texture_5";
        sm "SpecularMasks_5";
        sm "Normals_Texture_5";
        sm "Emissive_Texture_5";
        sm "Diffuse_Texture_6";
        sm "SpecularMasks_6";
        sm "Normals_Texture_6";
        sm "Emissive_Texture_6" ];
    scalars := [];
    vectors := [];
    switches := [];
    component_masks := []
  |}.

Definition toon_mappings : MappingCollection :=
  {|
    textures :=
      [ sm "LitDiffuse";
        sm "ShadedDiffuse";
        sm "DistanceField_InkLines";
        sm "InkLineColor_Texture";
        sm "SSC_Texture";
        sm "Normals" ];
    scalars :=
      [ sm "ShadedColorDarkening";
        sm "FakeNormalBlend_Amt";
        SlotMapping "PBR_Shading" (Some "Use PBR Shading") None None (Some py_int) None ];
    vectors :=
      [ sm_to "InkLineColor" "InkLineColor_Texture" ];
    switches := [];
    component_masks := []
  |}.

Definition valet_mappings : MappingCollection :=
  {|
    textures :=
      [ sm "Diffuse";
        SlotMapping "Mask" None (Some "Mask Alpha") None None None;
        SlotMapping "Decal" None (Some "Decal Alpha") None None (Some "UV1");
        sm "Normal";
        sm "Specular Mask";
        sm "Scratch/Grime/EMPTY" ];
    scalars :=
      [ sm "Scratch Intensity";
        sm "Grime Intensity";
        sm "Grime Spec";
        sm "Grime Roughness";
        sm "Layer 01 Specular";
        sm "Layer 01 Metalness";
        sm "Layer 01 Roughness Min";
        sm "Layer 01 Roughness Max";
        sm "Layer 01 Clearcoat";
        sm "Layer 01 Clearcoat Roughness Min";
        sm "Layer 01 Clearcoat Roughness Max";
        sm "Layer 02 Specular";
        sm "Layer 02 Metalness";
        sm "Layer 02 Roughness Min";
        sm "Layer 02 Roughness Max";
        sm "Layer 02 Clearcoat";
        sm "Layer 02 Clearcoat Roughness Min";
        sm "Layer 02 Clearcoat Roughness Max";
        sm "Layer 03 Specular";
        sm "Layer 03 Metalness";
        sm "Layer 03 Roughness Min";
        sm "Layer 03 Roughness Max";
        sm "Layer 03 Clearcoat";
        sm "Layer 03 Clearcoat Roughness Min";
        sm "Layer 03 Clearcoat Roughness Max";
        sm "Layer 04 Specular";
        sm "Layer 04 Metalness";
        sm "Layer 04 Roughness Min";
        sm "Layer 04 Roughness Max";
        sm "Layer 04 Clearcoat";
        sm "Layer 04 Clearcoat Roughness Min";
        sm "Layer 04 Clearcoat Roughness Max" ];
    vectors :=
      [ sm "Scratch Tint";
        sm "Grime Tint";
        sm "Layer 01 Color";
        sm "Layer 02 Color";
        sm "Layer 03 Color";
        sm "Layer 04 Color" ];
    switches := [];
    component_masks := []
  |}.

Definition glass_mappings : MappingCollection :=
  {|
    textures :=
      [ sm "Color_DarkTint";
        sm_to "Diffuse Texture" "Color";
        sm "Normals";
        sm_to "BakedNormal" "Normals";
        SlotMapping "Diffuse Texture with Alpha Mask" (Some "Color") (Some "Mask") None None None ];
    scalars :=
      [ sm "Specular";
        sm "Metallic";
        sm "Roughness";
        sm_to "Window Tint Amount" "Tint Amount";
        sm "Fresnel Exponent";
        sm "Fresnel Inner Transparency";
        sm "Fresnel Inner Transparency Max Tint";
        sm "Fresnel Outer Transparency";
        sm_to "Glass thickness" "Thickness" ];
    vectors :=
      [ sm_to "ColorFront" "Color";
        sm_to "Base Color" "Color" ];
    switches := [];
    component_masks := []
  |}.

Definition trunk_mappings : MappingCollection :=
  {|
    textures :=
      [ sm_to "Trunk_BaseColor" "Diffuse";
        sm_to "Trunk_Specular" "SpecularMasks";
        sm_to "Trunk_Normal" "Normals" ];
    scalars := [];
    vectors := [];
    switches := [];
    component_masks := []
  |}.

Definition foliage_mappings : MappingCollection :=
  {|
    textures :=
      [ sm "Diffuse";
        sm "Normals";
        sm "MaskTexture" ];
    scalars :=
      [ sm_to "Roughness Leafs" "Roughness";
        sm_to "Specular_Leafs" "Specular" ];
    vectors :=
      [ sm "Color1_Base";
        sm "Color2_Lit";
        sm "Color3_Shadows" ];
    switches := [];
    component_masks := []
  |}.

Definition gradient_mappings : MappingCollection :=
  {|
    textures :=
      [ sm "Diffuse";
        SlotMapping "Layer Mask" None (Some "Layer Mask Alpha") None None None;
        sm "SkinFX_Mask";
        sm "Layer1_Gradient";
        sm "Layer2_Gradient";
        sm "Layer3_Gradient";
        sm "Layer4_Gradient";
        sm "Layer5_Gradient" ];
    scalars := [];
    vectors := [];
    switches :=
      [ sm_to "use Alpha Channel as mask" "Use Layer Mask Alpha" ];
    component_masks :=
      [ sm "GmapSkinCustomization_Channel" ]
  |}.

(** ** The input of [import_material]

    The dicts the exporter sends, with the keys the importer reads.
    A list that may be absent ([None]) is the empty list: [where] and
    the [if texture_data:] tests treat both alike. *)

Module Material.
(** [material_data] *)
Record t : Type := mk {
  Name : string;
  Hash : Z;
  Textures : list param;
  Scalars : list param;
  Vectors : list param;
  Switches : list param;
  ComponentMasks : list param;
  AbsoluteParent : pyval;
  UseGlassMaterial : pyval;
  UseFoliageMaterial : pyval
}.
End Material.

Module TextureData.
(** An entry of [meta_data["TextureData"]] *)
Record t : Type := mk {
  Hash : Z;
  Diffuse : option param;
  Normal : option param;
  Specular : option param
}.
End TextureData.

Module OverrideParameters.
(** An entry of [meta_data["OverrideParameters"]] *)
Record t : Type := mk {
  MaterialNameToAlter : string;
  Hash : Z;
  Textures : list param;
  Scalars : list param;
  Vectors : list param
}.
End OverrideParameters.

Module Meta.
(** [meta_data] *)
Record t : Type := mk {
  TextureData : list TextureData.t;
  OverrideParameters : list OverrideParameters.t;
  SkinColor : pyval
}.
End Meta.

(** ** The fingerprint and the override merge of [import_material] *)

(** [get_param(source, name)] *)
Definition get_param (source : list param) (name_ : string) : pyval :=
  match first source (fun param => String.eqb (Name param) name_) with
  | None => VNone
  | Some found => Value found
  end.

(** [x in names] *)
Definition str_in (x : string) (names : list string) : bool :=
  List.existsb (String.eqb x) names.

(** [get_param_multiple(source, names)] *)
Definition get_param_multiple (source : list param) (names : list string) : pyval :=
  match first source (fun param => str_in (Name param) names) with
  | None => VNone
  | Some found => Value found
  end.

(** Lines 579 and 580: the override-parameter sets that name the
    material. *)
Definition override_parameters_of (material_name : string) (meta_data : Meta.t)
  : list OverrideParameters.t :=
  where_ (Meta.OverrideParameters meta_data)
    (fun param => String.eqb (OverrideParameters.MaterialNameToAlter param) material_name).

(** Lines 572 to 583: the hashes of the override layers that apply,
    summed. *)
Definition additional_hash_of (material_data : Material.t) (meta_data : Meta.t) : Z :=
  let material_name := Material.Name material_data in
  let additional_hash := 0 in
  let texture_data := Meta.TextureData meta_data in
  let additional_hash :=
    List.fold_left (fun acc data => acc + TextureData.Hash data) texture_data additional_hash in
  let override_parameters := override_parameters_of material_name meta_data in
  List.fold_left (fun acc parameters => acc + OverrideParameters.Hash parameters)
    override_parameters additional_hash.

(** Lines 570 to 587: [(material_name, material_hash)] as they stand at
    the cache lookup. *)
Definition fingerprint (material_data : Material.t) (meta_data : Meta.t) : string * Z :=
  let material_name := Material.Name material_data in
  let material_hash := Material.Hash material_data in
  let additional_hash := additional_hash_of material_data meta_data in
  if negb (Z.eqb additional_hash 0)
  then (String.append material_name (String.append "_" (hash_code additional_hash)),
        material_hash + additional_hash)
  else (material_name, material_hash).

(** Lines 612 to 616, one instance of the texture data. *)
Definition merge_texture_data (textures : list param) (texture_data_inst : TextureData.t)
  : list param :=
  let textures := replace_or_add_parameter textures (TextureData.Diffuse texture_data_inst) in
  let textures := replace_or_add_parameter textures (TextureData.Normal texture_data_inst) in
  replace_or_add_parameter textures (TextureData.Specular texture_data_inst).

(** [for x in xs: replace_or_add_parameter(list, x)] *)
Definition merge_all (l : list param) (xs : list param) : list param :=
  List.fold_left (fun l x => replace_or_add_parameter l (Some x)) xs l.

(** Lines 618 to 627, one override-parameter set; the three lists are
    [textures], [scalars] and [vectors]. *)
Definition merge_override_parameter (tsv : list param * list param * list param)
    (override_parameter : OverrideParameters.t) : list param * list param * list param :=
  let '(textures, scalars, vectors) := tsv in
  (merge_all textures (OverrideParameters.Textures override_parameter),
   merge_all scalars (OverrideParameters.Scalars override_parameter),
   merge_all vectors (OverrideParameters.Vectors override_parameter)).

(** Lines 606 to 627: the lists of [material_data] after the merge.
    They are mutated in place, so the result is [material_data] itself
    as the rest of the function (and the caller) sees it. *)
Definition merge_overrides (material_data : Material.t) (meta_data : Meta.t) : Material.t :=
  let textures := Material.Textures material_data in
  let scalars := Material.Scalars material_data in
  let vectors := Material.Vectors material_data in
  let textures := List.fold_left merge_texture_data (Meta.TextureData meta_data) textures in
  let '(textures, scalars, vectors) :=
    List.fold_left merge_override_parameter
      (override_parameters_of (Material.Name material_data) meta_data)
      (textures, scalars, vectors) in
  Material.mk (Material.Name material_data) (Material.Hash material_data)
    textures scalars vectors
    (Material.Switches material_data) (Material.ComponentMasks material_data)
    (Material.AbsoluteParent material_data) (Material.UseGlassMaterial material_data)
    (Material.UseFoliageMaterial material_data).

(** ** The names the selection and the post-processing look for *)

Definition layer_switch_names : list string :=
  ["Use 2 Layers"; "Use 3 Layers"; "Use 4 Layers"; "Use 5 Layers"; "Use 6 Layers";
   "Use 7 Layers"; "Use 2 Materials"; "Use 3 Materials"; "Use 4 Materials";
   "Use 5 Materials"; "Use 6 Materials"; "Use 7 Materials";
   "Use_Multiple_Material_Textures"].

Definition extra_layer_names : list string :=
  ["Diffuse_Texture_2"; "SpecularMasks_2"; "Normals_Texture_2"; "Emissive_Texture_2";
   "Diffuse_Texture_3"; "SpecularMasks_3"; "Normals_Texture_3"; "Emissive_Texture_3";
   "Diffuse_Texture_4"; "SpecularMasks_4"; "Normals_Texture_4"; "Emissive_Texture_4";
   "Diffuse_Texture_5"; "SpecularMasks_5"; "Normals_Texture_5"; "Emissive_Texture_5";
   "Diffuse_Texture_6"; "SpecularMasks_6"; "Normals_Texture_6"; "Emissive_Texture_6"].

Definition emissive_toggle_names : list string :=
  ["Emissive"; "UseBasicEmissive"; "UseAdvancedEmissive"; "Use Emissive"].

Definition emission_crop_vector_params : list string :=
  ["EmissiveUVs_RG_UpperLeftCorner_BA_LowerRightCorner";
   "Emissive Texture UVs RG_TopLeft BA_BottomRight";
   "Emissive 2 UV Positioning (RG)UpperLeft (BA)LowerRight";
   "EmissiveUVPositioning (RG)UpperLeft (BA)LowerRight"].

Definition emission_crop_switch_params : list string :=
  ["CroppedEmissive"; "Manipulate Emissive Uvs"].

(** The tests of lines 799 to 821. *)
Definition is_layered (md : Material.t) : bool :=
  truthy (get_param_multiple (Material.Switches md) layer_switch_names)
  && truthy (get_param_multiple (Material.Textures md) extra_layer_names).

Definition is_toon_material (md : Material.t) : bool :=
  any ["LitDiffuse"; "ShadedDiffuse"] (fun x => truthy (get_param (Material.Textures md) x)).

Definition is_valet (md : Material.t) : bool :=
  match Material.AbsoluteParent md with
  | VStr s => String.eqb s "M_FN_Valet_Master"
  | _ => false
  end.

Definition is_glass (md : Material.t) : bool := truthy (Material.UseGlassMaterial md).

Definition is_trunk_of (md : Material.t) : pyval := get_param (Material.Switches md) "IsTrunk".

(** [str.replace(old, new)] for a non-empty [old]: the occurrences are
    taken from the left and do not overlap. *)
Fixpoint str_replace_from (old new : string) (skip : nat) (s : string) : string :=
  match s with
  | EmptyString => EmptyString
  | String c t =>
      match skip with
      | S k => str_replace_from old new k t
      | O =>
          if String.prefix old s
          then String.append new (str_replace_from old new (String.length old - 1) t)
          else String c (str_replace_from old new 0 t)
      end
  end.

Definition str_replace (s old new : string) : string := str_replace_from old new 0 s.

(** ** What Blender provides *)

(** An entry of [node_tree.interface.items_tree]: a socket has no
    [interface_items], a panel lists the names of its items. *)
Record interface_item : Type := mkItem {
  item_name : string;
  interface_items : option (list string)
}.

(** A node group of the data file: the names of its input sockets in
    order, the number of its outputs and its interface tree. *)
Record node_group : Type := mkNodeGroup {
  ng_inputs : list string;
  ng_outputs : nat;
  items_tree : list interface_item
}.

Record env : Type := mkEnv {
  (** [bpy.data.node_groups.get(name)] *)
  node_groups : string -> option node_group;
  (** [self.import_image(path)] as a function of the path: the image
      datablock, by its key in [bpy.data.images], [None] when the file
      is missing, or an exception (a path that does not split in two
      at the dot, a path that is no string, a failed load).  The
      registry of loaded images and the file system stay outside; the
      attributes of the datablocks are in the frame. *)
  import_image : pyval -> exn + option string;
  (** [self.options.get(key)] *)
  options : string -> pyval;
  (** [str.casefold] *)
  casefold : string -> string;
  (** Whether the socket [inputs[i]] or [outputs[i]] of a node of the
      given type and node tree takes the value as its [default_value];
      Blender raises [TypeError] otherwise. *)
  socket_accepts : string -> option string -> bool -> nat -> pyval -> bool
}.

Record node : Type := mkNode {
  nd_id : nat;
  bl_idname : string;
  node_tree : option string;
  inputs : list string;
  outputs : nat;
  location : Z * Z;
  nd_attrs : gmap string pyval;
  in_defaults : gmap nat pyval;
  out_defaults : gmap nat pyval
}.

Record link : Type := mkLink {
  from_node : nat;
  from_socket : nat;
  to_node : nat;
  to_socket : nat
}.

(** The sockets of the built-in node types the importer creates. *)
Definition builtin_sockets (ty : string) : list string * nat :=
  if String.eqb ty "ShaderNodeOutputMaterial" then (["Surface"; "Volume"; "Displacement"], 0%nat)
  else if String.eqb ty "ShaderNodeTexImage" then (["Vector"], 2%nat)
  else if String.eqb ty "ShaderNodeUVMap" then ([], 1%nat)
  else if String.eqb ty "ShaderNodeValue" then ([], 1%nat)
  else if String.eqb ty "ShaderNodeRGB" then ([], 1%nat)
  else if String.eqb ty "ShaderNodeVertexColor" then ([], 2%nat)
  else ([], 0%nat).

Definition fresh_node (id : nat) (ty : string) : node :=
  let '(ins, outs) := builtin_sockets ty in
  mkNode id ty None ins outs (0, 0) ∅ ∅ ∅.

(** ** The frame of one graph construction

    The node tree of the material under construction, the material's
    attributes and custom properties, the closure variables of
    [import_material] that its nested functions rebind
    ([shader_node], [unused_parameter_offset]) or read ([value]),
    [self.is_toon], what [traceback.print_exc] wrote, and the
    attributes of the image datablocks of [bpy.data.images], which the
    samplers of all materials share. *)
Record build : Type := mkBuild {
  b_nodes : list node;
  b_links : list link;
  b_next : nat;
  b_shader_node : nat;
  b_unused_parameter_offset : Z;
  b_value : option pyval;
  b_attrs : gmap string pyval;
  b_props : gmap string pyval;
  b_is_toon : bool;
  b_stderr : list exn;
  b_images : gmap string (gmap string pyval)
}.

Definition with_nodes (ns : list node) (b : build) : build :=
  mkBuild ns (b_links b) (b_next b) (b_shader_node b) (b_unused_parameter_offset b)
    (b_value b) (b_attrs b) (b_props b) (b_is_toon b) (b_stderr b) (b_images b).
Definition with_links (ls : list link) (b : build) : build :=
  mkBuild (b_nodes b) ls (b_next b) (b_shader_node b) (b_unused_parameter_offset b)
    (b_value b) (b_attrs b) (b_props b) (b_is_toon b) (b_stderr b) (b_images b).
Definition with_next (n : nat) (b : build) : build :=
  mkBuild (b_nodes b) (b_links b) n (b_shader_node b) (b_unused_parameter_offset b)
    (b_value b) (b_attrs b) (b_props b) (b_is_toon b) (b_stderr b) (b_images b).
Definition with_shader_node (n : nat) (b : build) : build :=
  mkBuild (b_nodes b) (b_links b) (b_next b) n (b_unused_parameter_offset b)
    (b_value b) (b_attrs b) (b_props b) (b_is_toon b) (b_stderr b) (b_images b).
Definition with_offset (z : Z) (b : build) : build :=
  mkBuild (b_nodes b) (b_links b) (b_next b) (b_shader_node b) z
    (b_value b) (b_attrs b) (b_props b) (b_is_toon b) (b_stderr b) (b_images b).
Definition with_value (v : option pyval) (b : build) : build :=
  mkBuild (b_nodes b) (b_links b) (b_next b) (b_shader_node b) (b_unused_parameter_offset b)
    v (b_attrs b) (b_props b) (b_is_toon b) (b_stderr b) (b_images b).
Definition with_attrs (a : gmap string pyval) (b : build) : build :=
  mkBuild (b_nodes b) (b_links b) (b_next b) (b_shader_node b) (b_unused_parameter_offset b)
    (b_value b) a (b_props b) (b_is_toon b) (b_stderr b) (b_images b).
Definition with_props (p : gmap string pyval) (b : build) : build :=
  mkBuild (b_nodes b) (b_links b) (b_next b) (b_shader_node b) (b_unused_parameter_offset b)
    (b_value b) (b_attrs b) p (b_is_toon b) (b_stderr b) (b_images b).
Definition with_is_toon (t : bool) (b : build) : build :=
  mkBuild (b_nodes b) (b_links b) (b_next b) (b_shader_node b) (b_unused_parameter_offset b)
    (b_value b) (b_attrs b) (b_props b) t (b_stderr b) (b_images b).
Definition with_stderr (l : list exn) (b : build) : build :=
  mkBuild (b_nodes b) (b_links b) (b_next b) (b_shader_node b) (b_unused_parameter_offset b)
    (b_value b) (b_attrs b) (b_props b) (b_is_toon b) l (b_images b).
Definition with_images (i : gmap string (gmap string pyval)) (b : build) : build :=
  mkBuild (b_nodes b) (b_links b) (b_next b) (b_shader_node b) (b_unused_parameter_offset b)
    (b_value b) (b_attrs b) (b_props b) (b_is_toon b) (b_stderr b) i.

(** ** Statements that can raise *)

Inductive res (A : Type) : Type :=
| Ok (a : A)
| Raise (e : exn).
Arguments Ok {A} a.
Arguments Raise {A} e.

Definition M (A : Type) : Type := build -> res A * build.

Definition ret {A} (a : A) : M A := fun b => (Ok a, b).
Definition bind {A B} (c : M A) (k : A -> M B) : M B :=
  fun b =>
    match c b with
    | (Ok a, b') => k a b'
    | (Raise e, b') => (Raise e, b')
    end.
Definition raise {A} (e : exn) : M A := fun b => (Raise e, b).
Definition get_build : M build := fun b => (Ok b, b).
Definition modify (f : build -> build) : M unit := fun b => (Ok tt, f b).

#[export] Instance M_ret : MRet M := @ret.
#[export] Instance M_bind : MBind M := fun A B k c => bind c k.

(** A value or an exception of a pure computation. *)
Definition lift {A} (r : exn + A) : M A :=
  match r with
  | inr a => ret a
  | inl e => raise e
  end.

(** [traceback.print_exc()] *)
Definition print_exc (e : exn) : M unit :=
  modify (fun b => with_stderr (b_stderr b ++ [e]) b).

(** [try: body / except Exception as e: traceback.print_exc()] *)
Definition try_except (body : M unit) : M unit :=
  fun b =>
    match body b with
    | (Ok _, b') => (Ok tt, b')
    | (Raise e, b') => print_exc e b'
    end.

(** [for x in l: f(x)] *)
Fixpoint for_each {A} (l : list A) (f : A -> M unit) : M unit :=
  match l with
  | [] => ret tt
  | x :: l' => bind (f x) (fun _ => for_each l' f)
  end.

Definition when (c : bool) (body : M unit) : M unit :=
  if c then body else ret tt.

(** ** Operations on the node tree *)

(** A socket: the node and the index in its [inputs] or [outputs]. *)
Definition socket : Type := nat * nat.

Definition find_node (ns : list node) (id : nat) : option node :=
  List.find (fun n => Nat.eqb (nd_id n) id) ns.

Fixpoint index_of (nm : string) (l : list string) : option nat :=
  match l with
  | [] => None
  | x :: l' => if String.eqb x nm then Some 0%nat else option_map S (index_of nm l')
  end.

Definition is_input_of (s : socket) (l : link) : bool :=
  Nat.eqb (to_node l) (fst s) && Nat.eqb (to_socket l) (snd s).

Definition touches (id : nat) (l : link) : bool :=
  Nat.eqb (from_node l) id || Nat.eqb (to_node l) id.

Definition set_location (loc : Z * Z) (n : node) : node :=
  mkNode (nd_id n) (bl_idname n) (node_tree n) (inputs n) (outputs n) loc
    (nd_attrs n) (in_defaults n) (out_defaults n).
Definition set_attr (k : string) (v : pyval) (n : node) : node :=
  mkNode (nd_id n) (bl_idname n) (node_tree n) (inputs n) (outputs n) (location n)
    (<[k := v]> (nd_attrs n)) (in_defaults n) (out_defaults n).
Definition set_in_default (i : nat) (v : pyval) (n : node) : node :=
  mkNode (nd_id n) (bl_idname n) (node_tree n) (inputs n) (outputs n) (location n)
    (nd_attrs n) (<[i := v]> (in_defaults n)) (out_defaults n).
Definition set_out_default (i : nat) (v : pyval) (n : node) : node :=
  mkNode (nd_id n) (bl_idname n) (node_tree n) (inputs n) (outputs n) (location n)
    (nd_attrs n) (in_defaults n) (<[i := v]> (out_defaults n)).
(** [node.node_tree = group]: the node takes the sockets of the group. *)
Definition set_node_tree (nm : string) (g : option node_group) (n : node) : node :=
  match g with
  | Some g =>
      mkNode (nd_id n) (bl_idname n) (Some nm) (ng_inputs g) (ng_outputs g) (location n)
        (nd_attrs n) ∅ ∅
  | None =>
      mkNode (nd_id n) (bl_idname n) None [] 0%nat (location n) (nd_attrs n) ∅ ∅
  end.

Section Importer.
Variable E : env.

(** [nodes.new(type=ty)] *)
Definition nodes_new (ty : string) : M nat :=
  fun b =>
    let id := b_next b in
    (Ok id, with_next (S id) (with_nodes (b_nodes b ++ [fresh_node id ty]) b)).

(** [nodes.remove(node)]: the node goes, and its links with it. *)
Definition nodes_remove (id : nat) : M unit :=
  modify (fun b =>
    with_links (List.filter (fun l => negb (touches id l)) (b_links b))
      (with_nodes (List.filter (fun n => negb (Nat.eqb (nd_id n) id)) (b_nodes b)) b)).

Definition get_node (id : nat) : M node :=
  fun b =>
    match find_node (b_nodes b) id with
    | Some n => (Ok n, b)
    | None => (Raise (RuntimeError "StructRNA of type Node has been removed"), b)
    end.

Definition update_node (id : nat) (f : node -> node) : M unit :=
  _ ← get_node id;
  modify (fun b =>
    with_nodes (List.map (fun n => if Nat.eqb (nd_id n) id then f n else n) (b_nodes b)) b).

(** [node.node_tree = bpy.data.node_groups.get(nm)] *)
Definition assign_node_tree (id : nat) (nm : string) : M unit :=
  update_node id (set_node_tree nm (node_groups E nm)).

(** [node.inputs.find(nm)] *)
Definition inputs_find (id : nat) (nm : string) : M Z :=
  n ← get_node id;
  mret (match index_of nm (inputs n) with Some i => Z.of_nat i | None => -1 end).

(** [node.inputs.get(nm)] *)
Definition inputs_get (id : nat) (nm : string) : M (option socket) :=
  n ← get_node id;
  mret (option_map (fun i => (id, i)) (index_of nm (inputs n))).

(** [node.inputs[nm]] *)
Definition inputs_getitem (id : nat) (nm : string) : M socket :=
  s ← inputs_get id nm;
  match s with
  | Some s => mret s
  | None => raise (KeyError nm)
  end.

(** [node.inputs[i]] *)
Definition inputs_at (id : nat) (i : nat) : M socket :=
  n ← get_node id;
  if Nat.ltb i (List.length (inputs n)) then mret (id, i)
  else raise (IndexError "bpy_prop_collection[index]: index out of range").

(** [node.outputs[i]] *)
Definition outputs_at (id : nat) (i : nat) : M socket :=
  n ← get_node id;
  if Nat.ltb i (outputs n) then mret (id, i)
  else raise (IndexError "bpy_prop_collection[index]: index out of range").

(** [socket.default_value = v] for an input and for an output *)
Definition assign_in_default (s : socket) (v : pyval) : M unit :=
  n ← get_node (fst s);
  if socket_accepts E (bl_idname n) (node_tree n) false (snd s) v
  then update_node (fst s) (set_in_default (snd s) v)
  else raise (TypeError "default_value").
Definition assign_out_default (s : socket) (v : pyval) : M unit :=
  n ← get_node (fst s);
  if socket_accepts E (bl_idname n) (node_tree n) true (snd s) v
  then update_node (fst s) (set_out_default (snd s) v)
  else raise (TypeError "default_value").

(** [links.new(output, input)]: an input socket holds one link, a
    link it had before is removed. *)
Definition links_new (o i : socket) : M unit :=
  modify (fun b =>
    with_links
      (List.filter (fun l => negb (is_input_of i l)) (b_links b)
         ++ [mkLink (fst o) (snd o) (fst i) (snd i)]) b).

(** [image.<k> = v] on the image datablock [img], which every sampler
    of that image shares, in this material and in the others. *)
Definition set_image_attr (img : string) (k : string) (v : pyval) : M unit :=
  modify (fun b =>
    with_images (<[img := <[k := v]> (default ∅ (b_images b !! img))]> (b_images b)) b).

(** [input.links] *)
Definition socket_links (i : socket) : M (list link) :=
  b ← get_build;
  mret (List.filter (is_input_of i) (b_links b)).

(** [get_socket_pos(node, index)] *)
Definition get_socket_pos (id : nat) (index : Z) : M (Z * Z) :=
  n ← get_node id;
  let start_y := -80 in
  let offset_y := -22 in
  mret (fst (location n), snd (location n) + start_y + offset_y * index).

(** [if s:] on an optional socket name *)
Definition named (s : option string) : bool :=
  match s with
  | Some s => negb (String.eqb s "")
  | None => false
  end.

(** [1 if value else 0] *)
Definition one_if (value : pyval) : pyval :=
  VNum (inject_Z (if truthy value then 1 else 0)).

(** [value = mappings.value_func(value) if mappings.value_func else value] *)
Definition apply_value_func (mappings : SlotMapping_) (value : pyval) : M pyval :=
  match value_func mappings with
  | Some f => lift (f value)
  | None => mret value
  end.

(** The tail of the four unmapped branches: label, width and place
    of the free-standing node, then the offset steps down. *)
Definition place_unused (nd : nat) (label : string) (width : option Z) (pitch : Z) : M unit :=
  update_node nd (set_attr "label" (VStr label));;
  match width with
  | Some w => update_node nd (set_attr "width" (VNum (inject_Z w)))
  | None => mret tt
  end;;
  b ← get_build;
  update_node nd (set_location (400, b_unused_parameter_offset b));;
  modify (fun b => with_offset (b_unused_parameter_offset b - pitch) b).

(** *** [texture_param] *)
Definition texture_body (data : param) (target_mappings : MappingCollection)
    (target_node : nat) (add_unused_params : bool) : M unit :=
  let name_ := Name data in
  let path := Value data in
  nd ← nodes_new "ShaderNodeTexImage";
  image ← lift (import_image E path);
  update_node nd (set_attr "image" (from_option VStr VNone image));;
  match image with
  | None => raise (AttributeError "'NoneType' object has no attribute 'alpha_mode'")
  | Some img =>
      set_image_attr img "alpha_mode" (VStr "CHANNEL_PACKED");;
      set_image_attr img "colorspace_settings.name"
        (VStr (if truthy (sRGB data) then "sRGB" else "Non-Color"))
  end;;
  update_node nd (set_attr "interpolation" (VStr "Smart"));;
  update_node nd (set_attr "hide" (VBool true));;
  match first (textures target_mappings) (fun x => String.eqb (name x) name_) with
  | None =>
      when add_unused_params (place_unused nd name_ None 50)
  | Some mappings =>
      index ← inputs_find target_node (slot mappings);
      xy ← get_socket_pos target_node index;
      update_node nd (set_location (fst xy - 300, snd xy));;
      o ← outputs_at nd 0;
      i ← inputs_getitem target_node (slot mappings);
      links_new o i;;
      when (named (alpha_slot mappings))
        (o ← outputs_at nd 1;
         i ← inputs_getitem target_node (default "" (alpha_slot mappings));
         links_new o i);;
      when (named (switch_slot mappings))
        (b ← get_build;
         match b_value b with
         | None => raise (NameError "value")
         | Some value =>
             i ← inputs_getitem target_node (default "" (switch_slot mappings));
             assign_in_default i (one_if value)
         end);;
      when (negb (String.eqb (coords mappings) "UV0"))
        (uv ← nodes_new "ShaderNodeUVMap";
         n ← get_node nd;
         update_node uv (set_location (fst (location n) - 250, snd (location n)));;
         update_node uv (set_attr "uv_map" (VStr (coords mappings)));;
         o ← outputs_at uv 0;
         i ← inputs_at nd 0;
         links_new o i)
  end.

Definition texture_param (data : param) (target_mappings : MappingCollection)
    (target_node : nat) (add_unused_params : bool) : M unit :=
  try_except (texture_body data target_mappings target_node add_unused_params).

(** [(value["R"], value["G"], value["B"], value["A"])] *)
Definition rgba (value : pyval) : M pyval :=
  r ← lift (py_getitem value "R");
  g ← lift (py_getitem value "G");
  b ← lift (py_getitem value "B");
  a ← lift (py_getitem value "A");
  mret (VTuple [r; g; b; a]).

(** [(value["R"], value["G"], value["B"], 1.0)] *)
Definition rgb1 (value : pyval) : M pyval :=
  r ← lift (py_getitem value "R");
  g ← lift (py_getitem value "G");
  b ← lift (py_getitem value "B");
  mret (VTuple [r; g; b; VNum 1]).

(** *** [scalar_param] *)
Definition scalar_body (data : param) (target_mappings : MappingCollection)
    (target_node : nat) (add_unused_params : bool) : M unit :=
  let name_ := Name data in
  let value := Value data in
  match first (scalars target_mappings) (fun x => String.eqb (name x) name_) with
  | None =>
      when add_unused_params
        (nd ← nodes_new "ShaderNodeValue";
         o ← outputs_at nd 0;
         assign_out_default o value;;
         place_unused nd name_ (Some 250) 100)
  | Some mappings =>
      value ← apply_value_func mappings value;
      i ← inputs_getitem target_node (slot mappings);
      assign_in_default i value;;
      when (named (switch_slot mappings))
        (i ← inputs_getitem target_node (default "" (switch_slot mappings));
         assign_in_default i (one_if value))
  end.

Definition scalar_param (data : param) (target_mappings : MappingCollection)
    (target_node : nat) (add_unused_params : bool) : M unit :=
  try_except (scalar_body data target_mappings target_node add_unused_params).

(** *** [vector_param] *)
Definition vector_body (data : param) (target_mappings : MappingCollection)
    (target_node : nat) (add_unused_params : bool) : M unit :=
  let name_ := Name data in
  let value := Value data in
  match first (vectors target_mappings) (fun x => String.eqb (name x) name_) with
  | None =>
      when add_unused_params
        (nd ← nodes_new "ShaderNodeRGB";
         color ← rgba value;
         o ← outputs_at nd 0;
         assign_out_default o color;;
         place_unused nd name_ (Some 250) 200)
  | Some mappings =>
      value ← apply_value_func mappings value;
      color ← rgb1 value;
      i ← inputs_getitem target_node (slot mappings);
      assign_in_default i color;;
      when (named (alpha_slot mappings))
        (a ← lift (py_getitem value "A");
         i ← inputs_getitem target_node (default "" (alpha_slot mappings));
         assign_in_default i a);;
      when (named (switch_slot mappings))
        (i ← inputs_getitem target_node (default "" (switch_slot mappings));
         assign_in_default i (one_if value))
  end.

Definition vector_param (data : param) (target_mappings : MappingCollection)
    (target_node : nat) (add_unused_params : bool) : M unit :=
  try_except (vector_body data target_mappings target_node add_unused_params).

(** *** [component_mask_param] *)
Definition component_mask_body (data : param) (target_mappings : MappingCollection)
    (target_node : nat) (add_unused_params : bool) : M unit :=
  let name_ := Name data in
  let value := Value data in
  match first (component_masks target_mappings) (fun x => String.eqb (name x) name_) with
  | None =>
      when add_unused_params
        (nd ← nodes_new "ShaderNodeRGB";
         color ← rgba value;
         o ← outputs_at nd 0;
         assign_out_default o color;;
         place_unused nd name_ (Some 250) 200)
  | Some mappings =>
      value ← apply_value_func mappings value;
      color ← rgba value;
      i ← inputs_getitem target_node (slot mappings);
      assign_in_default i color
  end.

Definition component_mask_param (data : param) (target_mappings : MappingCollection)
    (target_node : nat) (add_unused_params : bool) : M unit :=
  try_except (component_mask_body data target_mappings target_node add_unused_params).

(** *** [switch_param] *)
Definition switch_body (data : param) (target_mappings : MappingCollection)
    (target_node : nat) (add_unused_params : bool) : M unit :=
  let name_ := Name data in
  let value := Value data in
  match first (switches target_mappings) (fun x => String.eqb (name x) name_) with
  | None =>
      when add_unused_params
        (nd ← nodes_new "ShaderNodeGroup";
         assign_node_tree nd "FP Switch";;
         i ← inputs_at nd 0;
         assign_in_default i (one_if value);;
         place_unused nd name_ (Some 250) 125)
  | Some mappings =>
      value ← apply_value_func mappings value;
      i ← inputs_getitem target_node (slot mappings);
      assign_in_default i (one_if value)
  end.

Definition switch_param (data : param) (target_mappings : MappingCollection)
    (target_node : nat) (add_unused_params : bool) : M unit :=
  try_except (switch_body data target_mappings target_node add_unused_params).

(** *** [setup_params]

    [md] is [material_data] after the merge: the closure variables
    [textures], [scalars], ... are its lists. *)
Definition setup_params (md : Material.t) (mappings : MappingCollection)
    (target_node : nat) (add_unused_params : bool) : M unit :=
  for_each (Material.Textures md)
    (fun texture => texture_param texture mappings target_node add_unused_params);;
  for_each (Material.Scalars md)
    (fun scalar => scalar_param scalar mappings target_node add_unused_params);;
  for_each (Material.Vectors md)
    (fun vector => vector_param vector mappings target_node add_unused_params);;
  for_each (Material.ComponentMasks md)
    (fun component_mask =>
       component_mask_param component_mask mappings target_node add_unused_params);;
  for_each (Material.Switches md)
    (fun switch => switch_param switch mappings target_node add_unused_params).

(** *** The choice of template and mapping table, lines 632 to 824 *)

(** [replace_shader_node(name)], which rebinds [shader_node] *)
Definition replace_shader_node (name_ : string) : M unit :=
  b ← get_build;
  nodes_remove (b_shader_node b);;
  nd ← nodes_new "ShaderNodeGroup";
  modify (with_shader_node nd);;
  assign_node_tree nd name_.

Definition set_material_attr (k : string) (v : pyval) : M unit :=
  modify (fun b => with_attrs (<[k := v]> (b_attrs b)) b).

(** Lines 799 to 824; the result is [socket_mappings]. *)
Definition select_mappings (material_data : Material.t) : M MappingCollection :=
  let socket_mappings := default_mappings in
  socket_mappings ←
    (if is_layered material_data
     then replace_shader_node "FP Layer";; mret layer_mappings
     else mret socket_mappings);
  socket_mappings ←
    (if is_toon_material material_data
     then replace_shader_node "FP Toon";; mret toon_mappings
     else mret socket_mappings);
  socket_mappings ←
    (if is_valet material_data
     then replace_shader_node "FP Valet";; mret valet_mappings
     else mret socket_mappings);
  socket_mappings ←
    (if is_glass material_data
     then replace_shader_node "FP Glass";;
          set_material_attr "blend_method" (VStr "BLEND");;
          set_material_attr "show_transparent_back" (VBool false);;
          mret glass_mappings
     else mret socket_mappings);
  let is_trunk := is_trunk_of material_data in
  socket_mappings ←
    (if truthy is_trunk
     then mret trunk_mappings
     else mret socket_mappings);
  socket_mappings ←
    (if truthy (Material.UseFoliageMaterial material_data) && negb (truthy is_trunk)
     then replace_shader_node "FP Foliage";;
          set_material_attr "use_sss_translucency" (VBool true);;
          mret foliage_mappings
     else mret socket_mappings);
  mret socket_mappings.

(** Lines 629 to 844: output node, root node, selection, parameters
    at the top level, and the link to the output. *)
Definition build_base (material_data : Material.t) : M unit :=
  output_node ← nodes_new "ShaderNodeOutputMaterial";
  update_node output_node (set_location (200, 0));;
  nd ← nodes_new "ShaderNodeGroup";
  modify (with_shader_node nd);;
  assign_node_tree nd "FP Material";;
  modify (with_offset 0);;
  socket_mappings ← select_mappings material_data;
  b ← get_build;
  setup_params material_data socket_mappings (b_shader_node b) true;;
  o ← outputs_at (b_shader_node b) 0;
  i ← inputs_at output_node 0;
  links_new o i.

(** *** Post-processing, lines 846 to 958 *)

(** [node.inputs[nm].default_value = v] *)
Definition assign_input (id : nat) (nm : string) (v : pyval) : M unit :=
  i ← inputs_getitem id nm;
  assign_in_default i v.

(** [links[0]] *)
Definition first_link (ls : list link) : M link :=
  match ls with
  | l :: _ => mret l
  | [] => raise (IndexError "tuple index out of range")
  end.

(** [node.node_tree.name] *)
Definition node_tree_name (id : nat) : M string :=
  n ← get_node id;
  match node_tree n with
  | Some nm => mret nm
  | None => raise (AttributeError "'NoneType' object has no attribute 'name'")
  end.

(** Line 846 *)
Definition is_vertex_crunch (material_name : string) (material_data : Material.t) : bool :=
  str_in material_name ["MI_VertexCrunch"; "M_VertexCrunch"]
  || py_eq_int (get_param (Material.Scalars material_data) "HT_CrunchVerts") 1.

(** Lines 847 and 848 *)
Definition mark_crunch_verts : M unit :=
  b ← get_build;
  modify (fun b => with_props (<["Crunch Verts" := VBool true]> (b_props b)) b);;
  assign_input (b_shader_node b) "Alpha" (VNum 0).

(** Lines 862 to 864 *)
Definition skin_color_fixup (shader_node : nat) (meta_data : Meta.t) : M unit :=
  let skin_color := Meta.SkinColor meta_data in
  if truthy skin_color then
    a ← lift (py_getitem skin_color "A");
    when (negb (py_eq_int a 0))
      (color ← rgb1 skin_color;
       assign_input shader_node "Skin Color" color;;
       boost ← lift (py_getitem skin_color "A");
       assign_input shader_node "Skin Boost" boost)
  else mret tt.

(** Lines 878 to 897 *)
Definition vertex_color_mask (shader_node : nat) (material_data : Material.t) : M unit :=
  color_node ← nodes_new "ShaderNodeVertexColor";
  update_node color_node (set_location (-400, -560));;
  update_node color_node (set_attr "layer_name" (VStr "COL0"));;
  mask_node ← nodes_new "ShaderNodeGroup";
  assign_node_tree mask_node "FP Vertex Alpha";;
  update_node mask_node (set_location (-200, -560));;
  o ← outputs_at color_node 0;
  i ← inputs_at mask_node 0;
  links_new o i;;
  o ← outputs_at mask_node 0;
  i ← inputs_getitem shader_node "Alpha";
  links_new o i;;
  for_each (Material.Scalars material_data)
    (fun scalar =>
       let name_ := Name scalar in
       let value := Value scalar in
       modify (with_value (Some value));;
       if negb (str_in "Hide Element" param_keys) then mret tt
       else
         input ← inputs_get mask_node (str_replace name_ "Hide " "");
         match input with
         | Some input =>
             v ← lift (py_int value);
             assign_in_default input v
         | None => mret tt
         end).

(** Lines 899 to 922 *)
Definition emission_crop (shader_node : nat) (material_data : Material.t) : M unit :=
  emission_slot ← inputs_getitem shader_node "Emission";
  let crop_bounds :=
    get_param_multiple (Material.Vectors material_data) emission_crop_vector_params in
  emission_links ← socket_links emission_slot;
  if truthy crop_bounds
     && truthy (get_param_multiple (Material.Switches material_data)
                  emission_crop_switch_params)
     && Nat.ltb 0 (List.length emission_links)
  then
    l ← first_link emission_links;
    let emission_node := from_node l in
    crop_texture_node ← nodes_new "ShaderNodeGroup";
    assign_node_tree crop_texture_node "FP Texture Cropping";;
    en ← get_node emission_node;
    update_node crop_texture_node
      (set_location (fst (location en) + -200, snd (location en) + 25));;
    v ← lift (py_get crop_bounds "R");
    assign_input crop_texture_node "Left" v;;
    v ← lift (py_get crop_bounds "G");
    assign_input crop_texture_node "Top" v;;
    v ← lift (py_get crop_bounds "B");
    assign_input crop_texture_node "Right" v;;
    v ← lift (py_get crop_bounds "A");
    assign_input crop_texture_node "Bottom" v;;
    o ← outputs_at crop_texture_node 0;
    i ← inputs_at emission_node 0;
    links_new o i
  else mret tt.

(** Lines 925 to 927 *)
Definition modulate_emissive (shader_node : nat) : M unit :=
  i ← inputs_getitem shader_node "Diffuse";
  ls ← socket_links i;
  l ← first_link ls;
  let diffuse_node := from_node l in
  o ← outputs_at diffuse_node 0;
  i ← inputs_getitem shader_node "Emission Multiplier";
  links_new o i.

(** [gradient_node.node_tree.interface.items_tree] *)
Definition node_items_tree (id : nat) : M (list interface_item) :=
  n ← get_node id;
  match node_tree n with
  | None => raise (AttributeError "'NoneType' object has no attribute 'interface'")
  | Some nm =>
      match node_groups E nm with
      | Some g => mret (items_tree g)
      | None => mret []
      end
  end.

(** Lines 929 to 951 *)
Definition gradient_layers (shader_node : nat) (material_data : Material.t) : M unit :=
  gradient_node ← nodes_new "ShaderNodeGroup";
  assign_node_tree gradient_node "FP Gradient";;
  update_node gradient_node (set_location (-500, 0));;
  i ← inputs_getitem shader_node "Diffuse";
  ls ← socket_links i;
  l ← first_link ls;
  nodes_remove (from_node l);;
  o ← outputs_at gradient_node 0;
  i ← inputs_at shader_node 0;
  links_new o i;;
  gmap_node ← nodes_new "ShaderNodeValue";
  update_node gmap_node (set_location (-1000, -120));;
  o ← outputs_at gmap_node 0;
  assign_out_default o (VNum 1);;
  setup_params material_data gradient_mappings gradient_node false;;
  items ← node_items_tree gradient_node;
  for_each items
    (fun item =>
       if negb (String.eqb (item_name item) "Colors") then mret tt
       else
         match interface_items item with
         | None => raise (AttributeError "interface_items")
         | Some panel_items =>
             for_each panel_items
               (fun panel_item =>
                  i ← inputs_getitem gradient_node panel_item;
                  item_links ← socket_links i;
                  if Nat.eqb (List.length item_links) 0 then mret tt
                  else
                    o ← outputs_at gmap_node 0;
                    l ← first_link item_links;
                    i ← inputs_at (from_node l) 0;
                    links_new o i)
         end).

(** Lines 851 to 951: the fix-ups of the default template. *)
Definition default_fixups (shader_node : nat) (material_data : Material.t)
    (meta_data : Meta.t) : M unit :=
  assign_input shader_node "AO" (options E "AmbientOcclusion");;
  assign_input shader_node "Cavity" (options E "Cavity");;
  assign_input shader_node "Subsurface" (options E "Subsurface");;
  skin_color_fixup shader_node meta_data;;
  when (is_False (get_param_multiple (Material.Switches material_data) emissive_toggle_names))
    (assign_input shader_node "Emission Strength" (VNum 0));;
  when (truthy (get_param (Material.Textures material_data) "SRM"))
    (assign_input shader_node "SwizzleRoughnessToGreen" (VNum 1));;
  when (truthy (get_param (Material.Switches material_data) "Use Vertex Colors for Mask"))
    (vertex_color_mask shader_node material_data);;
  emission_crop shader_node material_data;;
  when (truthy (get_param (Material.Switches material_data) "Modulate Emissive with Diffuse"))
    (modulate_emissive shader_node);;
  when (truthy (get_param (Material.Switches material_data) "useGmapGradientLayers"))
    (gradient_layers shader_node material_data).

(** Lines 851 to 958: what follows the vertex-crunch test when it
    fails. *)
Definition fixups (material_data : Material.t) (meta_data : Meta.t) : M unit :=
  b ← get_build;
  let shader_node := b_shader_node b in
  nm ← node_tree_name shader_node;
  when (String.eqb nm "FP Material") (default_fixups shader_node material_data meta_data);;
  nm ← node_tree_name shader_node;
  when (String.eqb nm "FP Toon")
    (assign_input shader_node "Brightness" (options E "ToonBrightness");;
     modify (with_is_toon true)).

(** Lines 846 to 958 *)
Definition post_process (material_name : string) (material_data : Material.t)
    (meta_data : Meta.t) : M unit :=
  if is_vertex_crunch material_name material_data
  then mark_crunch_verts
  else fixups material_data meta_data.
End Importer.

(** ** The import run: materials, slots and the cache *)

(** A material datablock; handles ([nat]) stand for references. *)
Record material : Type := mkMaterial {
  mat_name : string;
  mat_attrs : gmap string pyval;
  mat_props : gmap string pyval;
  mat_nodes : list node;
  mat_links : list link
}.

Record material_slot : Type := mkSlot {
  slot_link : string;
  slot_material : option nat
}.

(** [bpy.data.materials], the material slots the run touches, the
    fields of the [DataImportTask]: [imported_materials] (the cache,
    created empty by [__init__]), [is_toon], the standard error, and
    the attributes of the image datablocks of [bpy.data.images]. *)
Record state : Type := mkState {
  materials : gmap nat material;
  slots : gmap nat material_slot;
  imported_materials : gmap Z nat;
  is_toon : bool;
  stderr : list exn;
  images : gmap string (gmap string pyval)
}.

Definition empty_material : material := mkMaterial "" ∅ ∅ [] [].

Definition get_material (st : state) (h : nat) : material :=
  default empty_material (materials st !! h).

Definition get_slot (st : state) (s : nat) : material_slot :=
  default (mkSlot "DATA" None) (slots st !! s).

Definition set_slot (s : nat) (v : material_slot) (st : state) : state :=
  mkState (materials st) (<[s := v]> (slots st)) (imported_materials st)
    (is_toon st) (stderr st) (images st).

(** [bpy.data.materials.new(name)]: a material no handle refers to yet. *)
Definition materials_new (name_ : string) (st : state) : nat * state :=
  let h := fresh (dom (materials st)) in
  (h, mkState (<[h := mkMaterial name_ ∅ ∅ [] []]> (materials st)) (slots st)
        (imported_materials st) (is_toon st) (stderr st) (images st)).

(** [self.imported_materials[material_hash] = material] *)
Definition register (material_hash : Z) (h : nat) (st : state) : state :=
  mkState (materials st) (slots st) (<[material_hash := h]> (imported_materials st))
    (is_toon st) (stderr st) (images st).

(** Lines 598 to 604: the frame in which the graph of material [h] is
    built, its node tree emptied. *)
Definition begin_build (st : state) (h : nat) : build :=
  let m := get_material st h in
  mkBuild [] [] 0 0 0 None
    (<["shadow_method" := VStr "CLIP"]>
       (<["blend_method" := VStr "CLIP"]>
          (<["use_nodes" := VBool true]> (mat_attrs m))))
    (mat_props m) (is_toon st) (stderr st) (images st).

(** The material and the task as the frame leaves them. *)
Definition end_build (h : nat) (b : build) (st : state) : state :=
  mkState
    (<[h := mkMaterial (mat_name (get_material st h)) (b_attrs b) (b_props b)
              (b_nodes b) (b_links b)]> (materials st))
    (slots st) (imported_materials st) (b_is_toon b) (b_stderr b) (b_images b).

Section ImportMaterial.
Variable E : env.

(** Lines 629 to 958 in the frame of the material. *)
Definition build_graph (material_name : string) (material_data : Material.t)
    (meta_data : Meta.t) : M unit :=
  build_base E material_data;;
  post_process E material_name material_data meta_data.

(** Lines 593 to 596 of a cache miss: the slot keeps its material when
    the names agree up to case and gets a new one otherwise; the
    material of the slot is entered in the cache. *)
Definition claim_material (slot_ : nat) (material_name : string) (material_hash : Z)
    (current : nat) (st : state) : nat * state :=
  let '(h, st) :=
    if negb (String.eqb (casefold E (mat_name (get_material st current)))
               (casefold E material_name))
    then
      let '(h, st) := materials_new material_name st in
      (h, set_slot slot_ (mkSlot "OBJECT" (Some h)) st)
    else (current, st) in
  (h, register material_hash h st).

(** [DataImportTask.import_material(material_slot, material_data,
    meta_data)].  Beside the outcome and the state, the function
    gives [material_data] back as its in-place merge left it. *)
Definition import_material (slot_ : nat) (material_data : Material.t)
    (meta_data : Meta.t) (st : state) : res unit * state * Material.t :=
  let temp_material := slot_material (get_slot st slot_) in
  let st := set_slot slot_ (mkSlot "OBJECT" temp_material) st in
  let '(material_name, material_hash) := fingerprint material_data meta_data in
  match imported_materials st !! material_hash with
  | Some existing =>
      (Ok tt, set_slot slot_ (mkSlot "OBJECT" (Some existing)) st, material_data)
  | None =>
      match temp_material with
      | None =>
          (Raise (AttributeError "'NoneType' object has no attribute 'name'"),
           st, material_data)
      | Some current =>
          let '(h, st) := claim_material slot_ material_name material_hash current st in
          let material_data := merge_overrides material_data meta_data in
          let '(r, b) := build_graph material_name material_data meta_data
                           (begin_build st h) in
          (r, end_build h b st, material_data)
      end
  end.

End ImportMaterial.

(** Further imports of a run, each on the state the one before left.
    Every call comes with the answers Blender gives during it. *)
Definition import_all (calls : list (env * nat * Material.t * Meta.t)) (st : state) : state :=
  List.fold_left
    (fun st call =>
       let '(E, slot_, material_data, meta_data) := call in
       snd (fst (import_material E slot_ material_data meta_data st)))
    calls st.

(** ** Image files *)

(** [s.split(sep)] for a separator of one character. *)
Fixpoint split_on (sep : ascii) (s : string) : list string :=
  match s with
  | EmptyString => [EmptyString]
  | String c t =>
      if Ascii.eqb c sep then EmptyString :: split_on sep t
      else
        match split_on sep t with
        | h :: r => String c h :: r
        | [] => [String c EmptyString]
        end
  end.

(** [sep.join(parts)] *)
Fixpoint join_with (sep : ascii) (parts : list string) : string :=
  match parts with
  | [] => EmptyString
  | [p] => p
  | p :: rest => String.append p (String sep (join_with sep rest))
  end.

Fixpoint count_char (c : ascii) (s : string) : nat :=
  match s with
  | EmptyString => 0
  | String a t => (if Ascii.eqb a c then 1 else 0) + count_char c t
  end.

(** [path[1:] if path.startswith("/") else path] *)
Definition strip_slash (path : string) : string :=
  match path with
  | String "/" t => t
  | _ => path
  end.

(** The name of the type of a value, as an [AttributeError] of Python
    spells it; a number is taken as a [float]. *)
Definition type_name (v : pyval) : string :=
  match v with
  | VNone => "NoneType"
  | VBool _ => "bool"
  | VNum _ => "float"
  | VStr _ => "str"
  | VTuple _ => "list"
  | VDict _ => "dict"
  end.

Section Paths.
(** [os.path.join] *)
Variable path_join : string -> string -> string.
(** [bpy.data.images.get(name)], [os.path.exists(path)] and
    [bpy.data.images.load(path, check_existing=True)], as they answer
    during one import. *)
Variable images_get : string -> option string.
Variable path_exists : string -> bool.
Variable images_load : string -> exn + string.

(** [format_image_path(path)]; unpacking the parts raises unless there
    are two. *)
Definition format_image_path (assets_folder path : string) : exn + (string * string) :=
  match split_on "." path with
  | [path_; name_] =>
      let path_ := strip_slash path_ in
      let ext := "png" in
      let texture_path :=
        path_join assets_folder (String.append path_ (String.append "." ext)) in
      inr (texture_path, name_)
  | [_] => inl (ValueError "not enough values to unpack (expected 2, got 1)")
  | _ => inl (ValueError "too many values to unpack (expected 2)")
  end.

(** [import_image(path)], lines 968 to 976; [path.split] raises on a
    path that is no string. *)
Definition import_image_of (assets_folder : string) (path : pyval) : exn + option string :=
  match path with
  | VStr path =>
      match format_image_path assets_folder path with
      | inl e => inl e
      | inr (path, name_) =>
          match images_get name_ with
          | Some existing => inr (Some existing)
          | None =>
              if negb (path_exists path) then inr None
              else
                match images_load path with
                | inr image => inr (Some image)
                | inl e => inl e
                end
          end
      end
  | _ =>
      inl (AttributeError
             (String.append "'"
                (String.append (type_name path) "' object has no attribute 'split'")))
  end.
End Paths.

(** ** The specification's wording, for comparison with the code *)

(** The merge step as the specification words it: the first entry of
    equal name is replaced, else the entry is appended at the end. *)
Fixpoint replace_first (l : list param) (r : param) : option (list param) :=
  match l with
  | [] => None
  | x :: l' =>
      if String.eqb (Name x) (Name r) then Some (r :: l')
      else option_map (cons x) (replace_first l' r)
  end.

Definition spec_replace_or_append (l : list param) (r : param) : list param :=
  match replace_first l r with
  | Some l' => l'
  | None => l ++ [r]
  end.

(** The shader families in the order of the specification. *)
Inductive ShaderFamily : Type :=
| Layered | Toon | Valet | Glass | Trunk | Foliage.

Definition family_order : list ShaderFamily :=
  [Layered; Toon; Valet; Glass; Trunk; Foliage].

(** The test [import_material] makes for each family. *)
Definition family_holds (md : Material.t) (f : ShaderFamily) : bool :=
  match f with
  | Layered => is_layered md
  | Toon => is_toon_material md
  | Valet => is_valet md
  | Glass => is_glass md
  | Trunk => truthy (is_trunk_of md)
  | Foliage => truthy (Material.UseFoliageMaterial md) && negb (truthy (is_trunk_of md))
  end.

Definition family_mappings (f : option ShaderFamily) : MappingCollection :=
  match f with
  | Some Layered => layer_mappings
  | Some Toon => toon_mappings
  | Some Valet => valet_mappings
  | Some Glass => glass_mappings
  | Some Trunk => trunk_mappings
  | Some Foliage => foliage_mappings
  | None => default_mappings
  end.

(** The template a family puts in the place of the root node; the
    trunk branch replaces nothing. *)
Definition family_template (f : ShaderFamily) : option string :=
  match f with
  | Layered => Some "FP Layer"
  | Toon => Some "FP Toon"
  | Valet => Some "FP Valet"
  | Glass => Some "FP Glass"
  | Trunk => None
  | Foliage => Some "FP Foliage"
  end.

(** First match in the fixed order, as the specification has it. *)
Definition spec_first_match (md : Material.t) : option ShaderFamily :=
  List.find (family_holds md) family_order.

(** Last match in the fixed order, among all families and among those
    that replace the root node. *)
Definition last_match (md : Material.t) : option ShaderFamily :=
  List.find (family_holds md) (List.rev family_order).

Definition replaces_root (f : ShaderFamily) : bool :=
  match family_template f with
  | Some _ => true
  | None => false
  end.

Definition last_template (md : Material.t) : option string :=
  match List.find (fun f => family_holds md f && replaces_root f)
          (List.rev family_order) with
  | Some f => family_template f
  | None => None
  end.

(** The place of a family in the fixed order. *)
Definition rank (f : ShaderFamily) : nat :=
  match f with
  | Layered => 0
  | Toon => 1
  | Valet => 2
  | Glass => 3
  | Trunk => 4
  | Foliage => 5
  end.

(** One more override layer of hash [h] that applies to [md]: an entry
    of the texture data, or an override-parameter set naming the
    material. *)
Inductive extra_layer (md : Material.t) (h : Z) : Meta.t -> Meta.t -> Prop :=
| extra_texture_data l1 l2 d ops sc :
    TextureData.Hash d = h ->
    extra_layer md h (Meta.mk (l1 ++ l2) ops sc) (Meta.mk (l1 ++ d :: l2) ops sc)
| extra_override_parameters tds l1 l2 op sc :
    OverrideParameters.MaterialNameToAlter op = Material.Name md ->
    OverrideParameters.Hash op = h ->
    extra_layer md h (Meta.mk tds (l1 ++ l2) sc) (Meta.mk tds (l1 ++ op :: l2) sc).

(** ** Sample data *)

Definition P (n : string) (v : pyval) : param := mkParam n v VNone.

Definition sample_material (nm : string) (hash : Z) (textures_ scalars_ switches_ : list param)
  : Material.t :=
  Material.mk nm hash textures_ scalars_ [] switches_ [] VNone VNone VNone.

Definition no_meta : Meta.t := Meta.mk [] [] VNone.

Definition body_material : Material.t := sample_material "M_Body" 100 [] [] [].

Definition layer_of_hash (h : Z) : TextureData.t :=
  TextureData.mk h (Some (P "Diffuse" (VStr "/Game/T/Skin_D.Skin_D"))) None None.

Definition texture_meta (hashes : list Z) : Meta.t :=
  Meta.mk (List.map layer_of_hash hashes) [] VNone.

Definition diffuse_A : param := P "Diffuse" (VStr "A").
Definition diffuse_B : param := P "Diffuse" (VStr "B").
Definition diffuse_C : param := P "Diffuse" (VStr "C").

(** An override-parameter set for ["M_Body"] that carries [diffuse_B]. *)
Definition diffuse_override : OverrideParameters.t :=
  OverrideParameters.mk "M_Body" 11 [diffuse_B] [] [].

(** The frame a statement leaves. *)
Definition exec {A} (c : M A) (b : build) : build := snd (c b).

(** A stand-in for the node groups of the data file, with the sockets
    the mapping tables name; every group has one output. *)
Definition sample_groups (nm : string) : option node_group :=
  if String.eqb nm "FP Material" then
    Some (mkNodeGroup
            ["Diffuse"; "Background Diffuse"; "Background Diffuse Alpha"; "M";
             "SpecularMasks"; "Normals"; "Emission"; "MaskTexture"; "Alpha"; "AO";
             "Cavity"; "Subsurface"; "Skin Color"; "Skin Boost"; "Roughness Min";
             "Roughness Max"; "Emission Strength"; "Emission Multiplier";
             "Emission Color"; "Use Emission Color"; "SwizzleRoughnessToGreen"] 1 [])
  else if String.eqb nm "FP Layer" then
    Some (mkNodeGroup ["Diffuse"; "SpecularMasks"; "Normals"; "EmissiveTexture";
                       "Diffuse_Texture_2"; "SpecularMasks_2"; "Alpha"] 1 [])
  else if String.eqb nm "FP Toon" then
    Some (mkNodeGroup ["LitDiffuse"; "ShadedDiffuse"; "Normals"; "ShadedColorDarkening";
                       "Use PBR Shading"; "Brightness"; "Alpha"] 1 [])
  else if String.eqb nm "FP Valet" then
    Some (mkNodeGroup ["Diffuse"; "Mask"; "Mask Alpha"; "Decal"; "Decal Alpha"; "Normal"] 1 [])
  else if String.eqb nm "FP Glass" then
    Some (mkNodeGroup ["Color"; "Mask"; "Normals"; "Specular"; "Roughness"] 1 [])
  else if String.eqb nm "FP Foliage" then
    Some (mkNodeGroup ["Diffuse"; "Normals"; "MaskTexture"; "Roughness"; "Specular"] 1 [])
  else if String.eqb nm "FP Gradient" then
    Some (mkNodeGroup ["Diffuse"; "Layer Mask"; "Layer Mask Alpha"; "SkinFX_Mask";
                       "Layer1_Gradient"; "Layer2_Gradient"; "Use Layer Mask Alpha";
                       "GmapSkinCustomization_Channel"] 1
            [mkItem "Diffuse" None;
             mkItem "Colors" (Some ["Layer1_Gradient"; "Layer2_Gradient"])])
  else if String.eqb nm "FP Switch" then Some (mkNodeGroup ["Value"] 1 [])
  else if String.eqb nm "FP Vertex Alpha" then Some (mkNodeGroup ["Color"] 1 [])
  else if String.eqb nm "FP Texture Cropping" then
    Some (mkNodeGroup ["Image"; "Left"; "Top"; "Right"; "Bottom"] 1 [])
  else None.

Definition ascii_lower (c : ascii) : ascii :=
  let n := nat_of_ascii c in
  if Nat.leb 65 n && Nat.leb n 90 then ascii_of_nat (n + 32) else c.

Fixpoint str_lower (s : string) : string :=
  match s with
  | EmptyString => EmptyString
  | String c t => String (ascii_lower c) (str_lower t)
  end.

(** [os.path.join] for a folder that does not end in a slash. *)
Definition sample_path_join (folder path : string) : string :=
  match path with
  | String "/" _ => path
  | _ => String.append folder (String.append "/" path)
  end.

(** The disk of the examples: every file of the assets folder is
    there but those under [Game/Missing]. *)
Definition sample_path_exists (path : string) : bool :=
  negb (String.prefix "Assets/Game/Missing/" path).

(** A stand-in for Blender: [import_image] over the disk of the
    examples, with no image registered under a bare name and every
    file that is there loading as the image of its path; the options
    are all 1; no socket takes [None]. *)
Definition sample_env : env :=
  mkEnv sample_groups
    (import_image_of sample_path_join (fun _ => None) sample_path_exists
       (fun path => inr path) "Assets")
    (fun _ => VNum 1)
    str_lower
    (fun _ _ _ _ v => match v with VNone => false | _ => true end).

Definition empty_frame : build := mkBuild [] [] 0 0 0 None ∅ ∅ false [] ∅.

(** A frame that holds one group node on the given template as the
    root node. *)
Definition root_frame (template : string) : build :=
  exec (nd ← nodes_new "ShaderNodeGroup";
        modify (with_shader_node nd);;
        assign_node_tree sample_env nd template) empty_frame.

(** Two kind-sequences for the examples: the first texture has no file
    on disk. *)
Definition lost_texture : param := P "Diffuse" (VStr "/Game/Missing/T_Lost_D.T_Lost_D").
Definition normals_texture : param := P "Normals" (VStr "/Game/T/Skin_N.Skin_N").
Definition rough_scalar : param := P "RoughnessMin" (VNum 0.5).

(** A material whose first texture has no file on disk. *)
Definition patchy_material : Material.t :=
  sample_material "M_Patchy" 7 [lost_texture; normals_texture] [rough_scalar] [].

(** ** The frames the selection leaves, written out *)

(** The frame after [replace_shader_node(name)]. *)
Definition replaced (E : env) (name_ : string) (b : build) : build :=
  let id := b_next b in
  let kept := List.filter (fun n => negb (Nat.eqb (nd_id n) (b_shader_node b))) (b_nodes b) in
  let links_ := List.filter (fun l => negb (touches (b_shader_node b) l)) (b_links b) in
  let assign n :=
    if Nat.eqb (nd_id n) id then set_node_tree name_ (node_groups E name_) n else n in
  with_nodes (List.map assign (kept ++ [fresh_node id "ShaderNodeGroup"]))
    (with_shader_node id (with_next (S id) (with_links links_ b))).

Definition set_frame_attr (k : string) (v : pyval) (b : build) : build :=
  with_attrs (<[k := v]> (b_attrs b)) b.

(** The frame after lines 799 to 824. *)
Definition selected (E : env) (md : Material.t) (b : build) : build :=
  let b := if is_layered md then replaced E "FP Layer" b else b in
  let b := if is_toon_material md then replaced E "FP Toon" b else b in
  let b := if is_valet md then replaced E "FP Valet" b else b in
  let b :=
    if is_glass md
    then set_frame_attr "show_transparent_back" (VBool false)
           (set_frame_attr "blend_method" (VStr "BLEND") (replaced E "FP Glass" b))
    else b in
  if truthy (Material.UseFoliageMaterial md) && negb (truthy (is_trunk_of md))
  then set_frame_attr "use_sss_translucency" (VBool true) (replaced E "FP Foliage" b)
  else b.

(** The node tree of the root node, [None] when it has none. *)
Definition shader_tree (b : build) : option string :=
  match find_node (b_nodes b) (b_shader_node b) with
  | Some n => node_tree n
  | None => None
  end.

(** The name of a template when the data file has it. *)
Definition template_in (E : env) (name_ : string) : option string :=
  match node_groups E name_ with
  | Some _ => Some name_
  | None => None
  end.

(** The node identifiers of a frame are below its counter. *)
Definition wf_frame (b : build) : Prop :=
  List.Forall (fun n => (nd_id n < b_next b)%nat) (b_nodes b).

(** [material_data] with another value under ["UseFoliageMaterial"]. *)
Definition set_foliage (v : pyval) (md : Material.t) : Material.t :=
  Material.mk (Material.Name md) (Material.Hash md) (Material.Textures md)
    (Material.Scalars md) (Material.Vectors md) (Material.Switches md)
    (Material.ComponentMasks md) (Material.AbsoluteParent md)
    (Material.UseGlassMaterial md) v.

(** A material that passes the test of the layered family and the test
    of the toon family. *)
Definition layered_toon_material : Material.t :=
  sample_material "M_Layered_Toon" 21
    [P "Diffuse_Texture_2" (VStr "/Game/T/L2_D.L2_D"); P "LitDiffuse" (VStr "/Game/T/Lit.Lit")]
    [] [P "Use 2 Layers" (VBool true)].

(** A tree whose trunk switch and foliage flag are both set. *)
Definition trunk_foliage_material : Material.t :=
  Material.mk "M_Tree" 33 [P "Trunk_BaseColor" (VStr "/Game/T/Bark_D.Bark_D")] [] []
    [P "IsTrunk" (VBool true)] [] VNone VNone (VBool true).


(** A run that holds one material in one slot. *)
Definition one_slot_state (nm : string) : state :=
  mkState {[ 0%nat := mkMaterial nm ∅ ∅ [] [] ]}
    {[ 7%nat := mkSlot "DATA" (Some 0%nat); 8%nat := mkSlot "DATA" (Some 0%nat) ]}
    ∅ false [] ∅.

(** A material the scalar ["HT_CrunchVerts"] marks; its emissive switch
    is off and it carries an ["SRM"] texture. *)
Definition crunch_material : Material.t :=
  sample_material "M_Hidden" 55
    [P "SRM" (VStr "/Game/T/Hidden_S.Hidden_S")]
    [P "HT_CrunchVerts" (VNum 1)]
    [P "Emissive" (VBool false)].

(** The same material without the mark. *)
Definition plain_material : Material.t :=
  sample_material "M_Hidden" 55
    [P "SRM" (VStr "/Game/T/Hidden_S.Hidden_S")]
    []
    [P "Emissive" (VBool false)].




(** A base with unique names and an override context with a texture
    layer and an override-parameter set. *)
Definition unique_material : Material.t :=
  sample_material "M_Body" 100 [diffuse_A; normals_texture] [rough_scalar]
    [P "IsTrunk" (VBool false)].

Definition two_layer_meta : Meta.t :=
  Meta.mk [layer_of_hash 7] [diffuse_override] VNone.

(** An override context whose only layer names another material. *)
Definition foreign_meta : Meta.t := Meta.mk [] [diffuse_override] VNone.

(** ** More of the module: helpers, callers and collaborators *)

(** [add_unique(target, item)]; [item in target] compares with [==]. *)
Definition add_unique {A} `{EqDecision A} (target : list A) (item : A) : list A :=
  if bool_decide (item ∈ target) then target else target ++ [item].

(** [slot.material.get("Crunch Verts")] for a material handle. *)
Definition crunch_verts_of (st : state) (h : nat) : pyval :=
  default VNone (mat_props (get_material st h) !! "Crunch Verts").

(** Lines 554 to 558 of [import_model]: the materials of the slots
    that carry the mark are added to [self.crunch_verts_materials].  A
    slot without a material raises on [slot.material.get]; the list is
    mutated in place, so what was added before stays. *)
Fixpoint collect_crunch_verts (st : state) (material_slots : list nat)
    (crunch_verts_materials : list nat) : res unit * list nat :=
  match material_slots with
  | [] => (Ok tt, crunch_verts_materials)
  | slot_ :: rest =>
      match slot_material (get_slot st slot_) with
      | None =>
          (Raise (AttributeError "'NoneType' object has no attribute 'get'"),
           crunch_verts_materials)
      | Some h =>
          if negb (truthy (crunch_verts_of st h))
          then collect_crunch_verts st rest crunch_verts_materials
          else collect_crunch_verts st rest (add_unique crunch_verts_materials h)
      end
  end.

(** The entries one instance of the texture data merges, in the order
    of lines 614 to 616; an absent entry merges nothing. *)
Definition texture_data_items (d : TextureData.t) : list param :=
  match TextureData.Diffuse d with Some x => [x] | None => [] end
  ++ match TextureData.Normal d with Some x => [x] | None => [] end
  ++ match TextureData.Specular d with Some x => [x] | None => [] end.

(** Every entry merged into [textures], [scalars] and [vectors], in the
    order in which lines 612 to 627 merge them. *)
Definition texture_overrides (md : Material.t) (meta : Meta.t) : list param :=
  List.flat_map texture_data_items (Meta.TextureData meta)
  ++ List.flat_map OverrideParameters.Textures
       (override_parameters_of (Material.Name md) meta).

Definition scalar_overrides (md : Material.t) (meta : Meta.t) : list param :=
  List.flat_map OverrideParameters.Scalars (override_parameters_of (Material.Name md) meta).

Definition vector_overrides (md : Material.t) (meta : Meta.t) : list param :=
  List.flat_map OverrideParameters.Vectors (override_parameters_of (Material.Name md) meta).

(** The last entry of the given name. *)
Fixpoint last_named (n : string) (xs : list param) : option param :=
  match xs with
  | [] => None
  | x :: xs' =>
      match last_named n xs' with
      | Some y => Some y
      | None => if String.eqb (Name x) n then Some x else None
      end
  end.

(** The value a name has after a sequence of merged entries. *)
Definition overridden (xs base : list param) (n : string) : pyval :=
  match last_named n xs with
  | Some x => Value x
  | None => get_param base n
  end.


(** The run after [crunch_material] went into slot 7 of
    [one_slot_state]; slot 8 holds the same material. *)
Definition crunch_done : state :=
  snd (fst (import_material sample_env 7 crunch_material no_meta (one_slot_state "M_Hidden"))).

(** Two texture layers that carry different ["Diffuse"] entries, in
    the two orders. *)
Definition layers_A_B : Meta.t :=
  Meta.mk [TextureData.mk 5 (Some diffuse_A) None None;
           TextureData.mk 7 (Some diffuse_B) None None] [] VNone.

Definition layers_B_A : Meta.t :=
  Meta.mk [TextureData.mk 7 (Some diffuse_B) None None;
           TextureData.mk 5 (Some diffuse_A) None None] [] (VStr "skin").

(** The entry a sequence of merged entries leaves in the place of [e]. *)
Definition settle (xs : list param) (e : param) : param :=
  match last_named (Name e) xs with
  | Some y => y
  | None => e
  end.



(** A mesh of the response, with the keys read below; ["Meta"] is the
    list of the items of the dict, or [None] when the key is absent. *)
Module Mesh.
Record t : Type := mk {
  Type_ : string;
  Path : string;
  Meta : option (list (string * pyval))
}.
End Mesh.

(** Lines 323 to 330 of [import_mesh_data]: for an outfit or a backpack
    the override meshes come first, and a mesh of the base is appended
    when no mesh of the list, as it stands then, has its type. *)
Definition selected_meshes (type_ : string) (Meshes OverrideMeshes : list Mesh.t)
  : list Mesh.t :=
  if str_in type_ ["Outfit"; "Backpack"]
  then
    List.fold_left
      (fun meshes mesh =>
         if negb (any meshes
                    (fun override_mesh =>
                       String.eqb (Mesh.Type_ override_mesh) (Mesh.Type_ mesh)))
         then meshes ++ [mesh]
         else meshes)
      Meshes OverrideMeshes
  else Meshes.

(** The body of the inner loop of [get_meta] for one mesh and one
    searched property; [meta.keys()] raises when the mesh has no
    ["Meta"] dict. *)
Definition get_meta_prop (meta : option (list (string * pyval)))
    (out_props : gmap string pyval) (search_prop : string)
  : exn + gmap string pyval :=
  match meta with
  | Some kv =>
      match first (List.map fst kv) (fun key => String.eqb key search_prop) with
      | Some found_key =>
          if negb (String.eqb found_key "")
          then inr (<[found_key := default VNone (assoc_get kv found_key)]> out_props)
          else inr out_props
      | None => inr out_props
      end
  | None => inl (AttributeError "'NoneType' object has no attribute 'keys'")
  end.

Fixpoint get_meta_props (meta : option (list (string * pyval)))
    (out_props : gmap string pyval) (search_props : list string)
  : exn + gmap string pyval :=
  match search_props with
  | [] => inr out_props
  | search_prop :: rest =>
      match get_meta_prop meta out_props search_prop with
      | inr out_props => get_meta_props meta out_props rest
      | inl e => inl e
      end
  end.

Fixpoint get_meta_from (meshes : list Mesh.t) (out_props : gmap string pyval)
    (search_props : list string) : exn + gmap string pyval :=
  match meshes with
  | [] => inr out_props
  | mesh :: rest =>
      match get_meta_props (Mesh.Meta mesh) out_props search_props with
      | inr out_props => get_meta_from rest out_props search_props
      | inl e => inl e
      end
  end.

(** [get_meta(search_props)] of [import_model], over [self.meshes]. *)
Definition get_meta (meshes : list Mesh.t) (search_props : list string)
  : exn + gmap string pyval :=
  get_meta_from meshes ∅ search_props.

(** The value of key [k] in the last mesh whose ["Meta"] has the key. *)
Fixpoint last_meta (k : string) (meshes : list Mesh.t) : option pyval :=
  match meshes with
  | [] => None
  | mesh :: rest =>
      match last_meta k rest with
      | Some v => Some v
      | None =>
          match Mesh.Meta mesh with
          | Some kv => assoc_get kv k
          | None => None
          end
      end
  end.

(** An object of [bpy.data.objects]: its type, whether it is selected,
    and the type and the object of each of its modifiers. *)
Record bobject : Type := mkObject {
  ob_id : nat;
  ob_type : string;
  ob_selected : bool;
  ob_modifiers : list (string * option nat)
}.

Definition is_selected_armature (obj : bobject) : bool :=
  String.eqb (ob_type obj) "ARMATURE" && ob_selected obj.

Definition is_selected_mesh (obj : bobject) : bool :=
  String.eqb (ob_type obj) "MESH" && ob_selected obj.

Definition is_armature_modifier (modifier : string * option nat) : bool :=
  String.eqb (fst modifier) "ARMATURE".

(** The first loop of [armature_from_selection], with its [break]. *)
Fixpoint first_selected_armature (objects : list bobject) : option nat :=
  match objects with
  | [] => None
  | obj :: rest =>
      if is_selected_armature obj then Some (ob_id obj) else first_selected_armature rest
  end.

(** The inner loop over [obj.modifiers], with its [break]: the variable
    is assigned the object of the first armature modifier. *)
Fixpoint modifier_armature (modifiers : list (string * option nat))
    (armature_obj : option nat) : option nat :=
  match modifiers with
  | [] => armature_obj
  | modifier :: rest =>
      if is_armature_modifier modifier then snd modifier
      else modifier_armature rest armature_obj
  end.

(** The second loop, which has no [break] of its own. *)
Fixpoint mesh_armatures (objects : list bobject) (armature_obj : option nat) : option nat :=
  match objects with
  | [] => armature_obj
  | obj :: rest =>
      if is_selected_mesh obj
      then mesh_armatures rest (modifier_armature (ob_modifiers obj) armature_obj)
      else mesh_armatures rest armature_obj
  end.

(** [armature_from_selection()] over [bpy.data.objects] *)
Definition armature_from_selection (objects : list bobject) : option nat :=
  let armature_obj := first_selected_armature objects in
  match armature_obj with
  | None => mesh_armatures objects armature_obj
  | Some _ => armature_obj
  end.

(** [mesh_name = mesh_path.split(".")[1]] of [import_model] *)
Definition mesh_name_of (mesh_path : string) : exn + string :=
  match split_on "." mesh_path with
  | _ :: name_ :: _ => inr name_
  | _ => inl (IndexError "list index out of range")
  end.

(** Sample meshes: a base body and head, and an override body. *)
Definition base_body : Mesh.t :=
  Mesh.mk "Body" "/Game/Base/Body.Body" (Some [("SkinColor", VStr "base")]).

Definition base_head : Mesh.t :=
  Mesh.mk "Head" "/Game/Base/Head.Head" (Some [("HatType", VStr "Cap")]).

Definition override_body : Mesh.t :=
  Mesh.mk "Body" "/Game/Style/Body.Body" (Some []).

Definition bare_mesh : Mesh.t :=
  Mesh.mk "Prop" "/Game/Prop/Crate.Crate" None.

(** Whether [get_meta] looks for the key [k]: it is one of the searched
    properties, and it is not the empty string, which [first] returns
    as a falsy value. *)
Definition wanted (k : string) (search_props : list string) : bool :=
  str_in k search_props && negb (String.eqb k "").

(** Whether an object has an armature modifier. *)
Definition has_armature_modifier (obj : bobject) : bool :=
  List.existsb is_armature_modifier (ob_modifiers obj).

(** Sample objects: a rig, and two meshes bound to rigs 1 and 2, and a
    mesh whose armature modifier has no object. *)
Definition rig_object (id : nat) (selected : bool) : bobject :=
  mkObject id "ARMATURE" selected [].

Definition skinned_mesh (id : nat) (selected : bool) (rig : option nat) : bobject :=
  mkObject id "MESH" selected [("SUBSURF", None); ("ARMATURE", rig); ("ARMATURE", Some 99%nat)].



(** ** What a statement leaves of the frame *)

(** A statement respects a relation between frames when the frame it
    leaves, returning or raising, is related to the frame it found. *)
Definition respects {A} (R : build -> build -> Prop) (c : M A) : Prop :=
  forall b, R b (snd (c b)).

(** The type, the node tree and the sockets of a node. *)
Definition shape (n : node) : string * option string * list string * nat :=
  (bl_idname n, node_tree n, inputs n, outputs n).

Definition shape_at (b : build) (id : nat)
  : option (string * option string * list string * nat) :=
  option_map shape (find_node (b_nodes b) id).

Definition keeps_shape (f : node -> node) : Prop :=
  forall n, nd_id (f n) = nd_id n /\ shape (f n) = shape n.

(** Every node of the first frame is in the second, with its type, its
    node tree and its sockets. *)
Definition stable (b b' : build) : Prop :=
  wf_frame b ->
  wf_frame b'
  /\ (b_next b <= b_next b')%nat
  /\ forall id, (id < b_next b)%nat -> shape_at b' id = shape_at b id.

(** The material and the closure are as they were: attributes, custom
    properties, [self.is_toon] and the binding of [shader_node]; the
    offset of the exposed parameters has not gone up and nothing
    printed is lost. *)
Definition settled (b b' : build) : Prop :=
  b_attrs b' = b_attrs b
  /\ b_props b' = b_props b
  /\ b_is_toon b' = b_is_toon b
  /\ b_shader_node b' = b_shader_node b
  /\ b_unused_parameter_offset b' <= b_unused_parameter_offset b
  /\ exists tail, b_stderr b' = b_stderr b ++ tail.

(** As [settled], but [self.is_toon] may have been raised. *)
Definition advanced (b b' : build) : Prop :=
  b_attrs b' = b_attrs b
  /\ b_props b' = b_props b
  /\ b_shader_node b' = b_shader_node b
  /\ (b_is_toon b = true -> b_is_toon b' = true)
  /\ exists tail, b_stderr b' = b_stderr b ++ tail.

(** The shape of a group node on the template [name_]: without the
    template in the data file the node has no tree and no socket. *)
Definition group_shape (E : env) (name_ : string)
  : string * option string * list string * nat :=
  match node_groups E name_ with
  | Some g => ("ShaderNodeGroup", Some name_, ng_inputs g, ng_outputs g)
  | None => ("ShaderNodeGroup", None, [], 0%nat)
  end.

(** The template of the root node when the selection is over. *)
Definition root_template (md : Material.t) : string :=
  default "FP Material" (last_template md).

(** The frame after lines 629 to 634 and line 643: the output node, the
    root node on ["FP Material"], the offset at zero. *)
Definition rooted (E : env) (b : build) : build :=
  let output_node := b_next b in
  let shader_node := S output_node in
  let place n := if Nat.eqb (nd_id n) output_node then set_location (200, 0) n else n in
  let assign n :=
    if Nat.eqb (nd_id n) shader_node
    then set_node_tree "FP Material" (node_groups E "FP Material") n else n in
  with_offset 0
    (with_nodes
       (List.map assign
          (List.map place (b_nodes b ++ [fresh_node output_node "ShaderNodeOutputMaterial"])
             ++ [fresh_node shader_node "ShaderNodeGroup"]))
       (with_shader_node shader_node (with_next (S shader_node) b))).

Definition is_ok {A} (r : res A) : bool :=
  match r with
  | Ok _ => true
  | Raise _ => false
  end.

(** The number of outputs of the root node when the selection is over. *)
Definition root_outputs (E : env) (md : Material.t) : nat :=
  match node_groups E (root_template md) with
  | Some g => ng_outputs g
  | None => 0%nat
  end.

(** A frame [b] that the selection has reached from [b0]: the root node
    is the one of [b0] or a later one, and the other nodes of [b0] are
    there as they were. *)
Definition reselected (b0 b : build) : Prop :=
  wf_frame b
  /\ (b_next b0 <= b_next b)%nat
  /\ (b_shader_node b < b_next b)%nat
  /\ (b_shader_node b = b_shader_node b0 \/ (b_next b0 <= b_shader_node b)%nat)
  /\ forall id, (id < b_next b0)%nat -> id <> b_shader_node b0 ->
                shape_at b id = shape_at b0 id.



(** The attributes of the material when the selection is over, lines
    812 to 823, from those it had before. *)
Definition selected_attrs (md : Material.t) (attrs : gmap string pyval)
  : gmap string pyval :=
  let attrs :=
    if is_glass md
    then <["show_transparent_back" := VBool false]> (<["blend_method" := VStr "BLEND"]> attrs)
    else attrs in
  if truthy (Material.UseFoliageMaterial md) && negb (truthy (is_trunk_of md))
  then <["use_sss_translucency" := VBool true]> attrs
  else attrs.

(** A glass material for the examples. *)
Definition glass_material : Material.t :=
  Material.mk "M_Visor" 41 [] [] [] [] [] VNone (VBool true) VNone.

(** A state whose slot 7 holds a material named as [glass_material]. *)
Definition visor_state : state := one_slot_state "M_Visor".



(** Every node of the first frame that is still in the second has its
    type, its node tree and its sockets. *)
Definition lasting (b b' : build) : Prop :=
  wf_frame b ->
  wf_frame b'
  /\ (b_next b <= b_next b')%nat
  /\ forall id, (id < b_next b)%nat ->
                shape_at b' id = shape_at b id \/ shape_at b' id = None.

(** The value node that exposes a scalar without a rule: labelled with
    the name of the parameter, 250 wide, at the running offset. *)
Definition exposed_value_node (id : nat) (name_ : string) (value : pyval) (offset : Z)
  : node :=
  mkNode id "ShaderNodeValue" None [] 1 (400, offset)
    (<["width" := VNum 250]> (<["label" := VStr name_]> ∅)) ∅ (<[0%nat := value]> ∅).

(** The frame with one more node at the end of the tree. *)
Definition with_new_node (n : node) (b : build) : build :=
  with_next (S (b_next b)) (with_nodes (b_nodes b ++ [n]) b).



(** ** The loops of [import_model] over material slots *)

(** [for slot in slots: self.import_material(slot, material, meta)],
    lines 544 and 545, 551 and 552: the same dict goes into every call,
    as the call before has merged it, and an exception ends the loop. *)
Fixpoint import_into_slots (E : env) (slots_ : list nat) (material_data : Material.t)
    (meta_data : Meta.t) (st : state) : res unit * state * Material.t :=
  match slots_ with
  | [] => (Ok tt, st, material_data)
  | slot_ :: rest =>
      match import_material E slot_ material_data meta_data st with
      | (Ok _, st, material_data) => import_into_slots E rest material_data meta_data st
      | (Raise e, st, material_data) => (Raise e, st, material_data)
      end
  end.

(** [slot.name]: the name of the material of the slot, empty without
    a material. *)
Definition slot_name (st : state) (slot_ : nat) : string :=
  match slot_material (get_slot st slot_) with
  | Some h => mat_name (get_material st h)
  | None => ""
  end.

(** Lines 547 to 552 for one variant override material: the slots of
    the mesh whose name is the name to swap, up to case, are chosen
    before the first import. *)
Definition import_variant_override (E : env) (material_slots : list nat)
    (material_name_to_swap : string) (variant_override_material : Material.t)
    (meta_data : Meta.t) (st : state) : res unit * state * Material.t :=
  let slots_ :=
    where_ material_slots
      (fun slot_ =>
         String.eqb (casefold E (slot_name st slot_)) (casefold E material_name_to_swap)) in
  import_into_slots E slots_ variant_override_material meta_data st.

(** The slots given the material [h], one after the other. *)
Definition assign_slots (h : nat) (slots_ : list nat) (st : state) : state :=
  List.fold_left (fun st slot_ => set_slot slot_ (mkSlot "OBJECT" (Some h)) st) slots_ st.

(** ** The image datablocks *)

(** The attribute [k] of the image datablock [img], when it is set. *)
Definition image_attr (imgs : gmap string (gmap string pyval)) (img k : string)
  : option pyval :=
  match imgs !! img with
  | Some attrs => attrs !! k
  | None => None
  end.

(** Of the image datablocks nothing but the alpha mode and the colour
    space can have changed. *)
Definition images_kept (b b' : build) : Prop :=
  forall img k,
    k <> "alpha_mode" -> k <> "colorspace_settings.name" ->
    image_attr (b_images b') img k = image_attr (b_images b) img k.

(** A material whose diffuse texture has no file on disk and whose
    emission is modulated by the diffuse texture; the same with a
    diffuse texture that is there. *)
Definition glow_material : Material.t :=
  sample_material "M_Glow" 9 [lost_texture; normals_texture] [rough_scalar]
    [P "Modulate Emissive with Diffuse" (VBool true)].

Definition lit_glow_material : Material.t :=
  sample_material "M_Glow" 9 [P "Diffuse" (VStr "/Game/T/Skin_D.Skin_D"); normals_texture]
    [rough_scalar] [P "Modulate Emissive with Diffuse" (VBool true)].

Definition gradient_glow_material : Material.t :=
  sample_material "M_Glow" 9 [lost_texture; normals_texture] [rough_scalar]
    [P "useGmapGradientLayers" (VBool true)].

(** Two materials that sample one file, the first as colour, the
    second as data, in the slots 7 and 8 of a run. *)
Definition colour_material : Material.t :=
  sample_material "M_Paint" 21 [mkParam "Diffuse" (VStr "/Game/T/Shared.Shared") (VBool true)]
    [] [].

Definition data_material : Material.t :=
  sample_material "M_Mask" 22 [mkParam "Diffuse" (VStr "/Game/T/Shared.Shared") (VBool false)]
    [] [].

Definition two_material_state : state :=
  mkState {[ 0%nat := mkMaterial "M_Paint" ∅ ∅ [] []; 1%nat := mkMaterial "M_Mask" ∅ ∅ [] [] ]}
    {[ 7%nat := mkSlot "DATA" (Some 0%nat); 8%nat := mkSlot "DATA" (Some 1%nat) ]}
    ∅ false [] ∅.

(** * Properties *)

(** ** [hash_code] and the fingerprint *)

Lemma to_hex_uint_nonnil (n : N) : N.to_hex_uint n <> Nil.
Proof.
  intros H. pose proof (Unsigned.of_to n) as Hn. rewrite H in Hn.
  cbn in Hn. subst n. discriminate H.
Qed.

Lemma hash_code_digits (n : Z) :
  hash_code n = NilEmpty.string_of_uint (N.to_hex_uint (Z.to_N (Z.abs n))).
Proof.
  unfold hash_code, py_hex.
  rewrite Z.abs_idemp.
  destruct (Z.ltb_spec (Z.abs n) 0) as [Hlt | _]; [pose proof (Z.abs_nonneg n); lia |].
  cbn [String.append drop2].
  pose proof (to_hex_uint_nonnil (Z.to_N (Z.abs n))) as Hnil.
  destruct (N.to_hex_uint (Z.to_N (Z.abs n))); [congruence | reflexivity ..].
Qed.

Lemma hash_code_inj (a b : Z) : hash_code a = hash_code b <-> Z.abs a = Z.abs b.
Proof.
  rewrite !hash_code_digits. split.
  - intros H.
    assert (Hd : N.to_hex_uint (Z.to_N (Z.abs a)) = N.to_hex_uint (Z.to_N (Z.abs b))).
    { pose proof (NilEmpty.usu (N.to_hex_uint (Z.to_N (Z.abs a)))) as Ha.
      pose proof (NilEmpty.usu (N.to_hex_uint (Z.to_N (Z.abs b)))) as Hb.
      rewrite H in Ha. congruence. }
    apply Unsigned.to_uint_inj in Hd.
    pose proof (Z.abs_nonneg a). pose proof (Z.abs_nonneg b). lia.
  - intros ->. reflexivity.
Qed.

Lemma hash_code_opp (n : Z) : hash_code (- n) = hash_code n.
Proof. apply hash_code_inj. apply Z.abs_opp. Qed.

Lemma append_inj_l (s t1 t2 : string) :
  String.append s t1 = String.append s t2 -> t1 = t2.
Proof. induction s as [| c s IH]; cbn; [auto | intros [= H]; auto]. Qed.

Lemma append_length (s t : string) :
  String.length (String.append s t) = (String.length s + String.length t)%nat.
Proof.
  induction s as [| c s IH]; [reflexivity |].
  change (S (String.length (String.append s t)) = S (String.length s + String.length t)).
  now rewrite IH.
Qed.

Lemma append_nonempty_neq (s : string) (c : ascii) (t : string) :
  String.append s (String c t) <> s.
Proof.
  intros H. apply (f_equal String.length) in H.
  rewrite append_length in H. cbn in H. lia.
Qed.

Lemma fingerprint_hash (md : Material.t) (meta : Meta.t) :
  snd (fingerprint md meta) = Material.Hash md + additional_hash_of md meta.
Proof.
  unfold fingerprint.
  destruct (Z.eqb_spec (additional_hash_of md meta) 0) as [-> | _]; cbn; lia.
Qed.

Lemma fold_left_add {A} (f : A -> Z) (l : list A) (a : Z) :
  List.fold_left (fun acc x => acc + f x) l a
  = a + List.fold_left (fun acc x => acc + f x) l 0.
Proof.
  revert a. induction l as [| x l IH]; intros a; cbn [List.fold_left]; [lia |].
  rewrite IH, (IH (0 + f x)). lia.
Qed.

Lemma fold_left_add_insert {A} (f : A -> Z) (l1 l2 : list A) (x : A) (a : Z) :
  List.fold_left (fun acc x => acc + f x) (l1 ++ x :: l2) a
  = List.fold_left (fun acc x => acc + f x) (l1 ++ l2) a + f x.
Proof.
  rewrite !List.fold_left_app. cbn.
  rewrite (fold_left_add f l2 (_ + f x)), (fold_left_add f l2 (List.fold_left _ l1 a)). lia.
Qed.

Lemma where_filter {A} (l : list A) (p : A -> bool) : where_ l p = List.filter p l.
Proof. destruct l; reflexivity. Qed.

Lemma extra_layer_hash (md : Material.t) (h : Z) (meta meta' : Meta.t) :
  extra_layer md h meta meta' ->
  additional_hash_of md meta' = additional_hash_of md meta + h.
Proof.
  intros [l1 l2 d ops sc Hd | tds l1 l2 op sc Hnm Hh];
    unfold additional_hash_of, override_parameters_of; cbn [Meta.TextureData Meta.OverrideParameters].
  - rewrite fold_left_add_insert.
    rewrite (fold_left_add _ _ (_ + TextureData.Hash d)).
    rewrite (fold_left_add _ _ (List.fold_left _ (l1 ++ l2) 0)). lia.
  - rewrite !where_filter, !List.filter_app. cbn [List.filter].
    rewrite Hnm, String.eqb_refl.
    rewrite fold_left_add_insert. lia.
Qed.

Lemma fingerprint_name_eq (md : Material.t) (meta meta' : Meta.t) :
  fst (fingerprint md meta) = fst (fingerprint md meta')
  <-> Z.abs (additional_hash_of md meta) = Z.abs (additional_hash_of md meta').
Proof.
  unfold fingerprint.
  destruct (Z.eqb_spec (additional_hash_of md meta) 0) as [-> | Hs];
    destruct (Z.eqb_spec (additional_hash_of md meta') 0) as [-> | Hs']; cbn [negb fst].
  - tauto.
  - split; [| lia]. intros H. symmetry in H.
    exfalso. revert H. apply append_nonempty_neq.
  - split; [| lia]. intros H.
    exfalso. revert H. apply append_nonempty_neq.
  - rewrite <- hash_code_inj. split.
    + intros H. apply append_inj_l in H. cbn in H. now injection H.
    + intros ->. reflexivity.
Qed.

Lemma py_hex_abs (n : Z) : py_hex (Z.abs n) = String.append "0x" (hash_code n).
Proof.
  unfold hash_code, py_hex.
  destruct (Z.ltb_spec (Z.abs n) 0) as [Hlt | _]; [pose proof (Z.abs_nonneg n); lia |].
  reflexivity.
Qed.

(** C10: the suffix token of the display name is [hex(|n|)] without
    its ["0x"], where [n] is the accumulated override hash; two
    override contexts whose sums are [n] and [-n], [n] non-zero, give
    the same display name and different cache keys. *)
Theorem C10_token_ignores_sign (md : Material.t) (meta1 meta2 : Meta.t) (n : Z) :
  n <> 0 ->
  additional_hash_of md meta1 = n ->
  additional_hash_of md meta2 = - n ->
  py_hex (Z.abs n) = String.append "0x" (hash_code n)
  /\ fst (fingerprint md meta1)
     = String.append (Material.Name md) (String.append "_" (hash_code n))
  /\ fst (fingerprint md meta2) = fst (fingerprint md meta1)
  /\ snd (fingerprint md meta2) <> snd (fingerprint md meta1).
Proof.
  intros Hn H1 H2. split; [apply py_hex_abs |]. split; [| split].
  - unfold fingerprint. rewrite H1.
    destruct (Z.eqb_spec n 0); [contradiction | reflexivity].
  - apply fingerprint_name_eq. rewrite H1, H2. apply Z.abs_opp.
  - rewrite !fingerprint_hash, H1, H2. lia.
Qed.

Lemma C10_token_ignores_sign_witness :
  5 <> 0
  /\ py_hex (Z.abs 5) = String.append "0x" (hash_code 5)
  /\ fst (fingerprint body_material (texture_meta [5])) = "M_Body_5"
  /\ fst (fingerprint body_material (texture_meta [-5]))
     = fst (fingerprint body_material (texture_meta [5]))
  /\ snd (fingerprint body_material (texture_meta [-5]))
     <> snd (fingerprint body_material (texture_meta [5])).
Proof.
  split; [lia |].
  exact (C10_token_ignores_sign body_material (texture_meta [5]) (texture_meta [-5]) 5
           ltac:(lia) eq_refl eq_refl).
Defined.

(** C4, as amended: of two imports of one descriptor that differ by one
    more applicable override layer of hash [h], the cache keys differ
    exactly when [h] is not zero, and the display names differ exactly
    when the two accumulated sums differ in absolute value. *)
Theorem C4_fingerprint_sensitivity (md : Material.t) (h : Z) (meta meta' : Meta.t) :
  extra_layer md h meta meta' ->
  (snd (fingerprint md meta') <> snd (fingerprint md meta) <-> h <> 0)
  /\ (fst (fingerprint md meta') <> fst (fingerprint md meta)
      <-> Z.abs (additional_hash_of md meta + h) <> Z.abs (additional_hash_of md meta)).
Proof.
  intros Hx. pose proof (extra_layer_hash md h meta meta' Hx) as Hs. split.
  - rewrite !fingerprint_hash, Hs. lia.
  - rewrite fingerprint_name_eq, Hs. tauto.
Qed.

Lemma C4_fingerprint_sensitivity_witness :
  extra_layer body_material 7 (texture_meta []) (texture_meta [7])
  /\ (snd (fingerprint body_material (texture_meta [7]))
        <> snd (fingerprint body_material (texture_meta [])) <-> 7 <> 0)
  /\ (fst (fingerprint body_material (texture_meta [7]))
        <> fst (fingerprint body_material (texture_meta []))
      <-> Z.abs (additional_hash_of body_material (texture_meta []) + 7)
          <> Z.abs (additional_hash_of body_material (texture_meta []))).
Proof.
  assert (Hx : extra_layer body_material 7 (texture_meta []) (texture_meta [7]))
    by exact (extra_texture_data body_material 7 [] [] (layer_of_hash 7) [] VNone eq_refl).
  split; [exact Hx |].
  exact (C4_fingerprint_sensitivity body_material 7 (texture_meta []) (texture_meta [7]) Hx).
Defined.

(** C4 as stated fails: a further texture-data entry whose hash is 0
    applies, and the cache key and the display name stay as they
    were. *)
Lemma C4_counterexample :
  extra_layer body_material 0 (texture_meta []) (texture_meta [0])
  /\ ~ (snd (fingerprint body_material (texture_meta [0]))
          <> snd (fingerprint body_material (texture_meta []))
        /\ fst (fingerprint body_material (texture_meta [0]))
          <> fst (fingerprint body_material (texture_meta []))).
Proof.
  split.
  - exact (extra_texture_data body_material 0 [] [] (layer_of_hash 0) [] VNone eq_refl).
  - intros [H _]. apply H. reflexivity.
Qed.

(** A further entry of hash -10 on top of a sum of 5 changes the cache
    key and keeps the token ["5"]. *)
Example token_collision :
  extra_layer body_material (-10) (texture_meta [5]) (texture_meta [5; -10])
  /\ fingerprint body_material (texture_meta [5]) = ("M_Body_5", 105)
  /\ fingerprint body_material (texture_meta [5; -10]) = ("M_Body_5", 95).
Proof.
  split; [| split; reflexivity].
  exact (extra_texture_data body_material (-10) [layer_of_hash 5] [] (layer_of_hash (-10))
           [] VNone eq_refl).
Qed.

(** ** The override merge *)

Lemma any_existsb {A} (l : list A) (p : A -> bool) : any l p = List.existsb p l.
Proof.
  destruct l as [| x0 l0]; [reflexivity |].
  unfold any. generalize (x0 :: l0). clear x0 l0. intros l.
  induction l as [| x l IH]; [reflexivity |].
  cbn [List.filter List.existsb]. destruct (p x); [reflexivity | exact IH].
Qed.

Lemma replace_loop_map (l : list param) (r : param) :
  replace_loop l r = List.map (fun x => if name_is (Name r) x then r else x) l.
Proof. induction l as [| x l IH]; cbn; [reflexivity | now rewrite IH]. Qed.

Lemma replace_loop_names (l : list param) (r : param) :
  List.map Name (replace_loop l r) = List.map Name l.
Proof.
  induction l as [| x l IH]; cbn; [reflexivity |]. rewrite IH.
  destruct (String.eqb_spec (Name x) (Name r)) as [-> | _]; reflexivity.
Qed.

Lemma existsb_name (l : list param) (n : string) :
  List.existsb (fun x => String.eqb (Name x) n) l
  = List.existsb (fun s => String.eqb s n) (List.map Name l).
Proof. induction l as [| x l IH]; cbn; [reflexivity | now rewrite IH]. Qed.

Lemma existsb_name_false (l : list param) (n : string) :
  List.existsb (fun x => String.eqb (Name x) n) l = false -> ~ List.In n (List.map Name l).
Proof.
  intros H Hin. apply List.in_map_iff in Hin as [x [Hx Hin]].
  assert (Ht : List.existsb (fun x => String.eqb (Name x) n) l = true).
  { apply List.existsb_exists. exists x. split; [exact Hin |]. rewrite Hx. apply String.eqb_refl. }
  congruence.
Qed.

Lemma replace_loop_absent (l : list param) (r : param) :
  List.existsb (fun x => String.eqb (Name x) (Name r)) l = false -> replace_loop l r = l.
Proof.
  induction l as [| x l IH]; cbn; [reflexivity |].
  destruct (String.eqb (Name x) (Name r)); cbn; [discriminate |].
  intros H. now rewrite IH.
Qed.

(** What the function computes, on the list it is given. *)
Lemma replace_or_add_parameter_spec (l : list param) (r : param) :
  replace_or_add_parameter l (Some r)
  = if List.existsb (name_is (Name r)) l
    then List.map (fun x => if name_is (Name r) x then r else x) l
    else l ++ [r].
Proof.
  unfold replace_or_add_parameter. rewrite any_existsb, existsb_name, replace_loop_names.
  rewrite <- existsb_name. fold (name_is (Name r)).
  change (fun x => String.eqb (Name x) (Name r)) with (name_is (Name r)).
  destruct (List.existsb (name_is (Name r)) l) eqn:Hex; cbn [negb].
  - apply replace_loop_map.
  - now rewrite replace_loop_absent.
Qed.

Lemma replace_first_nodup (l : list param) (r : param) :
  List.NoDup (List.map Name l) ->
  List.existsb (name_is (Name r)) l = true ->
  replace_first l r = Some (List.map (fun x => if name_is (Name r) x then r else x) l).
Proof.
  induction l as [| x l IH]; cbn; [discriminate |].
  intros Hnd Hex. inversion Hnd as [| ? ? Hnotin Hnd']; subst.
  change (name_is (Name r) x) with (String.eqb (Name x) (Name r)) in *.
  destruct (String.eqb_spec (Name x) (Name r)) as [Heq | Hne].
  - f_equal. f_equal. rewrite <- replace_loop_map. symmetry. apply replace_loop_absent.
    destruct (List.existsb _ l) eqn:Hl; [| reflexivity].
    exfalso. apply Hnotin. apply List.existsb_exists in Hl as [y [Hy Hyn]].
    apply String.eqb_eq in Hyn. rewrite Heq, <- Hyn. now apply List.in_map.
  - cbn in Hex. rewrite (IH Hnd' Hex). reflexivity.
Qed.

Lemma replace_first_absent (l : list param) (r : param) :
  List.existsb (name_is (Name r)) l = false -> replace_first l r = None.
Proof.
  induction l as [| x l IH]; cbn; [reflexivity |].
  unfold name_is at 1. destruct (String.eqb (Name x) (Name r)); cbn; [discriminate |].
  intros H. now rewrite IH.
Qed.

Lemma replace_or_add_parameter_names (l : list param) (o : option param) :
  List.NoDup (List.map Name l) ->
  List.NoDup (List.map Name (replace_or_add_parameter l o)).
Proof.
  intros Hnd. destruct o as [r |]; [| exact Hnd].
  rewrite replace_or_add_parameter_spec.
  destruct (List.existsb (name_is (Name r)) l) eqn:Hex.
  - rewrite <- replace_loop_map, replace_loop_names. exact Hnd.
  - rewrite List.map_app. apply List.NoDup_app; [exact Hnd | |].
    + cbn. constructor; [intros [] | constructor].
    + intros a Ha [<- | []]. revert Ha. now apply existsb_name_false.
Qed.

Lemma merge_all_names (xs l : list param) :
  List.NoDup (List.map Name l) -> List.NoDup (List.map Name (merge_all l xs)).
Proof.
  unfold merge_all. revert l.
  induction xs as [| x xs IH]; intros l Hnd; cbn [List.fold_left]; [exact Hnd |].
  apply IH. now apply replace_or_add_parameter_names.
Qed.

Lemma merge_texture_data_names (tds : list TextureData.t) (l : list param) :
  List.NoDup (List.map Name l) ->
  List.NoDup (List.map Name (List.fold_left merge_texture_data tds l)).
Proof.
  revert l. induction tds as [| d tds IH]; intros l Hnd; cbn [List.fold_left]; [exact Hnd |].
  apply IH. unfold merge_texture_data. now do 3 apply replace_or_add_parameter_names.
Qed.

Lemma merge_override_parameter_names (ops : list OverrideParameters.t)
    (t s v : list param) :
  List.NoDup (List.map Name t) -> List.NoDup (List.map Name s) ->
  List.NoDup (List.map Name v) ->
  let '(t', s', v') := List.fold_left merge_override_parameter ops (t, s, v) in
  List.NoDup (List.map Name t') /\ List.NoDup (List.map Name s')
  /\ List.NoDup (List.map Name v').
Proof.
  revert t s v.
  induction ops as [| op ops IH]; intros t s v Ht Hs Hv; cbn [List.fold_left]; [auto |].
  unfold merge_override_parameter at 2. apply IH; now apply merge_all_names.
Qed.

(** C3, as amended: one merge step overwrites every entry of equal
    name, which is the first and only one when the names of the
    sequence are unique, and appends the entry at the end when there is
    none; merging the override [Diffuse = "B"] into the base
    [Diffuse = "A"] leaves exactly the entry [Diffuse = "B"]. *)
Theorem C3_replace_or_append (l : list param) (r : param) :
  replace_or_add_parameter l (Some r)
  = (if List.existsb (name_is (Name r)) l
     then List.map (fun x => if name_is (Name r) x then r else x) l
     else l ++ [r])
  /\ (List.NoDup (List.map Name l) ->
      replace_or_add_parameter l (Some r) = spec_replace_or_append l r)
  /\ (forall md op sc,
        Material.Textures md = [diffuse_A] ->
        OverrideParameters.MaterialNameToAlter op = Material.Name md ->
        OverrideParameters.Textures op = [diffuse_B] ->
        Material.Textures (merge_overrides md (Meta.mk [] [op] sc)) = [diffuse_B]).
Proof.
  split; [apply replace_or_add_parameter_spec |]. split.
  - intros Hnd. rewrite replace_or_add_parameter_spec. unfold spec_replace_or_append.
    destruct (List.existsb (name_is (Name r)) l) eqn:Hex.
    + now rewrite replace_first_nodup.
    + now rewrite replace_first_absent.
  - intros md op sc Ht Hnm Hop.
    unfold merge_overrides, override_parameters_of.
    cbn [Meta.TextureData Meta.OverrideParameters List.fold_left where_ List.filter].
    rewrite Hnm, String.eqb_refl. cbn [List.fold_left merge_override_parameter].
    rewrite Ht, Hop. reflexivity.
Qed.

Lemma C3_replace_or_append_witness :
  List.NoDup (List.map Name [diffuse_A])
  /\ replace_or_add_parameter [diffuse_A] (Some diffuse_B)
     = spec_replace_or_append [diffuse_A] diffuse_B
  /\ Material.Textures
       (merge_overrides (sample_material "M_Body" 100 [diffuse_A] [] [])
          (Meta.mk [] [diffuse_override] VNone)) = [diffuse_B].
Proof.
  assert (Hnd : List.NoDup (List.map Name [diffuse_A])).
  { cbn. constructor; [intros [] | constructor]. }
  split; [exact Hnd |].
  destruct (C3_replace_or_append [diffuse_A] diffuse_B) as [_ [Hspec Hex]].
  split; [exact (Hspec Hnd) |].
  exact (Hex (sample_material "M_Body" 100 [diffuse_A] [] []) diffuse_override VNone
           eq_refl eq_refl eq_refl).
Defined.

(** C3 as stated fails on a sequence that holds the name twice: the
    code overwrites both entries, replacing the first one only would
    keep the second. *)
Lemma C3_counterexample :
  replace_or_add_parameter [diffuse_A; diffuse_C] (Some diffuse_B) = [diffuse_B; diffuse_B]
  /\ spec_replace_or_append [diffuse_A; diffuse_C] diffuse_B = [diffuse_B; diffuse_C]
  /\ replace_or_add_parameter [diffuse_A; diffuse_C] (Some diffuse_B)
     <> spec_replace_or_append [diffuse_A; diffuse_C] diffuse_B.
Proof. split; [reflexivity | split; [reflexivity | discriminate]]. Qed.

(** C9: when the names of the base are unique within each of the five
    kind-sequences, they are unique within each kind-sequence after
    the merge of any texture data and any override-parameter sets. *)
Theorem C9_merge_keeps_names_unique (md : Material.t) (meta : Meta.t) :
  List.NoDup (List.map Name (Material.Textures md)) ->
  List.NoDup (List.map Name (Material.Scalars md)) ->
  List.NoDup (List.map Name (Material.Vectors md)) ->
  List.NoDup (List.map Name (Material.Switches md)) ->
  List.NoDup (List.map Name (Material.ComponentMasks md)) ->
  List.NoDup (List.map Name (Material.Textures (merge_overrides md meta)))
  /\ List.NoDup (List.map Name (Material.Scalars (merge_overrides md meta)))
  /\ List.NoDup (List.map Name (Material.Vectors (merge_overrides md meta)))
  /\ List.NoDup (List.map Name (Material.Switches (merge_overrides md meta)))
  /\ List.NoDup (List.map Name (Material.ComponentMasks (merge_overrides md meta))).
Proof.
  intros Ht Hs Hv Hsw Hcm. unfold merge_overrides.
  pose proof (merge_override_parameter_names
                (override_parameters_of (Material.Name md) meta)
                (List.fold_left merge_texture_data (Meta.TextureData meta) (Material.Textures md))
                (Material.Scalars md) (Material.Vectors md)
                (merge_texture_data_names _ _ Ht) Hs Hv) as H.
  destruct (List.fold_left merge_override_parameter _ _) as [[t' s'] v'].
  cbn. tauto.
Qed.

Ltac nodup_names :=
  cbn; repeat (constructor; [cbn; intuition discriminate |]); constructor.

Lemma C9_merge_keeps_names_unique_witness :
  List.NoDup (List.map Name (Material.Textures unique_material))
  /\ List.map Name (Material.Textures (merge_overrides unique_material two_layer_meta))
     = ["Diffuse"; "Normals"]
  /\ List.NoDup (List.map Name
                   (Material.Textures (merge_overrides unique_material two_layer_meta)))
  /\ List.NoDup (List.map Name
                   (Material.Scalars (merge_overrides unique_material two_layer_meta)))
  /\ List.NoDup (List.map Name
                   (Material.Vectors (merge_overrides unique_material two_layer_meta)))
  /\ List.NoDup (List.map Name
                   (Material.Switches (merge_overrides unique_material two_layer_meta)))
  /\ List.NoDup (List.map Name
                   (Material.ComponentMasks (merge_overrides unique_material two_layer_meta))).
Proof.
  assert (Ht : List.NoDup (List.map Name (Material.Textures unique_material)))
    by nodup_names.
  split; [exact Ht |]. split; [reflexivity |].
  apply (C9_merge_keeps_names_unique unique_material two_layer_meta Ht);
    nodup_names.
Defined.

(** ** Statements: sequencing, [try] and [for] *)

Lemma mbind_unfold {A B} (c : M A) (k : A -> M B) (b : build) :
  (c ≫= k) b = match c b with
               | (Ok a, b') => k a b'
               | (Raise e, b') => (Raise e, b')
               end.
Proof. reflexivity. Qed.

Lemma mbind_ok {A B} (c : M A) (k : A -> M B) (b b' : build) (a : A) :
  c b = (Ok a, b') -> (c ≫= k) b = k a b'.
Proof. intros H. now rewrite mbind_unfold, H. Qed.

Lemma try_except_raise (body : M unit) (b b1 : build) (e : exn) :
  body b = (Raise e, b1) ->
  try_except body b = (Ok tt, with_stderr (b_stderr b1 ++ [e]) b1).
Proof. intros H. unfold try_except. now rewrite H. Qed.

(** No exception leaves a [try] whose handler prints. *)
Lemma try_except_returns (body : M unit) (b : build) : fst (try_except body b) = Ok tt.
Proof. unfold try_except. destruct (body b) as [[u | e] b1]; reflexivity. Qed.

(** A loop whose body always returns runs the body on every element. *)
Lemma for_each_fold {A} (f : A -> M unit) (l : list A) (b : build) :
  (forall x b0, fst (f x b0) = Ok tt) ->
  for_each l f b = (Ok tt, List.fold_left (fun b0 x => exec (f x) b0) l b).
Proof.
  intros Hf. revert b. induction l as [| x l IH]; intros b; [reflexivity |].
  cbn [for_each List.fold_left]. unfold bind, exec.
  specialize (Hf x b). destruct (f x b) as [[[] | e] b1]; cbn in Hf; [apply IH | discriminate].
Qed.

(** ** Parameters without a rule, exposure off *)

Definition keeps_nodes {A} (c : M A) : Prop :=
  forall b, List.length (b_nodes (exec c b)) = List.length (b_nodes b).

Lemma keeps_ret {A} (a : A) : keeps_nodes (mret a).
Proof. intros b. reflexivity. Qed.

Lemma keeps_raise {A} (e : exn) : keeps_nodes (@raise A e).
Proof. intros b. reflexivity. Qed.

Lemma keeps_lift {A} (r : exn + A) : keeps_nodes (lift r).
Proof. destruct r; intros b; reflexivity. Qed.

Lemma keeps_bind {A B} (c : M A) (k : A -> M B) :
  keeps_nodes c -> (forall a, keeps_nodes (k a)) -> keeps_nodes (c ≫= k).
Proof.
  intros Hc Hk b. unfold exec. rewrite mbind_unfold.
  specialize (Hc b). unfold exec in Hc.
  destruct (c b) as [[a | e] b1]; cbn [snd] in *; [| exact Hc].
  rewrite <- Hc. apply Hk.
Qed.

Lemma keeps_get_node (id : nat) : keeps_nodes (get_node id).
Proof. intros b. unfold exec, get_node. destruct (find_node _ _); reflexivity. Qed.

Lemma keeps_update_node (id : nat) (f : node -> node) : keeps_nodes (update_node id f).
Proof.
  apply keeps_bind; [apply keeps_get_node |].
  intros _ b. unfold exec, modify. cbn. apply List.length_map.
Qed.

Lemma keeps_set_image_attr (img k : string) (v : pyval) :
  keeps_nodes (set_image_attr img k v).
Proof. intros b. reflexivity. Qed.

(** After the sampler node is created, nothing on the path of a texture
    without a rule, exposure off, adds or removes a node. *)
Lemma texture_body_unmapped (E : env) (data : param) (target_mappings : MappingCollection)
    (target_node : nat) (b : build) :
  first (textures target_mappings) (fun x => String.eqb (name x) (Name data)) = None ->
  List.length (b_nodes (exec (texture_body E data target_mappings target_node false) b))
  = S (List.length (b_nodes b)).
Proof.
  intros Hnone. unfold texture_body. rewrite Hnone.
  unfold exec at 1. rewrite mbind_unfold. cbn [nodes_new].
  match goal with
  | |- List.length (b_nodes (snd (?k ?a ?b1))) = _ =>
      change (List.length (b_nodes (exec (k a) b1)) = S (List.length (b_nodes b)));
      transitivity (List.length (b_nodes b1))
  end.
  - match goal with |- List.length (b_nodes (exec ?c ?b1)) = _ =>
      generalize b1; change (keeps_nodes c) end.
    apply keeps_bind; [apply keeps_lift | intros image].
    apply keeps_bind; [apply keeps_update_node | intros _].
    apply keeps_bind;
      [destruct image;
         [apply keeps_bind; [apply keeps_set_image_attr | intros _; apply keeps_set_image_attr]
         | apply keeps_raise]
      | intros _].
    do 2 (apply keeps_bind; [apply keeps_update_node | intros _]).
    apply keeps_ret.
  - cbn. rewrite List.length_app. cbn. lia.
Qed.

(** The four other kinds look the rule up first: without a rule and
    with exposure off they return at once and the frame is as it was. *)
Lemma scalar_param_unmapped (E : env) (data : param) (target_mappings : MappingCollection)
    (target_node : nat) (b : build) :
  first (scalars target_mappings) (fun x => String.eqb (name x) (Name data)) = None ->
  scalar_param E data target_mappings target_node false b = (Ok tt, b).
Proof. intros H. unfold scalar_param, try_except, scalar_body. now rewrite H. Qed.

Lemma vector_param_unmapped (E : env) (data : param) (target_mappings : MappingCollection)
    (target_node : nat) (b : build) :
  first (vectors target_mappings) (fun x => String.eqb (name x) (Name data)) = None ->
  vector_param E data target_mappings target_node false b = (Ok tt, b).
Proof. intros H. unfold vector_param, try_except, vector_body. now rewrite H. Qed.

Lemma component_mask_param_unmapped (E : env) (data : param)
    (target_mappings : MappingCollection) (target_node : nat) (b : build) :
  first (component_masks target_mappings) (fun x => String.eqb (name x) (Name data)) = None ->
  component_mask_param E data target_mappings target_node false b = (Ok tt, b).
Proof.
  intros H. unfold component_mask_param, try_except, component_mask_body. now rewrite H.
Qed.

Lemma switch_param_unmapped (E : env) (data : param) (target_mappings : MappingCollection)
    (target_node : nat) (b : build) :
  first (switches target_mappings) (fun x => String.eqb (name x) (Name data)) = None ->
  switch_param E data target_mappings target_node false b = (Ok tt, b).
Proof. intros H. unfold switch_param, try_except, switch_body. now rewrite H. Qed.

(** C8, where the code departs from it: a texture whose name has no
    rule in the table is resolved with exposure off, and the node list
    of the graph is one node longer afterwards, since the sampler node
    is created before the rule is looked up. *)
Theorem C8_unmapped_texture_leaves_node (E : env) (data : param)
    (target_mappings : MappingCollection) (target_node : nat) (b : build) :
  first (textures target_mappings) (fun x => String.eqb (name x) (Name data)) = None ->
  fst (texture_param E data target_mappings target_node false b) = Ok tt
  /\ List.length (b_nodes (exec (texture_param E data target_mappings target_node false) b))
     = S (List.length (b_nodes b)).
Proof.
  intros Hnone. split; [apply try_except_returns |].
  pose proof (texture_body_unmapped E data target_mappings target_node b Hnone) as H.
  unfold texture_param, exec, try_except in *.
  destruct (texture_body E data target_mappings target_node false b) as [[u | e] b1];
    cbn [snd] in *; exact H.
Qed.

(** The gradient pass of a material that has a normal map: ["Normals"]
    has no rule in [gradient_mappings], and the frame gains a hidden
    sampler node at the origin that nothing is linked to. *)
Lemma C8_unmapped_texture_leaves_node_witness :
  first (textures gradient_mappings)
    (fun x => String.eqb (name x) (Name normals_texture)) = None
  /\ fst (texture_param sample_env normals_texture gradient_mappings 0 false
            (root_frame "FP Gradient")) = Ok tt
  /\ List.length
       (b_nodes (exec (texture_param sample_env normals_texture gradient_mappings 0 false)
                   (root_frame "FP Gradient")))
     = S (List.length (b_nodes (root_frame "FP Gradient"))).
Proof.
  split; [reflexivity |].
  exact (C8_unmapped_texture_leaves_node sample_env normals_texture gradient_mappings 0
           (root_frame "FP Gradient") eq_refl).
Defined.

Example gradient_pass_orphan :
  let b := exec (texture_param sample_env normals_texture gradient_mappings 0 false)
             (root_frame "FP Gradient") in
  List.map bl_idname (b_nodes b) = ["ShaderNodeGroup"; "ShaderNodeTexImage"]
  /\ List.map location (b_nodes b) = [(0, 0); (0, 0)]
  /\ b_links b = []
  /\ b_stderr b = [].
Proof. vm_compute. repeat split. Qed.

(** ** Failures of single parameters *)

(** An exception raised while one parameter is resolved is caught and
    printed by the resolver of its kind, and [setup_params] returns
    normally after it has run the resolver on every texture, scalar,
    vector, component mask and switch, in this order. *)
Lemma parameter_failures_are_absorbed (E : env) (md : Material.t)
    (mappings : MappingCollection) (target_node : nat) (add_unused_params : bool)
    (b : build) :
  (forall data b0 b1 e,
      texture_body E data mappings target_node add_unused_params b0 = (Raise e, b1) ->
      texture_param E data mappings target_node add_unused_params b0
      = (Ok tt, with_stderr (b_stderr b1 ++ [e]) b1))
  /\ (forall data b0 b1 e,
      scalar_body E data mappings target_node add_unused_params b0 = (Raise e, b1) ->
      scalar_param E data mappings target_node add_unused_params b0
      = (Ok tt, with_stderr (b_stderr b1 ++ [e]) b1))
  /\ (forall data b0 b1 e,
      vector_body E data mappings target_node add_unused_params b0 = (Raise e, b1) ->
      vector_param E data mappings target_node add_unused_params b0
      = (Ok tt, with_stderr (b_stderr b1 ++ [e]) b1))
  /\ (forall data b0 b1 e,
      component_mask_body E data mappings target_node add_unused_params b0 = (Raise e, b1) ->
      component_mask_param E data mappings target_node add_unused_params b0
      = (Ok tt, with_stderr (b_stderr b1 ++ [e]) b1))
  /\ (forall data b0 b1 e,
      switch_body E data mappings target_node add_unused_params b0 = (Raise e, b1) ->
      switch_param E data mappings target_node add_unused_params b0
      = (Ok tt, with_stderr (b_stderr b1 ++ [e]) b1))
  /\ setup_params E md mappings target_node add_unused_params b
     = (Ok tt,
        List.fold_left
          (fun b0 x => exec (switch_param E x mappings target_node add_unused_params) b0)
          (Material.Switches md)
          (List.fold_left
             (fun b0 x =>
                exec (component_mask_param E x mappings target_node add_unused_params) b0)
             (Material.ComponentMasks md)
             (List.fold_left
                (fun b0 x => exec (vector_param E x mappings target_node add_unused_params) b0)
                (Material.Vectors md)
                (List.fold_left
                   (fun b0 x =>
                      exec (scalar_param E x mappings target_node add_unused_params) b0)
                   (Material.Scalars md)
                   (List.fold_left
                      (fun b0 x =>
                         exec (texture_param E x mappings target_node add_unused_params) b0)
                      (Material.Textures md) b))))).
Proof.
  repeat split; try (intros data b0 b1 e H; now apply try_except_raise).
  unfold setup_params.
  rewrite (mbind_ok _ _ _ _ tt
             (for_each_fold
                (fun x => texture_param E x mappings target_node add_unused_params)
                (Material.Textures md) b (fun x b0 => try_except_returns _ b0))).
  rewrite (mbind_ok _ _ _ _ tt
             (for_each_fold
                (fun x => scalar_param E x mappings target_node add_unused_params)
                (Material.Scalars md) _ (fun x b0 => try_except_returns _ b0))).
  rewrite (mbind_ok _ _ _ _ tt
             (for_each_fold
                (fun x => vector_param E x mappings target_node add_unused_params)
                (Material.Vectors md) _ (fun x b0 => try_except_returns _ b0))).
  rewrite (mbind_ok _ _ _ _ tt
             (for_each_fold
                (fun x => component_mask_param E x mappings target_node add_unused_params)
                (Material.ComponentMasks md) _ (fun x b0 => try_except_returns _ b0))).
  apply (for_each_fold (fun x => switch_param E x mappings target_node add_unused_params)
           (Material.Switches md) _ (fun x b0 => try_except_returns _ b0)).
Qed.

(** The first texture of [patchy_material] has no file: its resolver
    raises on [node.image.alpha_mode], one line goes to the standard
    error, and the normal map and the scalar after it are wired. *)
Example patchy_material_is_resolved :
  let b := exec (setup_params sample_env patchy_material default_mappings 0 true)
             (root_frame "FP Material") in
  b_stderr b = [AttributeError "'NoneType' object has no attribute 'alpha_mode'"]
  /\ b_links b = [mkLink 2 0 0 5]
  /\ (in_defaults <$> find_node (b_nodes b) 0) = Some {[ 14%nat := VNum 0.5 ]}.
Proof. vm_compute. repeat split. Qed.

(** A texture whose path has no dot does not get as far as the disk:
    [format_image_path] raises at the unpacking and the resolver
    prints the [ValueError]. *)
Example pathless_texture_is_absorbed :
  texture_param sample_env (P "Diffuse" (VStr "")) default_mappings 0 true
    (root_frame "FP Material")
  = (Ok tt,
     with_stderr [ValueError "not enough values to unpack (expected 2, got 1)"]
       (with_new_node (fresh_node 1 "ShaderNodeTexImage") (root_frame "FP Material"))).
Proof. vm_compute. reflexivity. Qed.

(** Line 926 on a root node whose ["Diffuse"] input has no link:
    [links[0]] raises, and no [try] is around it. *)
Lemma modulate_emissive_unlinked (shader_node : nat) (b : build) (n : node) (i : nat) :
  find_node (b_nodes b) shader_node = Some n ->
  index_of "Diffuse" (inputs n) = Some i ->
  List.filter (is_input_of (shader_node, i)) (b_links b) = [] ->
  modulate_emissive shader_node b = (Raise (IndexError "tuple index out of range"), b).
Proof.
  intros Hn Hi Hl. unfold modulate_emissive, inputs_getitem, inputs_get.
  rewrite !mbind_unfold. unfold get_node. rewrite Hn, Hi.
  cbn [option_map mret M_ret ret]. rewrite mbind_unfold. unfold socket_links.
  rewrite mbind_unfold. cbn [get_build mret M_ret ret]. now rewrite Hl.
Qed.

(** C7, where the code departs from it.  An exception raised while one
    parameter is resolved is caught and printed by the resolver of its
    kind, and [setup_params] returns after it has run the resolver on
    every texture, scalar, vector, component mask and switch, in this
    order.  The construction of the graph can abort all the same: line
    926 reads [links[0]] of the ["Diffuse"] input outside every [try]
    and without the look at the number of links that lines 912 and 949
    take first.  A diffuse texture whose file is missing is absorbed
    by its resolver, the normal map and the scalar after it are
    resolved, the input is left without a link, and [import_material]
    raises [IndexError] on a material whose emission is modulated by
    the diffuse texture; with the file on disk the same material is
    imported. *)
Theorem C7_absorbed_failure_aborts_construction (E : env) (md : Material.t)
    (mappings : MappingCollection) (target_node : nat) (add_unused_params : bool)
    (b : build) :
  ((forall data b0 b1 e,
      texture_body E data mappings target_node add_unused_params b0 = (Raise e, b1) ->
      texture_param E data mappings target_node add_unused_params b0
      = (Ok tt, with_stderr (b_stderr b1 ++ [e]) b1))
  /\ (forall data b0 b1 e,
      scalar_body E data mappings target_node add_unused_params b0 = (Raise e, b1) ->
      scalar_param E data mappings target_node add_unused_params b0
      = (Ok tt, with_stderr (b_stderr b1 ++ [e]) b1))
  /\ (forall data b0 b1 e,
      vector_body E data mappings target_node add_unused_params b0 = (Raise e, b1) ->
      vector_param E data mappings target_node add_unused_params b0
      = (Ok tt, with_stderr (b_stderr b1 ++ [e]) b1))
  /\ (forall data b0 b1 e,
      component_mask_body E data mappings target_node add_unused_params b0 = (Raise e, b1) ->
      component_mask_param E data mappings target_node add_unused_params b0
      = (Ok tt, with_stderr (b_stderr b1 ++ [e]) b1))
  /\ (forall data b0 b1 e,
      switch_body E data mappings target_node add_unused_params b0 = (Raise e, b1) ->
      switch_param E data mappings target_node add_unused_params b0
      = (Ok tt, with_stderr (b_stderr b1 ++ [e]) b1))
  /\ setup_params E md mappings target_node add_unused_params b
     = (Ok tt,
        List.fold_left
          (fun b0 x => exec (switch_param E x mappings target_node add_unused_params) b0)
          (Material.Switches md)
          (List.fold_left
             (fun b0 x =>
                exec (component_mask_param E x mappings target_node add_unused_params) b0)
             (Material.ComponentMasks md)
             (List.fold_left
                (fun b0 x => exec (vector_param E x mappings target_node add_unused_params) b0)
                (Material.Vectors md)
                (List.fold_left
                   (fun b0 x =>
                      exec (scalar_param E x mappings target_node add_unused_params) b0)
                   (Material.Scalars md)
                   (List.fold_left
                      (fun b0 x =>
                         exec (texture_param E x mappings target_node add_unused_params) b0)
                      (Material.Textures md) b))))))
  /\ (forall shader_node b0 n i,
        find_node (b_nodes b0) shader_node = Some n ->
        index_of "Diffuse" (inputs n) = Some i ->
        List.filter (is_input_of (shader_node, i)) (b_links b0) = [] ->
        modulate_emissive shader_node b0
        = (Raise (IndexError "tuple index out of range"), b0))
  /\ fst (fst (import_material sample_env 7 glow_material no_meta (one_slot_state "M_Glow")))
     = Raise (IndexError "tuple index out of range")
  /\ stderr (snd (fst (import_material sample_env 7 glow_material no_meta
                         (one_slot_state "M_Glow"))))
     = [AttributeError "'NoneType' object has no attribute 'alpha_mode'"]
  /\ mat_links (get_material
                  (snd (fst (import_material sample_env 7 glow_material no_meta
                               (one_slot_state "M_Glow")))) 0)
     = [mkLink 3 0 1 5; mkLink 1 0 0 0]
  /\ (in_defaults
        <$> find_node
              (mat_nodes (get_material
                            (snd (fst (import_material sample_env 7 glow_material no_meta
                                         (one_slot_state "M_Glow")))) 0)) 1)
     = Some {[ 14%nat := VNum 0.5; 10%nat := VNum 1; 9%nat := VNum 1; 11%nat := VNum 1 ]}
  /\ fst (fst (import_material sample_env 7 lit_glow_material no_meta
                 (one_slot_state "M_Glow"))) = Ok tt.
Proof.
  split; [exact (parameter_failures_are_absorbed E md mappings target_node
                   add_unused_params b) |].
  split; [intros shader_node b0 n i; apply modulate_emissive_unlinked |].
  vm_compute. repeat split.
Qed.

(** Line 933 reads the same [links[0]]: the gradient pass of a material
    whose diffuse texture has no file aborts in the same way. *)
Example gradient_pass_aborts :
  fst (fst (import_material sample_env 7 gradient_glow_material no_meta
              (one_slot_state "M_Glow")))
  = Raise (IndexError "tuple index out of range").
Proof. vm_compute. reflexivity. Qed.


(** ** The choice of the template and of the mapping table *)

Lemma find_node_last (l : list node) (id : nat) (ty : string) :
  exists n, find_node (l ++ [fresh_node id ty]) id = Some n.
Proof.
  unfold find_node. induction l as [| x l IH]; cbn.
  - unfold fresh_node. destruct (builtin_sockets ty) as [ins outs]. cbn.
    rewrite Nat.eqb_refl. eauto.
  - destruct (Nat.eqb (nd_id x) id); eauto.
Qed.

Lemma nd_id_set_node_tree (nm : string) (g : option node_group) (n : node) :
  nd_id (set_node_tree nm g n) = nd_id n.
Proof. destruct g; reflexivity. Qed.

Lemma replace_shader_node_eq (E : env) (name_ : string) (b : build) :
  replace_shader_node E name_ b = (Ok tt, replaced E name_ b).
Proof.
  unfold replace_shader_node. rewrite mbind_unfold. cbn [get_build].
  rewrite mbind_unfold. cbn [nodes_remove modify].
  rewrite mbind_unfold. cbn [nodes_new].
  rewrite mbind_unfold. cbn [modify].
  unfold assign_node_tree, update_node. rewrite mbind_unfold. unfold get_node.
  cbn [b_nodes b_next with_nodes with_links with_next with_shader_node].
  destruct (find_node_last
              (List.filter (fun n => negb (Nat.eqb (nd_id n) (b_shader_node b))) (b_nodes b))
              (b_next b) "ShaderNodeGroup") as [n Hn].
  rewrite Hn. reflexivity.
Qed.

Lemma select_mappings_eq (E : env) (md : Material.t) (b : build) :
  select_mappings E md b = (Ok (family_mappings (last_match md)), selected E md b).
Proof.
  unfold select_mappings, selected, last_match, family_order, set_material_attr,
    set_frame_attr.
  cbn [List.rev List.app List.find family_holds].
  destruct (is_layered md), (is_toon_material md), (is_valet md), (is_glass md),
    (truthy (is_trunk_of md)), (truthy (Material.UseFoliageMaterial md));
    cbn [andb negb family_mappings];
    repeat (rewrite mbind_unfold; try rewrite replace_shader_node_eq;
            cbn [mret M_ret ret modify b_attrs]);
    reflexivity.
Qed.

Lemma find_node_fresh (assign : node -> node) (l : list node) (x : node) :
  (forall n, nd_id (assign n) = nd_id n) ->
  List.Forall (fun n => (nd_id n < nd_id x)%nat) l ->
  find_node (List.map assign (l ++ [x])) (nd_id x) = Some (assign x).
Proof.
  intros Hid Hl. unfold find_node. induction Hl as [| y l Hy Hl IH]; cbn.
  - now rewrite Hid, Nat.eqb_refl.
  - rewrite Hid. destruct (Nat.eqb_spec (nd_id y) (nd_id x)); [lia | exact IH].
Qed.

Lemma nd_id_fresh_node (id : nat) (ty : string) : nd_id (fresh_node id ty) = id.
Proof. unfold fresh_node. now destruct (builtin_sockets ty). Qed.

Lemma Forall_filter_keep {A} (P : A -> Prop) (p : A -> bool) (l : list A) :
  List.Forall P l -> List.Forall P (List.filter p l).
Proof.
  induction 1 as [| x l Hx Hl IH]; cbn; [constructor |].
  destruct (p x); [now constructor | exact IH].
Qed.

Lemma replaced_shader_tree (E : env) (name_ : string) (b : build) :
  wf_frame b -> shader_tree (replaced E name_ b) = template_in E name_.
Proof.
  intros Hwf. unfold shader_tree, replaced.
  cbn [b_nodes b_shader_node with_nodes with_shader_node with_next with_links].
  pose proof (find_node_fresh
                (fun n => if Nat.eqb (nd_id n) (b_next b)
                          then set_node_tree name_ (node_groups E name_) n else n)
                (List.filter (fun n => negb (Nat.eqb (nd_id n) (b_shader_node b))) (b_nodes b))
                (fresh_node (b_next b) "ShaderNodeGroup")) as H.
  rewrite nd_id_fresh_node in H. rewrite H.
  - rewrite nd_id_fresh_node, Nat.eqb_refl. unfold template_in.
    destruct (node_groups E name_); reflexivity.
  - intros n. destruct (Nat.eqb (nd_id n) (b_next b)); [apply nd_id_set_node_tree | reflexivity].
  - apply Forall_filter_keep. exact Hwf.
Qed.

Lemma replaced_wf (E : env) (name_ : string) (b : build) :
  wf_frame b -> wf_frame (replaced E name_ b).
Proof.
  intros Hwf. unfold wf_frame, replaced.
  cbn [b_nodes b_next with_nodes with_shader_node with_next with_links].
  apply List.Forall_map. apply List.Forall_app. split.
  - apply Forall_filter_keep. eapply List.Forall_impl; [| exact Hwf].
    intros n Hn. cbv beta in Hn |- *. destruct (Nat.eqb (nd_id n) (b_next b));
      [rewrite nd_id_set_node_tree |]; lia.
  - constructor; [| constructor]. rewrite nd_id_fresh_node, Nat.eqb_refl.
    rewrite nd_id_set_node_tree, nd_id_fresh_node. lia.
Qed.

Lemma selected_shader_tree (E : env) (md : Material.t) (b : build) :
  wf_frame b ->
  shader_tree (selected E md b)
  = match last_template md with
    | Some name_ => template_in E name_
    | None => shader_tree b
    end.
Proof.
  intros Hwf. unfold selected, last_template, family_order.
  cbn [List.rev List.app List.find family_holds].
  destruct (is_layered md), (is_toon_material md), (is_valet md), (is_glass md),
    (truthy (is_trunk_of md)), (truthy (Material.UseFoliageMaterial md));
    cbn [andb negb replaces_root family_template];
    try reflexivity;
    unfold set_frame_attr;
    repeat match goal with
           | |- context [shader_tree (with_attrs ?a ?b0)] =>
               change (shader_tree (with_attrs a b0)) with (shader_tree b0)
           end;
    apply replaced_shader_tree; repeat apply replaced_wf; exact Hwf.
Qed.

Lemma two_matches_later_wins (md : Material.t) (f1 f2 : ShaderFamily) :
  (rank f1 < rank f2)%nat ->
  (rank f2 <= rank Glass)%nat ->
  family_holds md f1 = true ->
  family_holds md f2 = true ->
  (forall f, family_holds md f = true -> f = f1 \/ f = f2) ->
  last_match md = Some f2 /\ last_template md = family_template f2.
Proof.
  intros Hlt Hle H1 H2 Honly.
  assert (Hother : forall f, f <> f1 -> f <> f2 -> family_holds md f = false).
  { intros f Hn1 Hn2. destruct (family_holds md f) eqn:Hf; [| reflexivity].
    destruct (Honly f Hf); contradiction. }
  unfold last_match, last_template, family_order.
  cbn [List.rev List.app List.find].
  destruct f1, f2; cbn [rank] in Hlt, Hle; try lia;
    rewrite ?H1, ?H2;
    repeat match goal with
           | |- context [family_holds md ?f] =>
               rewrite (Hother f) by discriminate
           end;
    cbn [andb replaces_root family_template]; split; reflexivity.
Qed.

(** C2, as amended: the tests run one after the other and a later one
    overrides an earlier one.  The mapping table is that of the last
    family, in the order layered, toon, valet, glass, trunk, foliage,
    whose test holds, and the default table when none holds; the root
    node is an instance of the template of the last such family other
    than trunk, which keeps the root node, and stays as it was when
    there is none.  In particular, when the tests of two families among
    layered, toon, valet and glass hold and no other, the table and the
    template are those of the later family. *)
Theorem C2_last_match_wins (E : env) (md : Material.t) (b : build) :
  fst (select_mappings E md b) = Ok (family_mappings (last_match md))
  /\ (wf_frame b ->
      shader_tree (exec (select_mappings E md) b)
      = match last_template md with
        | Some name_ => template_in E name_
        | None => shader_tree b
        end)
  /\ (forall f1 f2,
        (rank f1 < rank f2)%nat ->
        (rank f2 <= rank Glass)%nat ->
        family_holds md f1 = true ->
        family_holds md f2 = true ->
        (forall f, family_holds md f = true -> f = f1 \/ f = f2) ->
        last_match md = Some f2 /\ last_template md = family_template f2).
Proof.
  split; [| split].
  - now rewrite select_mappings_eq.
  - intros Hwf. unfold exec. rewrite select_mappings_eq. now apply selected_shader_tree.
  - apply two_matches_later_wins.
Qed.

Lemma root_frame_wf (template : string) : wf_frame (root_frame template).
Proof.
  unfold wf_frame, root_frame, exec.
  rewrite mbind_unfold. cbn [nodes_new]. rewrite mbind_unfold. cbn [modify].
  unfold assign_node_tree, update_node. rewrite mbind_unfold.
  unfold get_node, find_node, fresh_node. cbn.
  apply List.Forall_cons; [| apply List.Forall_nil].
  destruct (sample_groups template); cbn; lia.
Qed.

Lemma layered_toon_only (f : ShaderFamily) :
  family_holds layered_toon_material f = true -> f = Layered \/ f = Toon.
Proof. destruct f; cbn; intros H; try discriminate H; auto. Qed.

Lemma C2_last_match_wins_witness :
  wf_frame (root_frame "FP Material")
  /\ fst (select_mappings sample_env layered_toon_material (root_frame "FP Material"))
     = Ok toon_mappings
  /\ shader_tree (exec (select_mappings sample_env layered_toon_material)
                    (root_frame "FP Material")) = Some "FP Toon"
  /\ last_match layered_toon_material = Some Toon
  /\ last_template layered_toon_material = Some "FP Toon".
Proof.
  destruct (C2_last_match_wins sample_env layered_toon_material (root_frame "FP Material"))
    as [Htable [Htree Hlater]].
  split; [apply root_frame_wf |]. split; [exact Htable |].
  split; [exact (Htree (root_frame_wf "FP Material")) |].
  exact (Hlater Layered Toon ltac:(cbn; lia) ltac:(cbn; lia) eq_refl eq_refl
           layered_toon_only).
Defined.

(** C2 as stated fails: the material passes the tests of the layered
    and of the toon family; the first match is the layered family, and
    the code ends with the toon table and the toon template. *)
Lemma C2_counterexample :
  family_holds layered_toon_material Layered = true
  /\ family_holds layered_toon_material Toon = true
  /\ spec_first_match layered_toon_material = Some Layered
  /\ fst (select_mappings sample_env layered_toon_material (root_frame "FP Material"))
     = Ok toon_mappings
  /\ shader_tree (exec (select_mappings sample_env layered_toon_material)
                    (root_frame "FP Material")) = Some "FP Toon"
  /\ toon_mappings <> family_mappings (spec_first_match layered_toon_material)
  /\ Some "FP Toon" <> family_template Layered.
Proof.
  split; [reflexivity |]. split; [reflexivity |]. split; [reflexivity |].
  split; [reflexivity |]. split; [reflexivity |]. split; [| discriminate].
  intros H. apply (f_equal (fun m => List.length (textures m))) in H. discriminate H.
Qed.

(** C6: when the trunk switch and the foliage flag are both set, the
    trunk table is chosen and the foliage branch is not taken: the
    selection does what it does for the same material without the
    foliage flag, the foliage template is not the one the root node
    gets, and the sub-surface attribute of the material is as it was. *)
Theorem C6_trunk_excludes_foliage (E : env) (md : Material.t) (b : build) :
  truthy (is_trunk_of md) = true ->
  truthy (Material.UseFoliageMaterial md) = true ->
  fst (select_mappings E md b) = Ok trunk_mappings
  /\ family_holds md Foliage = false
  /\ select_mappings E md b = select_mappings E (set_foliage VNone md) b
  /\ last_template md <> Some "FP Foliage"
  /\ b_attrs (exec (select_mappings E md) b) !! "use_sss_translucency"
     = b_attrs b !! "use_sss_translucency".
Proof.
  intros Htrunk Hfol.
  assert (Hlast : last_match md = Some Trunk).
  { unfold last_match, family_order. cbn [List.rev List.app List.find family_holds].
    now rewrite Htrunk, Hfol. }
  assert (Hsel : selected E md b = selected E (set_foliage VNone md) b).
  { unfold selected.
    change (is_trunk_of (set_foliage VNone md)) with (is_trunk_of md).
    change (Material.UseFoliageMaterial (set_foliage VNone md)) with VNone.
    rewrite Htrunk, Hfol. reflexivity. }
  split; [| split; [| split; [| split]]].
  - rewrite select_mappings_eq, Hlast. reflexivity.
  - cbn [family_holds]. now rewrite Htrunk, Hfol.
  - rewrite !select_mappings_eq, Hsel. f_equal.
    unfold last_match, family_order. cbn [List.rev List.app List.find family_holds].
    change (is_trunk_of (set_foliage VNone md)) with (is_trunk_of md).
    now rewrite Htrunk, Hfol.
  - unfold last_template, family_order. cbn [List.rev List.app List.find family_holds].
    rewrite Htrunk, Hfol. cbn [andb negb replaces_root family_template].
    destruct (is_glass md), (is_valet md), (is_toon_material md), (is_layered md);
      cbn; discriminate.
  - unfold exec. rewrite select_mappings_eq. cbn [snd]. unfold selected.
    rewrite Htrunk, Hfol. cbn [andb negb]. unfold set_frame_attr.
    destruct (is_glass md), (is_valet md), (is_toon_material md), (is_layered md);
      cbn [b_attrs with_attrs]; rewrite ?lookup_insert_ne by discriminate;
      reflexivity.
Qed.

Lemma C6_trunk_excludes_foliage_witness :
  truthy (is_trunk_of trunk_foliage_material) = true
  /\ truthy (Material.UseFoliageMaterial trunk_foliage_material) = true
  /\ fst (select_mappings sample_env trunk_foliage_material (root_frame "FP Material"))
     = Ok trunk_mappings
  /\ shader_tree (exec (select_mappings sample_env trunk_foliage_material)
                    (root_frame "FP Material")) = Some "FP Material".
Proof.
  split; [reflexivity |]. split; [reflexivity |].
  destruct (C6_trunk_excludes_foliage sample_env trunk_foliage_material
              (root_frame "FP Material") eq_refl eq_refl) as [Htable _].
  split; [exact Htable | reflexivity].
Defined.

(** ** The vertex-crunch short circuit *)




(** [crunch_material] in a slot whose material has its name: after the
    import the material carries the mark, of the inputs of the root
    node only ["Alpha"] (index 8) has a value, and nothing was printed;
    the same material without the scalar gets the fix-ups of the
    default template. *)
Example crunch_material_imported :
  let st := snd (fst (import_material sample_env 7 crunch_material no_meta
                        (one_slot_state "M_Hidden"))) in
  mat_props (get_material st 0) = {[ "Crunch Verts" := VBool true ]}
  /\ (in_defaults <$> find_node (mat_nodes (get_material st 0)) 1)
     = Some {[ 8%nat := VNum 0 ]}
  /\ stderr st = [].
Proof. vm_compute. repeat split. Qed.

Example plain_material_imported :
  let st := snd (fst (import_material sample_env 7 plain_material no_meta
                        (one_slot_state "M_Hidden"))) in
  mat_props (get_material st 0) = ∅
  /\ (in_defaults <$> find_node (mat_nodes (get_material st 0)) 1)
     = Some {[ 9%nat := VNum 1; 10%nat := VNum 1; 11%nat := VNum 1;
               16%nat := VNum 0; 20%nat := VNum 1 ]}.
Proof. vm_compute. repeat split. Qed.


(** ** The material cache *)

Lemma set_slot_twice (s : nat) (v1 v2 : material_slot) (st : state) :
  set_slot s v2 (set_slot s v1 st) = set_slot s v2 st.
Proof. unfold set_slot. cbn. now rewrite insert_insert_eq. Qed.

Lemma get_slot_set_slot (s : nat) (v : material_slot) (st : state) :
  get_slot (set_slot s v st) s = v.
Proof. unfold get_slot, set_slot. cbn. now rewrite lookup_insert_eq. Qed.

(** A cache hit: the slot gets the cached material and nothing else
    changes. *)
Lemma import_material_hit (E : env) (slot_ : nat) (md : Material.t) (meta : Meta.t)
    (st : state) (h : nat) :
  imported_materials st !! snd (fingerprint md meta) = Some h ->
  import_material E slot_ md meta st
  = (Ok tt, set_slot slot_ (mkSlot "OBJECT" (Some h)) st, md).
Proof.
  intros Hhit. unfold import_material.
  destruct (fingerprint md meta) as [material_name material_hash]. cbn [snd] in Hhit.
  cbn [imported_materials set_slot]. rewrite Hhit.
  now rewrite set_slot_twice.
Qed.

Lemma claim_material_cache (E : env) (slot_ : nat) (material_name : string)
    (material_hash : Z) (current : nat) (st : state) :
  imported_materials (snd (claim_material E slot_ material_name material_hash current st))
  = <[material_hash := fst (claim_material E slot_ material_name material_hash current st)]>
      (imported_materials st).
Proof.
  unfold claim_material.
  destruct (negb (String.eqb _ _)); reflexivity.
Qed.

Lemma claim_material_slot (E : env) (slot_ : nat) (material_name : string)
    (material_hash : Z) (current : nat) (st : state) :
  slot_material (get_slot st slot_) = Some current ->
  slot_material
    (get_slot (snd (claim_material E slot_ material_name material_hash current st)) slot_)
  = Some (fst (claim_material E slot_ material_name material_hash current st)).
Proof.
  intros Hslot. unfold claim_material.
  destruct (negb (String.eqb _ _)).
  - unfold materials_new. cbn [fst snd]. unfold register, get_slot, set_slot. cbn.
    now rewrite lookup_insert_eq.
  - cbn [fst snd]. exact Hslot.
Qed.

(** An import leaves the entries of the cache in place. *)
Lemma import_material_keeps_cache (E : env) (slot_ : nat) (md : Material.t) (meta : Meta.t)
    (st : state) (k : Z) (h : nat) :
  imported_materials st !! k = Some h ->
  imported_materials (snd (fst (import_material E slot_ md meta st))) !! k = Some h.
Proof.
  intros Hk. unfold import_material.
  destruct (fingerprint md meta) as [material_name material_hash].
  cbn [imported_materials set_slot].
  destruct (imported_materials st !! material_hash) as [existing |] eqn:Hlook;
    [exact Hk |].
  destruct (slot_material (get_slot st slot_)) as [current |]; [| exact Hk].
  destruct (claim_material E slot_ material_name material_hash current _)
    as [h' st'] eqn:Hclaim.
  destruct (build_graph E material_name _ meta _) as [r b].
  cbn [fst snd end_build imported_materials].
  pose proof (claim_material_cache E slot_ material_name material_hash current
                (set_slot slot_ (mkSlot "OBJECT" (Some current)) st)) as Hc.
  rewrite Hclaim in Hc. cbn [fst snd] in Hc. rewrite Hc.
  rewrite lookup_insert_ne; [exact Hk |].
  intros ->. cbn in Hlook. congruence.
Qed.

Lemma import_all_keeps_cache (calls : list (env * nat * Material.t * Meta.t))
    (st : state) (k : Z) (h : nat) :
  imported_materials st !! k = Some h ->
  imported_materials (import_all calls st) !! k = Some h.
Proof.
  unfold import_all. revert st.
  induction calls as [| [[[E s] md] meta] calls IH]; intros st Hk; [exact Hk |].
  cbn [List.fold_left]. apply IH. now apply import_material_keeps_cache.
Qed.

(** An import that finds the key in the cache, or whose slot holds a
    material, leaves the key in the cache, bound to the material the
    slot holds afterwards. *)
Lemma import_material_registers (E : env) (slot_ : nat) (md : Material.t) (meta : Meta.t)
    (st : state) :
  is_Some (imported_materials st !! snd (fingerprint md meta))
  \/ is_Some (slot_material (get_slot st slot_)) ->
  exists h,
    imported_materials (snd (fst (import_material E slot_ md meta st)))
      !! snd (fingerprint md meta) = Some h
    /\ slot_material (get_slot (snd (fst (import_material E slot_ md meta st))) slot_)
       = Some h.
Proof.
  intros Hpre.
  destruct (imported_materials st !! snd (fingerprint md meta)) as [existing |] eqn:Hlook.
  - exists existing. rewrite (import_material_hit E slot_ md meta st existing Hlook).
    cbn [fst snd]. split; [exact Hlook | now rewrite get_slot_set_slot].
  - destruct Hpre as [[x Hx] | [current Hcur]]; [discriminate |].
    unfold import_material. rewrite Hcur.
    destruct (fingerprint md meta) as [material_name material_hash]. cbn [snd] in *.
    cbn [imported_materials set_slot]. rewrite Hlook.
    pose proof (claim_material_cache E slot_ material_name material_hash current
                  (set_slot slot_ (mkSlot "OBJECT" (Some current)) st)) as Hc.
    pose proof (claim_material_slot E slot_ material_name material_hash current
                  (set_slot slot_ (mkSlot "OBJECT" (Some current)) st)) as Hs.
    rewrite get_slot_set_slot in Hs. specialize (Hs eq_refl).
    destruct (claim_material E slot_ material_name material_hash current _) as [h st'].
    cbn [fst snd] in Hc, Hs.
    destruct (build_graph E material_name _ meta _) as [r b].
    exists h. cbn [fst snd]. split.
    + cbn [end_build imported_materials]. rewrite Hc. apply lookup_insert_eq.
    + exact Hs.
Qed.

(** C1: after an import that reached the cache (the key was there, or
    the slot held a material to build on), and after any further
    imports of the run, an import with the same fingerprint returns
    normally, gives its slot the very material the first import left
    in its slot, and changes nothing else: no material is created, no
    node tree is touched, the cache is as it was. *)
Theorem C1_cache_identity (E1 E2 : env) (slot1 slot2 : nat) (md1 md2 : Material.t)
    (meta1 meta2 : Meta.t) (calls : list (env * nat * Material.t * Meta.t)) (st : state) :
  is_Some (imported_materials st !! snd (fingerprint md1 meta1))
  \/ is_Some (slot_material (get_slot st slot1)) ->
  snd (fingerprint md2 meta2) = snd (fingerprint md1 meta1) ->
  exists h,
    slot_material (get_slot (snd (fst (import_material E1 slot1 md1 meta1 st))) slot1)
    = Some h
    /\ import_material E2 slot2 md2 meta2
         (import_all calls (snd (fst (import_material E1 slot1 md1 meta1 st))))
       = (Ok tt,
          set_slot slot2 (mkSlot "OBJECT" (Some h))
            (import_all calls (snd (fst (import_material E1 slot1 md1 meta1 st)))),
          md2).
Proof.
  intros Hpre Hfp.
  destruct (import_material_registers E1 slot1 md1 meta1 st Hpre) as [h [Hcache Hslot]].
  exists h. split; [exact Hslot |].
  apply import_material_hit. rewrite Hfp.
  now apply import_all_keeps_cache.
Qed.

Lemma C1_cache_identity_witness :
  (is_Some (imported_materials (one_slot_state "M_Hidden")
              !! snd (fingerprint plain_material no_meta))
   \/ is_Some (slot_material (get_slot (one_slot_state "M_Hidden") 7)))
  /\ snd (fingerprint plain_material foreign_meta) = snd (fingerprint plain_material no_meta)
  /\ exists h,
       slot_material
         (get_slot (snd (fst (import_material sample_env 7 plain_material no_meta
                                (one_slot_state "M_Hidden")))) 7) = Some h
       /\ import_material sample_env 8 plain_material foreign_meta
            (import_all [(sample_env, 8%nat, layered_toon_material, no_meta)]
               (snd (fst (import_material sample_env 7 plain_material no_meta
                            (one_slot_state "M_Hidden")))))
          = (Ok tt,
             set_slot 8 (mkSlot "OBJECT" (Some h))
               (import_all [(sample_env, 8%nat, layered_toon_material, no_meta)]
                  (snd (fst (import_material sample_env 7 plain_material no_meta
                               (one_slot_state "M_Hidden"))))),
             plain_material).
Proof.
  assert (Hpre : is_Some (imported_materials (one_slot_state "M_Hidden")
                            !! snd (fingerprint plain_material no_meta))
                 \/ is_Some (slot_material (get_slot (one_slot_state "M_Hidden") 7))).
  { right. exists 0%nat. reflexivity. }
  split; [exact Hpre |]. split; [reflexivity |].
  exact (C1_cache_identity sample_env sample_env 7 8 plain_material plain_material no_meta
           foreign_meta [(sample_env, 8%nat, layered_toon_material, no_meta)]
           (one_slot_state "M_Hidden") Hpre eq_refl).
Defined.

(** The run of the witness: the first import builds the graph on the
    material of slot 7, the import in between creates a second
    material, and the last import hands slot 8 the first one. *)
Example two_slots_share_a_material :
  let st1 := snd (fst (import_material sample_env 7 plain_material no_meta
                         (one_slot_state "M_Hidden"))) in
  let st2 := import_all [(sample_env, 8%nat, layered_toon_material, no_meta)] st1 in
  let st3 := snd (fst (import_material sample_env 8 plain_material foreign_meta st2)) in
  slot_material (get_slot st1 7) = Some 0%nat
  /\ slot_material (get_slot st2 8) = Some 1%nat
  /\ slot_material (get_slot st3 8) = Some 0%nat
  /\ materials st3 = materials st2.
Proof. vm_compute. repeat split. Qed.

(** * Further properties *)

(** ** The list helpers *)

Lemma first_find {A} (l : list A) (p : A -> bool) : first l p = List.find p l.
Proof. destruct l; reflexivity. Qed.

Lemma find_head_filter {A} (l : list A) (p : A -> bool) :
  List.find p l = List.head (List.filter p l).
Proof.
  induction l as [| x l IH]; [reflexivity |]. cbn. destruct (p x); [reflexivity | exact IH].
Qed.

(** X1: [first] returns the head of what [where] keeps, and [any] holds
    exactly when [where] keeps something; on the empty list [first] is
    [None], [where] is empty and [any] is false. *)
Theorem first_where_any {A} (target : list A) (expr : A -> bool) :
  first target expr = List.head (where_ target expr)
  /\ (any target expr = true <-> where_ target expr <> [])
  /\ (any target expr = true <-> exists x, first target expr = Some x)
  /\ (forall x, first target expr = Some x -> List.In x target /\ expr x = true).
Proof.
  rewrite first_find, where_filter, any_existsb, find_head_filter.
  split; [reflexivity |]. split; [| split].
  - induction target as [| x l IH]; cbn; [split; [discriminate | congruence] |].
    destruct (expr x); cbn; [split; [discriminate | reflexivity] | exact IH].
  - induction target as [| x l IH]; cbn; [split; [discriminate | intros [x [=]]] |].
    destruct (expr x); cbn; [split; eauto | exact IH].
  - intros x Hx. rewrite <- find_head_filter in Hx. now apply List.find_some in Hx.
Qed.
(** ** [add_unique] and the collection of the marked materials *)

Lemma add_unique_In {A} `{EqDecision A} (target : list A) (item x : A) :
  List.In x (add_unique target item) <-> List.In x target \/ x = item.
Proof.
  unfold add_unique. case_bool_decide as Hin.
  - apply list_elem_of_In in Hin. split; [auto | intros [H0 | ->]; auto].
  - rewrite List.in_app_iff. cbn. intuition.
Qed.

Lemma add_unique_NoDup {A} `{EqDecision A} (target : list A) (item : A) :
  List.NoDup target -> List.NoDup (add_unique target item).
Proof.
  intros Hnd. unfold add_unique. case_bool_decide as Hin; [exact Hnd |].
  apply List.NoDup_app; [exact Hnd | constructor; [intros [] | constructor] |].
  intros a Ha [<- | []]. apply Hin. now apply list_elem_of_In.
Qed.

Lemma add_unique_prefix {A} `{EqDecision A} (target : list A) (item : A) :
  exists tail, add_unique target item = target ++ tail.
Proof.
  unfold add_unique. case_bool_decide.
  - exists []. now rewrite List.app_nil_r.
  - now exists [item].
Qed.

(** X2: the loop that gathers the marked materials keeps the list free
    of duplicates and keeps what it held, in place; it adds nothing but
    materials of the given slots that carry a true ["Crunch Verts"],
    and when it returns it has every one of them.  It raises on the
    first slot that has no material. *)
Theorem collect_crunch_verts_spec (st : state) (material_slots : list nat)
    (crunch_verts_materials : list nat) :
  List.NoDup crunch_verts_materials ->
  List.NoDup (snd (collect_crunch_verts st material_slots crunch_verts_materials))
  /\ (exists tail,
        snd (collect_crunch_verts st material_slots crunch_verts_materials)
        = crunch_verts_materials ++ tail)
  /\ (forall h,
        List.In h (snd (collect_crunch_verts st material_slots crunch_verts_materials)) ->
        List.In h crunch_verts_materials
        \/ exists slot_,
             List.In slot_ material_slots
             /\ slot_material (get_slot st slot_) = Some h
             /\ truthy (crunch_verts_of st h) = true)
  /\ (fst (collect_crunch_verts st material_slots crunch_verts_materials) = Ok tt ->
      forall slot_ h,
        List.In slot_ material_slots ->
        slot_material (get_slot st slot_) = Some h ->
        truthy (crunch_verts_of st h) = true ->
        List.In h (snd (collect_crunch_verts st material_slots crunch_verts_materials)))
  /\ (fst (collect_crunch_verts st material_slots crunch_verts_materials) = Ok tt
      <-> forall slot_,
            List.In slot_ material_slots -> slot_material (get_slot st slot_) <> None).
Proof.
  revert crunch_verts_materials.
  induction material_slots as [| s rest IH]; intros acc Hnd; cbn [collect_crunch_verts].
  - cbn. split; [exact Hnd |]. split; [exists []; now rewrite List.app_nil_r |].
    split; [auto |]. split; [intros _ s h [] |].
    split; [intros _ s [] | reflexivity].
  - destruct (slot_material (get_slot st s)) as [h0 |] eqn:Hs.
    + destruct (truthy (crunch_verts_of st h0)) eqn:Ht; cbn [negb].
      * destruct (IH (add_unique acc h0) (add_unique_NoDup acc h0 Hnd))
          as (H1 & [tail Htail] & H3 & H4 & H5).
        split; [exact H1 |]. split; [| split; [| split]].
        -- destruct (add_unique_prefix acc h0) as [t0 Ht0]. exists (t0 ++ tail).
           now rewrite Htail, Ht0, List.app_assoc.
        -- intros h Hh. destruct (H3 h Hh) as [Hin | (s' & Hs' & Hm & Hc)].
           ++ apply add_unique_In in Hin as [Hin | ->]; [now left |].
              right. exists s. cbn. auto.
           ++ right. exists s'. cbn. auto.
        -- intros Hok s' h [<- | Hin] Hm Hc.
           ++ rewrite Hs in Hm. injection Hm as <-. rewrite Htail.
              apply List.in_app_iff. left. apply add_unique_In. now right.
           ++ now apply (H4 Hok s' h).
        -- rewrite H5. split.
           ++ intros Hall s' [<- | Hin]; [congruence | now apply Hall].
           ++ intros Hall s' Hin. apply Hall. now right.
      * destruct (IH acc Hnd) as (H1 & H2 & H3 & H4 & H5).
        split; [exact H1 |]. split; [exact H2 |]. split; [| split].
        -- intros h Hh. destruct (H3 h Hh) as [Hin | (s' & Hs' & Hm & Hc)]; [now left |].
           right. exists s'. cbn. auto.
        -- intros Hok s' h [<- | Hin] Hm Hc.
           ++ rewrite Hs in Hm. injection Hm as <-. congruence.
           ++ now apply (H4 Hok s' h).
        -- rewrite H5. split.
           ++ intros Hall s' [<- | Hin]; [congruence | now apply Hall].
           ++ intros Hall s' Hin. apply Hall. now right.
    + cbn. split; [exact Hnd |]. split; [exists []; now rewrite List.app_nil_r |].
      split; [auto |]. split; [discriminate |].
      split; [discriminate |]. intros Hall. exfalso. apply (Hall s); [now left | exact Hs].
Qed.

Lemma collect_crunch_verts_spec_witness :
  List.NoDup (@nil nat)
  /\ List.NoDup (snd (collect_crunch_verts crunch_done [7; 8]%nat []))
  /\ (fst (collect_crunch_verts crunch_done [7; 8]%nat []) = Ok tt
      <-> forall slot_,
            List.In slot_ [7; 8]%nat -> slot_material (get_slot crunch_done slot_) <> None).
Proof.
  assert (Hnd : List.NoDup (@nil nat)) by constructor.
  destruct (collect_crunch_verts_spec crunch_done [7; 8]%nat [] Hnd)
    as (H1 & _ & _ & _ & H5).
  split; [exact Hnd |]. split; [exact H1 | exact H5].
Defined.

(** Two slots that share the marked material give one entry; a slot
    without a material stops the loop. *)
Example shared_crunch_material_once :
  collect_crunch_verts crunch_done [7; 8]%nat [] = (Ok tt, [0%nat])
  /\ fst (collect_crunch_verts crunch_done [7; 9; 8]%nat [])
     = Raise (AttributeError "'NoneType' object has no attribute 'get'").
Proof. vm_compute. split; reflexivity. Qed.
(** ** More on [hash_code] and the fingerprint *)

(** X3: the token reads back: parsed as a hexadecimal numeral,
    [hash_code n] is the absolute value of [n]. *)
Theorem hash_code_round_trip (n : Z) :
  option_map N.of_hex_uint (NilEmpty.uint_of_string (hash_code n))
  = Some (Z.to_N (Z.abs n)).
Proof.
  rewrite hash_code_digits, NilEmpty.usu. cbn [option_map].
  now rewrite Unsigned.of_to.
Qed.

Lemma sum_filter {A} (f : A -> Z) (p : A -> bool) (l : list A) (a : Z) :
  List.fold_left (fun acc x => acc + f x) (List.filter p l) a
  = List.fold_left (fun acc x => acc + (if p x then f x else 0)) l a.
Proof.
  revert a. induction l as [| x l IH]; intros a; [reflexivity |].
  cbn [List.filter List.fold_left]. destruct (p x); cbn [List.fold_left]; rewrite IH.
  - reflexivity.
  - now rewrite Z.add_0_r.
Qed.

Lemma sum_Permutation {A} (f : A -> Z) (l l' : list A) (a : Z) :
  Permutation l l' ->
  List.fold_left (fun acc x => acc + f x) l a = List.fold_left (fun acc x => acc + f x) l' a.
Proof.
  intros Hp. revert a. induction Hp as [| x l l' Hp IH | x y l | l l' l'' H1 IH1 H2 IH2];
    intros a; cbn [List.fold_left].
  - reflexivity.
  - apply IH.
  - f_equal. lia.
  - now rewrite IH1.
Qed.

Lemma sum_zero {A} (f : A -> Z) (l : list A) :
  (forall x, List.In x l -> f x = 0) -> List.fold_left (fun acc x => acc + f x) l 0 = 0.
Proof.
  induction l as [| x l IH]; intros H; [reflexivity |]. cbn [List.fold_left].
  rewrite (H x) by now left. apply IH. intros y Hy. apply H. now right.
Qed.

Lemma additional_hash_split (md : Material.t) (meta : Meta.t) :
  additional_hash_of md meta
  = List.fold_left (fun acc d => acc + TextureData.Hash d) (Meta.TextureData meta) 0
    + List.fold_left
        (fun acc op =>
           acc + (if String.eqb (OverrideParameters.MaterialNameToAlter op) (Material.Name md)
                  then OverrideParameters.Hash op else 0))
        (Meta.OverrideParameters meta) 0.
Proof.
  unfold additional_hash_of, override_parameters_of.
  rewrite where_filter, sum_filter.
  now rewrite fold_left_add.
Qed.

(** X4: the override-parameter sets that name another material count
    for nothing: with no texture data and no set that names the
    material, the display name and the cache key are the name and the
    hash of the descriptor. *)
Theorem fingerprint_without_layers (md : Material.t) (meta : Meta.t) :
  Meta.TextureData meta = [] ->
  (forall op, List.In op (Meta.OverrideParameters meta) ->
              OverrideParameters.MaterialNameToAlter op <> Material.Name md) ->
  fingerprint md meta = (Material.Name md, Material.Hash md).
Proof.
  intros Htd Hops.
  assert (H0 : additional_hash_of md meta = 0).
  { rewrite additional_hash_split, Htd. cbn [List.fold_left].
    apply sum_zero. intros op Hin.
    destruct (String.eqb_spec (OverrideParameters.MaterialNameToAlter op) (Material.Name md));
      [now apply Hops in Hin | reflexivity]. }
  unfold fingerprint. now rewrite H0.
Qed.

Lemma body_foreign_layer (op : OverrideParameters.t) :
  List.In op (Meta.OverrideParameters (Meta.mk [] [diffuse_override] VNone)) ->
  OverrideParameters.MaterialNameToAlter op <> Material.Name plain_material.
Proof. intros [<- | []]. discriminate. Qed.

Lemma fingerprint_without_layers_witness :
  Meta.TextureData foreign_meta = []
  /\ fingerprint plain_material foreign_meta = ("M_Hidden", 55).
Proof.
  split; [reflexivity |].
  exact (fingerprint_without_layers plain_material foreign_meta eq_refl body_foreign_layer).
Defined.

(** X5: the fingerprint does not see the order of the layers, nor the
    skin colour: two override contexts whose texture data and whose
    override-parameter sets are permutations of each other give the
    same display name and the same cache key. *)
Theorem fingerprint_Permutation (md : Material.t) (meta meta' : Meta.t) :
  Permutation (Meta.TextureData meta) (Meta.TextureData meta') ->
  Permutation (Meta.OverrideParameters meta) (Meta.OverrideParameters meta') ->
  fingerprint md meta = fingerprint md meta'.
Proof.
  intros Htd Hops.
  assert (H : additional_hash_of md meta = additional_hash_of md meta').
  { rewrite !additional_hash_split.
    rewrite (sum_Permutation _ _ _ 0 Htd).
    now rewrite (sum_Permutation _ _ _ 0 Hops). }
  unfold fingerprint. now rewrite H.
Qed.

Lemma fingerprint_Permutation_witness :
  Permutation (Meta.TextureData layers_A_B) (Meta.TextureData layers_B_A)
  /\ fingerprint body_material layers_A_B = fingerprint body_material layers_B_A.
Proof.
  assert (Hp : Permutation (Meta.TextureData layers_A_B) (Meta.TextureData layers_B_A))
    by apply perm_swap.
  split; [exact Hp |].
  exact (fingerprint_Permutation body_material layers_A_B layers_B_A Hp (perm_nil _)).
Defined.

(** The merge does see the order: the two contexts share the cache key
    and leave different textures. *)
Example same_key_other_textures :
  fingerprint body_material layers_A_B = ("M_Body_c", 112)
  /\ Material.Textures (merge_overrides body_material layers_A_B) = [diffuse_B]
  /\ Material.Textures (merge_overrides body_material layers_B_A) = [diffuse_A].
Proof. repeat split. Qed.
(** ** More on the override merge *)

Lemma get_param_find (l : list param) (n : string) :
  get_param l n = match List.find (name_is n) l with
                  | Some found => Value found
                  | None => VNone
                  end.
Proof. unfold get_param. now rewrite first_find. Qed.

Lemma find_swap_other (l : list param) (r : param) (n : string) :
  Name r <> n ->
  List.find (name_is n) (List.map (fun x => if name_is (Name r) x then r else x) l)
  = List.find (name_is n) l.
Proof.
  intros Hne. induction l as [| x l IH]; [reflexivity |]. cbn [List.map List.find].
  destruct (name_is (Name r) x) eqn:Hx.
  - apply String.eqb_eq in Hx.
    assert (Hr : name_is n r = false) by now apply String.eqb_neq.
    assert (Hxn : name_is n x = false) by (apply String.eqb_neq; congruence).
    now rewrite Hr, Hxn.
  - destruct (name_is n x); [reflexivity | exact IH].
Qed.

Lemma find_swap_same (l : list param) (r : param) :
  List.existsb (name_is (Name r)) l = true ->
  List.find (name_is (Name r)) (List.map (fun x => if name_is (Name r) x then r else x) l)
  = Some r.
Proof.
  induction l as [| x l IH]; [discriminate |]. cbn [List.existsb List.map List.find].
  destruct (name_is (Name r) x) eqn:Hx; cbn [orb].
  - intros _. unfold name_is. now rewrite String.eqb_refl.
  - intros Hex. rewrite Hx. now apply IH.
Qed.

Lemma find_absent (l : list param) (n : string) :
  List.existsb (name_is n) l = false -> List.find (name_is n) l = None.
Proof.
  induction l as [| x l IH]; [reflexivity |]. cbn.
  destruct (name_is n x); [discriminate | exact IH].
Qed.

Lemma find_app_single (l : list param) (r : param) (n : string) :
  List.find (name_is n) (l ++ [r])
  = match List.find (name_is n) l with
    | Some x => Some x
    | None => if name_is n r then Some r else None
    end.
Proof.
  induction l as [| x l IH]; [reflexivity |]. cbn.
  destruct (name_is n x); [reflexivity | exact IH].
Qed.

(** Look-up after one merge step. *)
Lemma get_param_merge_step (l : list param) (r : param) (n : string) :
  get_param (replace_or_add_parameter l (Some r)) n
  = if String.eqb (Name r) n then Value r else get_param l n.
Proof.
  rewrite !get_param_find, replace_or_add_parameter_spec.
  destruct (String.eqb_spec (Name r) n) as [<- | Hne].
  - destruct (List.existsb (name_is (Name r)) l) eqn:Hex.
    + now rewrite find_swap_same.
    + rewrite find_app_single, (find_absent l _ Hex).
      unfold name_is. now rewrite String.eqb_refl.
  - destruct (List.existsb (name_is (Name r)) l) eqn:Hex.
    + now rewrite find_swap_other.
    + rewrite find_app_single. destruct (List.find (name_is n) l); [reflexivity |].
      unfold name_is. destruct (String.eqb_spec (Name r) n); [contradiction | reflexivity].
Qed.

(** X6: what [replace_or_add_parameter] puts in is what [get_param]
    reads back under the name of the entry; every other name reads as
    before, and so does every name when the entry is [None]. *)
Theorem get_param_after_replace_or_add (l : list param) (r : param) :
  get_param (replace_or_add_parameter l (Some r)) (Name r) = Value r
  /\ (forall n, n <> Name r ->
        get_param (replace_or_add_parameter l (Some r)) n = get_param l n)
  /\ (forall n, get_param (replace_or_add_parameter l None) n = get_param l n).
Proof.
  split; [| split].
  - now rewrite get_param_merge_step, String.eqb_refl.
  - intros n Hn. rewrite get_param_merge_step.
    destruct (String.eqb_spec (Name r) n); [congruence | reflexivity].
  - reflexivity.
Qed.

Lemma merge_all_snoc (l xs : list param) (x : param) :
  merge_all l (xs ++ [x]) = replace_or_add_parameter (merge_all l xs) (Some x).
Proof. unfold merge_all. now rewrite List.fold_left_app. Qed.

Lemma merge_all_app (l xs ys : list param) :
  merge_all l (xs ++ ys) = merge_all (merge_all l xs) ys.
Proof. unfold merge_all. now rewrite List.fold_left_app. Qed.

Lemma last_named_snoc (n : string) (xs : list param) (x : param) :
  last_named n (xs ++ [x])
  = if String.eqb (Name x) n then Some x else last_named n xs.
Proof.
  induction xs as [| y xs IH]; cbn [List.app last_named].
  - now destruct (String.eqb (Name x) n).
  - rewrite IH. destruct (String.eqb (Name x) n); [reflexivity |].
    reflexivity.
Qed.

Lemma get_param_merge_all (l xs : list param) (n : string) :
  get_param (merge_all l xs) n = overridden xs l n.
Proof.
  unfold overridden. induction xs as [| x xs IH] using List.rev_ind; [reflexivity |].
  rewrite merge_all_snoc, get_param_merge_step, last_named_snoc, IH.
  now destruct (String.eqb (Name x) n).
Qed.

Lemma merge_texture_data_items (t : list param) (d : TextureData.t) :
  merge_texture_data t d = merge_all t (texture_data_items d).
Proof.
  unfold merge_texture_data, texture_data_items.
  destruct (TextureData.Diffuse d), (TextureData.Normal d), (TextureData.Specular d);
    reflexivity.
Qed.

Lemma fold_merge_texture_data (tds : list TextureData.t) (t : list param) :
  List.fold_left merge_texture_data tds t
  = merge_all t (List.flat_map texture_data_items tds).
Proof.
  revert t. induction tds as [| d tds IH]; intros t; [reflexivity |].
  cbn [List.fold_left List.flat_map]. now rewrite IH, merge_texture_data_items, merge_all_app.
Qed.

Lemma fold_merge_override_parameter (ops : list OverrideParameters.t)
    (t s v : list param) :
  List.fold_left merge_override_parameter ops (t, s, v)
  = (merge_all t (List.flat_map OverrideParameters.Textures ops),
     merge_all s (List.flat_map OverrideParameters.Scalars ops),
     merge_all v (List.flat_map OverrideParameters.Vectors ops)).
Proof.
  revert t s v. induction ops as [| op ops IH]; intros t s v; [reflexivity |].
  cbn [List.fold_left List.flat_map]. unfold merge_override_parameter at 2.
  now rewrite IH, !merge_all_app.
Qed.

(** The lists of [material_data] after the merge, kind by kind. *)
Lemma merge_overrides_lists (md : Material.t) (meta : Meta.t) :
  merge_overrides md meta
  = Material.mk (Material.Name md) (Material.Hash md)
      (merge_all (Material.Textures md) (texture_overrides md meta))
      (merge_all (Material.Scalars md) (scalar_overrides md meta))
      (merge_all (Material.Vectors md) (vector_overrides md meta))
      (Material.Switches md) (Material.ComponentMasks md)
      (Material.AbsoluteParent md) (Material.UseGlassMaterial md)
      (Material.UseFoliageMaterial md).
Proof.
  unfold merge_overrides, texture_overrides, scalar_overrides, vector_overrides.
  rewrite fold_merge_override_parameter, fold_merge_texture_data.
  now rewrite merge_all_app.
Qed.

(** X7: the last writer wins.  After the merge a name of [textures],
    [scalars] or [vectors] reads as the last merged entry of that name
    has it, the entries of the texture data coming before those of the
    override-parameter sets, and as the base has it when no merged
    entry carries the name; switches and component masks read as in
    the base. *)
Theorem merge_overrides_last_writer (md : Material.t) (meta : Meta.t) (n : string) :
  get_param (Material.Textures (merge_overrides md meta)) n
  = overridden (texture_overrides md meta) (Material.Textures md) n
  /\ get_param (Material.Scalars (merge_overrides md meta)) n
     = overridden (scalar_overrides md meta) (Material.Scalars md) n
  /\ get_param (Material.Vectors (merge_overrides md meta)) n
     = overridden (vector_overrides md meta) (Material.Vectors md) n
  /\ get_param (Material.Switches (merge_overrides md meta)) n
     = get_param (Material.Switches md) n
  /\ get_param (Material.ComponentMasks (merge_overrides md meta)) n
     = get_param (Material.ComponentMasks md) n.
Proof.
  rewrite merge_overrides_lists. cbn [Material.Textures Material.Scalars Material.Vectors
    Material.Switches Material.ComponentMasks].
  rewrite !get_param_merge_all. repeat split.
Qed.

Lemma get_param_after_replace_or_add_witness :
  "Normals" <> Name diffuse_B
  /\ get_param (replace_or_add_parameter [diffuse_A; normals_texture] (Some diffuse_B))
       (Name diffuse_B) = Value diffuse_B
  /\ get_param (replace_or_add_parameter [diffuse_A; normals_texture] (Some diffuse_B))
       "Normals" = get_param [diffuse_A; normals_texture] "Normals".
Proof.
  assert (Hne : "Normals" <> Name diffuse_B) by discriminate.
  destruct (get_param_after_replace_or_add [diffuse_A; normals_texture] diffuse_B)
    as [Hsame [Hother _]].
  split; [exact Hne |]. split; [exact Hsame | exact (Hother "Normals" Hne)].
Defined.

Lemma replace_or_add_names (l : list param) (r : param) :
  List.map Name (replace_or_add_parameter l (Some r))
  = List.map Name l ++ (if List.existsb (name_is (Name r)) l then [] else [Name r]).
Proof.
  rewrite replace_or_add_parameter_spec.
  destruct (List.existsb (name_is (Name r)) l).
  - now rewrite <- replace_loop_map, replace_loop_names, List.app_nil_r.
  - now rewrite List.map_app.
Qed.

Lemma merge_all_names_prefix (l xs : list param) :
  exists tail, List.map Name (merge_all l xs) = List.map Name l ++ tail.
Proof.
  induction xs as [| x xs [tail IH]] using List.rev_ind.
  - exists []. cbn. now rewrite List.app_nil_r.
  - rewrite merge_all_snoc, replace_or_add_names, IH, <- List.app_assoc. eauto.
Qed.

(** X8: the merge removes nothing and moves nothing.  The names of the
    base stay where they are in [textures], [scalars] and [vectors],
    new names come after them, and the rest of [material_data], the
    switches and the component masks among it, is as it was. *)
Theorem merge_overrides_keeps_base (md : Material.t) (meta : Meta.t) :
  (exists tail,
      List.map Name (Material.Textures (merge_overrides md meta))
      = List.map Name (Material.Textures md) ++ tail)
  /\ (exists tail,
        List.map Name (Material.Scalars (merge_overrides md meta))
        = List.map Name (Material.Scalars md) ++ tail)
  /\ (exists tail,
        List.map Name (Material.Vectors (merge_overrides md meta))
        = List.map Name (Material.Vectors md) ++ tail)
  /\ Material.Switches (merge_overrides md meta) = Material.Switches md
  /\ Material.ComponentMasks (merge_overrides md meta) = Material.ComponentMasks md
  /\ Material.Name (merge_overrides md meta) = Material.Name md
  /\ Material.Hash (merge_overrides md meta) = Material.Hash md
  /\ Material.AbsoluteParent (merge_overrides md meta) = Material.AbsoluteParent md
  /\ Material.UseGlassMaterial (merge_overrides md meta) = Material.UseGlassMaterial md
  /\ Material.UseFoliageMaterial (merge_overrides md meta) = Material.UseFoliageMaterial md.
Proof.
  rewrite merge_overrides_lists. cbn.
  split; [apply merge_all_names_prefix |].
  split; [apply merge_all_names_prefix |].
  split; [apply merge_all_names_prefix |].
  repeat split.
Qed.

Lemma existsb_names (l : list param) (n : string) :
  List.existsb (name_is n) l = List.existsb (fun s => String.eqb s n) (List.map Name l).
Proof. induction l as [| x l IH]; cbn; [reflexivity | now rewrite IH]. Qed.

Lemma replace_or_add_exists (l : list param) (r : param) (n : string) :
  List.existsb (name_is n) (replace_or_add_parameter l (Some r))
  = List.existsb (name_is n) l || String.eqb (Name r) n.
Proof.
  rewrite (existsb_names (replace_or_add_parameter _ _)), replace_or_add_names.
  rewrite List.existsb_app, <- existsb_names.
  destruct (List.existsb (name_is (Name r)) l) eqn:Hex; cbn [List.existsb].
  - rewrite orb_false_r. destruct (String.eqb_spec (Name r) n) as [<- | _].
    + now rewrite Hex.
    + now rewrite orb_false_r.
  - now rewrite orb_false_r.
Qed.

(** Every merged name is in the list afterwards. *)
Lemma merge_all_present (l xs : list param) (x : param) :
  List.In x xs -> List.existsb (name_is (Name x)) (merge_all l xs) = true.
Proof.
  induction xs as [| y xs IH] using List.rev_ind; [intros [] |].
  intros Hin. rewrite merge_all_snoc, replace_or_add_exists.
  apply List.in_app_iff in Hin as [Hin | [<- | []]].
  - now rewrite IH.
  - now rewrite String.eqb_refl, orb_true_r.
Qed.

(** On a list that holds every merged name, the merge settles each
    entry in place. *)
Lemma merge_all_settles (xs l : list param) :
  (forall x, List.In x xs -> List.existsb (name_is (Name x)) l = true) ->
  merge_all l xs = List.map (settle xs) l.
Proof.
  revert l. induction xs as [| x xs IH]; intros l Hpres.
  - cbn. unfold settle. cbn. now rewrite List.map_id.
  - change (merge_all l (x :: xs))
      with (merge_all (replace_or_add_parameter l (Some x)) xs).
    rewrite replace_or_add_parameter_spec, (Hpres x) by now left.
    rewrite IH.
    + rewrite List.map_map. apply List.map_ext. intros e.
      unfold settle. cbn [last_named].
      destruct (name_is (Name x) e) eqn:He.
      * apply String.eqb_eq in He. rewrite He.
        destruct (last_named (Name x) xs); [reflexivity |].
        now rewrite String.eqb_refl.
      * destruct (last_named (Name e) xs); [reflexivity |].
        unfold name_is in He. rewrite String.eqb_sym in He. now rewrite He.
    + intros y Hy.
      rewrite existsb_names, <- replace_loop_map, replace_loop_names, <- existsb_names.
      apply Hpres. now right.
Qed.

(** The entries of a merged list are settled. *)
Lemma merge_all_settled (xs l : list param) (e : param) :
  List.In e (merge_all l xs) -> settle xs e = e.
Proof.
  revert e. induction xs as [| x xs IH] using List.rev_ind; intros e Hin; [reflexivity |].
  unfold settle. rewrite last_named_snoc.
  rewrite merge_all_snoc, replace_or_add_parameter_spec in Hin.
  destruct (List.existsb (name_is (Name x)) (merge_all l xs)) eqn:Hex.
  - apply List.in_map_iff in Hin as [e0 [He0 Hin0]].
    destruct (name_is (Name x) e0) eqn:Hn.
    + subst e. now rewrite String.eqb_refl.
    + subst e. unfold name_is in Hn. rewrite String.eqb_sym in Hn. rewrite Hn.
      apply (IH e0 Hin0).
  - apply List.in_app_iff in Hin as [Hin0 | [<- | []]].
    + destruct (String.eqb_spec (Name x) (Name e)) as [Heq | _]; [| apply (IH e Hin0)].
      exfalso. apply (existsb_name_false _ _ Hex). rewrite Heq. now apply List.in_map.
    + now rewrite String.eqb_refl.
Qed.

(** Merging the same entries again changes nothing. *)
Lemma merge_all_idempotent (l xs : list param) :
  merge_all (merge_all l xs) xs = merge_all l xs.
Proof.
  rewrite (merge_all_settles xs (merge_all l xs)) by (intros x Hx; now apply merge_all_present).
  rewrite <- (List.map_id (merge_all l xs)) at 2.
  apply List.map_ext_in. intros e He. now apply (merge_all_settled xs l).
Qed.

(** X9: the merge is idempotent, and it leaves the fingerprint alone.
    [material_data] is merged in place; importing the merged dict
    again, under the same override context, merges to the same lists
    and looks up the same cache key. *)
Theorem merge_overrides_idempotent (md : Material.t) (meta : Meta.t) :
  merge_overrides (merge_overrides md meta) meta = merge_overrides md meta
  /\ (forall meta', fingerprint (merge_overrides md meta) meta' = fingerprint md meta').
Proof.
  split.
  - rewrite (merge_overrides_lists (merge_overrides md meta)).
    rewrite merge_overrides_lists.
    cbn [Material.Name Material.Hash Material.Textures Material.Scalars Material.Vectors
         Material.Switches Material.ComponentMasks Material.AbsoluteParent
         Material.UseGlassMaterial Material.UseFoliageMaterial].
    unfold texture_overrides, scalar_overrides, vector_overrides.
    cbn [Material.Name].
    fold (texture_overrides md meta) (scalar_overrides md meta) (vector_overrides md meta).
    now rewrite !merge_all_idempotent.
  - intros meta'. now rewrite merge_overrides_lists.
Qed.


(** ** The meshes of an outfit *)

Lemma any_mesh_type (meshes : list Mesh.t) (mesh : Mesh.t) :
  any meshes (fun override_mesh =>
                String.eqb (Mesh.Type_ override_mesh) (Mesh.Type_ mesh)) = true
  <-> List.In (Mesh.Type_ mesh) (List.map Mesh.Type_ meshes).
Proof.
  rewrite any_existsb, List.existsb_exists, List.in_map_iff. split.
  - intros [x [Hin Heq]]. apply String.eqb_eq in Heq. now exists x.
  - intros [x [Heq Hin]]. exists x. split; [exact Hin |]. now apply String.eqb_eq.
Qed.

Lemma append_meshes (base overrides : list Mesh.t) :
  exists added,
    List.fold_left
      (fun meshes mesh =>
         if negb (any meshes
                    (fun override_mesh =>
                       String.eqb (Mesh.Type_ override_mesh) (Mesh.Type_ mesh)))
         then meshes ++ [mesh]
         else meshes)
      base overrides = overrides ++ added
    /\ sublist added base
    /\ List.NoDup (List.map Mesh.Type_ added)
    /\ (forall mesh, List.In mesh added ->
          ~ List.In (Mesh.Type_ mesh) (List.map Mesh.Type_ overrides))
    /\ (forall mesh, List.In mesh base ->
          List.In (Mesh.Type_ mesh) (List.map Mesh.Type_ (overrides ++ added))).
Proof.
  revert overrides. induction base as [| m base IH]; intros overrides.
  - exists []. cbn [List.fold_left]. rewrite List.app_nil_r.
    split; [reflexivity |]. split; [constructor |]. split; [constructor |].
    split; intros mesh [].
  - cbn [List.fold_left].
    destruct (any overrides _) eqn:Hany; cbn [negb].
    + destruct (IH overrides) as [added [Heq [Hsub [Hnd [Hnew Hall]]]]].
      exists added. split; [exact Heq |]. split; [now apply sublist_cons |].
      split; [exact Hnd |]. split; [exact Hnew |].
      intros mesh [<- | Hin]; [| now apply Hall].
      rewrite List.map_app, List.in_app_iff. left. now apply any_mesh_type.
    + destruct (IH (overrides ++ [m])) as [added [Heq [Hsub [Hnd [Hnew Hall]]]]].
      assert (Hm : ~ List.In (Mesh.Type_ m) (List.map Mesh.Type_ overrides)).
      { intros Hin. apply any_mesh_type in Hin. congruence. }
      exists (m :: added). split; [now rewrite Heq, <- List.app_assoc |].
      split; [now apply sublist_skip |]. split; [| split].
      * cbn [List.map]. apply List.NoDup_cons; [| exact Hnd].
        intros Hin. apply List.in_map_iff in Hin. destruct Hin as [x [Hx Hin]].
        apply (Hnew x Hin). rewrite List.map_app, List.in_app_iff. right.
        cbn. left. now rewrite Hx.
      * intros mesh [<- | Hin]; [exact Hm |].
        intros Hov. apply (Hnew mesh Hin).
        rewrite List.map_app, List.in_app_iff. now left.
      * intros mesh Hin.
        replace (overrides ++ m :: added) with ((overrides ++ [m]) ++ added)
          by now rewrite <- List.app_assoc.
        destruct Hin as [<- | Hin]; [| now apply Hall].
        rewrite !List.map_app, !List.in_app_iff. left. right. cbn. now left.
Qed.

(** X10: for an outfit or a backpack the override meshes come first and
    stay as they are; what is appended is taken from the base meshes in
    their order, one mesh at most of a type and none of a type that an
    override mesh has; every type of the base is a type of the result,
    and the types of the result are pairwise distinct when those of the
    override meshes are. *)
Theorem selected_meshes_spec (type_ : string) (Meshes OverrideMeshes : list Mesh.t) :
  str_in type_ ["Outfit"; "Backpack"] = true ->
  exists added,
    selected_meshes type_ Meshes OverrideMeshes = OverrideMeshes ++ added
    /\ sublist added Meshes
    /\ List.NoDup (List.map Mesh.Type_ added)
    /\ (forall mesh, List.In mesh added ->
          ~ List.In (Mesh.Type_ mesh) (List.map Mesh.Type_ OverrideMeshes))
    /\ (forall mesh, List.In mesh Meshes ->
          List.In (Mesh.Type_ mesh)
            (List.map Mesh.Type_ (selected_meshes type_ Meshes OverrideMeshes)))
    /\ (List.NoDup (List.map Mesh.Type_ OverrideMeshes) ->
        List.NoDup (List.map Mesh.Type_ (selected_meshes type_ Meshes OverrideMeshes))).
Proof.
  intros Ht. unfold selected_meshes. rewrite Ht.
  destruct (append_meshes Meshes OverrideMeshes) as [added [Heq [Hsub [Hnd [Hnew Hall]]]]].
  exists added. rewrite Heq.
  split; [reflexivity |]. split; [exact Hsub |]. split; [exact Hnd |].
  split; [exact Hnew |]. split; [exact Hall |].
  intros Hov. rewrite List.map_app. apply List.NoDup_app; [exact Hov | exact Hnd |].
  intros t Hin Hadd. apply List.in_map_iff in Hadd. destruct Hadd as [x [<- Hx]].
  exact (Hnew x Hx Hin).
Qed.

Lemma selected_meshes_spec_witness :
  str_in "Outfit" ["Outfit"; "Backpack"] = true
  /\ exists added,
       selected_meshes "Outfit" [base_body; base_head; base_head] [override_body]
       = [override_body] ++ added
       /\ List.NoDup (List.map Mesh.Type_ added).
Proof.
  split; [reflexivity |].
  destruct (selected_meshes_spec "Outfit" [base_body; base_head; base_head]
              [override_body] eq_refl) as [added [Heq [_ [Hnd _]]]].
  exists added. split; [exact Heq | exact Hnd].
Defined.

(** The base body gives way to the override body, the second head to
    the first; an emote, a prop or a world imports the base meshes and
    nothing of the overrides. *)
Example outfit_meshes :
  selected_meshes "Outfit" [base_body; base_head; base_head] [override_body]
  = [override_body; base_head]
  /\ selected_meshes "Prop" [base_body; base_head; base_head] [override_body]
     = [base_body; base_head; base_head].
Proof. split; reflexivity. Qed.

(** ** [get_meta] *)

Lemma first_keys (kv : list (string * pyval)) (p : string) :
  first (List.map fst kv) (fun key => String.eqb key p)
  = match assoc_get kv p with Some _ => Some p | None => None end.
Proof.
  rewrite first_find. induction kv as [| [k v] kv IH]; [reflexivity |].
  cbn [List.map List.find fst assoc_get].
  destruct (String.eqb_spec k p) as [-> | Hne]; [reflexivity | exact IH].
Qed.

Lemma get_meta_prop_some (kv : list (string * pyval)) (out_props : gmap string pyval)
    (p : string) :
  get_meta_prop (Some kv) out_props p
  = inr match assoc_get kv p with
        | Some v => if negb (String.eqb p "") then <[p := v]> out_props else out_props
        | None => out_props
        end.
Proof.
  unfold get_meta_prop. rewrite first_keys.
  destruct (assoc_get kv p) as [v |] eqn:Hv; [| reflexivity].
  cbv beta iota. rewrite Hv. cbn [default]. destruct (String.eqb p ""); reflexivity.
Qed.

Lemma str_in_cons (k p : string) (rest : list string) :
  str_in k (p :: rest) = String.eqb k p || str_in k rest.
Proof. reflexivity. Qed.

Lemma get_meta_props_some (kv : list (string * pyval)) (search_props : list string) :
  forall out_props,
  exists out,
    get_meta_props (Some kv) out_props search_props = inr out
    /\ forall k,
         out !! k
         = if wanted k search_props
           then match assoc_get kv k with Some v => Some v | None => out_props !! k end
           else out_props !! k.
Proof.
  induction search_props as [| p rest IH]; intros out_props.
  - exists out_props. split; [reflexivity |]. intros k. reflexivity.
  - cbn [get_meta_props]. rewrite get_meta_prop_some.
    set (out1 := match assoc_get kv p with
                 | Some v => if negb (String.eqb p "") then <[p := v]> out_props else out_props
                 | None => out_props
                 end).
    destruct (IH out1) as [out [Heq Hout]].
    exists out. split; [exact Heq |]. intros k. rewrite (Hout k).
    unfold wanted. rewrite str_in_cons.
    destruct (String.eqb_spec k p) as [-> | Hne].
    + cbn [orb]. unfold out1.
      destruct (String.eqb_spec p "") as [Hp | Hp]; cbn [negb andb].
      * rewrite Bool.andb_false_r. now destruct (assoc_get kv p).
      * rewrite Bool.andb_true_r.
        destruct (assoc_get kv p) as [v |] eqn:Hv; cbn [default].
        -- rewrite lookup_insert_eq. now destruct (str_in p rest).
        -- now destruct (str_in p rest).
    + cbn [orb].
      assert (Hk : out1 !! k = out_props !! k).
      { unfold out1. destruct (assoc_get kv p); [| reflexivity].
        destruct (negb _); [| reflexivity]. now rewrite lookup_insert_ne. }
      now rewrite Hk.
Qed.

Lemma get_meta_props_none (out_props : gmap string pyval) (search_props : list string) :
  search_props <> [] ->
  get_meta_props None out_props search_props
  = inl (AttributeError "'NoneType' object has no attribute 'keys'").
Proof. destruct search_props; [congruence | reflexivity]. Qed.

Lemma get_meta_from_nil (meshes : list Mesh.t) (out_props : gmap string pyval) :
  get_meta_from meshes out_props [] = inr out_props.
Proof. induction meshes as [| m meshes IH]; [reflexivity | exact IH]. Qed.

Lemma get_meta_from_some (meshes : list Mesh.t) (search_props : list string) :
  (forall mesh, List.In mesh meshes -> Mesh.Meta mesh <> None) ->
  forall out_props,
  exists out,
    get_meta_from meshes out_props search_props = inr out
    /\ forall k,
         out !! k
         = if wanted k search_props
           then match last_meta k meshes with Some v => Some v | None => out_props !! k end
           else out_props !! k.
Proof.
  induction meshes as [| m meshes IH]; intros Hall out_props.
  - exists out_props. split; [reflexivity |]. intros k. now destruct (wanted k search_props).
  - cbn [get_meta_from last_meta].
    destruct (Mesh.Meta m) as [kv |] eqn:Hm; [| exfalso; apply (Hall m); [now left | exact Hm]].
    destruct (get_meta_props_some kv search_props out_props) as [out1 [Heq1 Hout1]].
    rewrite Heq1.
    destruct (IH (fun mesh Hin => Hall mesh (or_intror Hin)) out1) as [out [Heq Hout]].
    exists out. split; [exact Heq |]. intros k. rewrite (Hout k), (Hout1 k).
    destruct (wanted k search_props); [| reflexivity].
    now destruct (last_meta k meshes).
Qed.

Lemma get_meta_from_none (meshes : list Mesh.t) (search_props : list string) :
  search_props <> [] ->
  (exists mesh, List.In mesh meshes /\ Mesh.Meta mesh = None) ->
  forall out_props,
    get_meta_from meshes out_props search_props
    = inl (AttributeError "'NoneType' object has no attribute 'keys'").
Proof.
  intros Hne. induction meshes as [| m meshes IH]; intros [mesh [Hin Hm]] out_props.
  - destruct Hin.
  - cbn [get_meta_from].
    destruct (Mesh.Meta m) as [kv |] eqn:Hkv.
    + destruct (get_meta_props_some kv search_props out_props) as [out1 [Heq1 _]].
      rewrite Heq1. apply IH. destruct Hin as [<- | Hin]; [congruence |].
      now exists mesh.
    + now rewrite get_meta_props_none.
Qed.

(** X11: [get_meta] returns, for each searched property that is not the
    empty string, the value in the last mesh of the run whose ["Meta"]
    has the key, whatever the type of that mesh, and no other key; it
    returns as soon as every mesh has a ["Meta"], or nothing is
    searched. *)
Theorem get_meta_last_mesh (meshes : list Mesh.t) (search_props : list string) :
  search_props = [] \/ (forall mesh, List.In mesh meshes -> Mesh.Meta mesh <> None) ->
  exists out,
    get_meta meshes search_props = inr out
    /\ forall k, out !! k = if wanted k search_props then last_meta k meshes else None.
Proof.
  unfold get_meta. intros [-> | Hall].
  - exists ∅. split; [apply get_meta_from_nil |]. intros k. apply lookup_empty.
  - destruct (get_meta_from_some meshes search_props Hall ∅) as [out [Heq Hout]].
    exists out. split; [exact Heq |]. intros k. rewrite (Hout k), lookup_empty.
    destruct (wanted k search_props); [| reflexivity].
    now destruct (last_meta k meshes).
Qed.

Lemma get_meta_last_mesh_witness :
  (@nil string = [] \/ (forall mesh, List.In mesh [base_body; base_head; override_body] ->
                          Mesh.Meta mesh <> None))
  /\ exists out,
       get_meta [base_body; base_head; override_body] ["SkinColor"] = inr out
       /\ out !! "SkinColor" = Some (VStr "base")
       /\ out !! "HatType" = None.
Proof.
  assert (Hall : forall mesh, List.In mesh [base_body; base_head; override_body] ->
                              Mesh.Meta mesh <> None).
  { intros mesh [<- | [<- | [<- | []]]]; discriminate. }
  split; [now right |].
  destruct (get_meta_last_mesh [base_body; base_head; override_body] ["SkinColor"]
              (or_intror Hall)) as [out [Heq Hout]].
  exists out. split; [exact Heq |]. split; [exact (Hout "SkinColor") | exact (Hout "HatType")].
Defined.

(** X12: [get_meta] raises exactly when something is searched and a mesh
    of the run has no ["Meta"]; the error is the [AttributeError] of
    [meta.keys()], also when the mesh at hand has a ["Meta"] itself. *)
Theorem get_meta_raises (meshes : list Mesh.t) (search_props : list string) :
  (exists e, get_meta meshes search_props = inl e)
  <-> (search_props <> [] /\ exists mesh, List.In mesh meshes /\ Mesh.Meta mesh = None).
Proof.
  split.
  - intros [e He]. split.
    + intros ->. unfold get_meta in He. now rewrite get_meta_from_nil in He.
    + destruct (List.Exists_dec (fun mesh => Mesh.Meta mesh = None) meshes) as [Hex | Hno].
      { intros mesh. destruct (Mesh.Meta mesh); [right; discriminate | now left]. }
      * apply List.Exists_exists in Hex. exact Hex.
      * exfalso.
        assert (Hall : forall mesh, List.In mesh meshes -> Mesh.Meta mesh <> None).
        { intros mesh Hin Hm. apply Hno. apply List.Exists_exists. now exists mesh. }
        destruct (get_meta_from_some meshes search_props Hall ∅) as [out [Heq _]].
        unfold get_meta in He. congruence.
  - intros [Hne Hex]. eexists. unfold get_meta. now apply get_meta_from_none.
Qed.

Example get_meta_bare_mesh :
  get_meta [base_body; bare_mesh] ["SkinColor"]
  = inl (AttributeError "'NoneType' object has no attribute 'keys'")
  /\ get_meta [base_body; bare_mesh] [] = inr ∅.
Proof. split; reflexivity. Qed.

(** ** [armature_from_selection] *)

Lemma find_app {A} (p : A -> bool) (l l' : list A) :
  List.find p (l ++ l')
  = match List.find p l with Some x => Some x | None => List.find p l' end.
Proof.
  induction l as [| x l IH]; [reflexivity |].
  cbn [List.app List.find]. destruct (p x); [reflexivity | exact IH].
Qed.

Lemma first_selected_armature_find (objects : list bobject) :
  first_selected_armature objects
  = option_map ob_id (List.find is_selected_armature objects).
Proof.
  induction objects as [| obj rest IH]; [reflexivity |].
  cbn [first_selected_armature List.find].
  destruct (is_selected_armature obj); [reflexivity | exact IH].
Qed.

Lemma modifier_armature_find (modifiers : list (string * option nat))
    (armature_obj : option nat) :
  modifier_armature modifiers armature_obj
  = match List.find is_armature_modifier modifiers with
    | Some modifier => snd modifier
    | None => armature_obj
    end.
Proof.
  induction modifiers as [| m rest IH]; [reflexivity |].
  cbn [modifier_armature List.find].
  destruct (is_armature_modifier m); [reflexivity | exact IH].
Qed.

Lemma find_none_existsb {A} (p : A -> bool) (l : list A) :
  List.existsb p l = match List.find p l with Some _ => true | None => false end.
Proof.
  induction l as [| x l IH]; [reflexivity |].
  cbn [List.existsb List.find]. destruct (p x); [reflexivity | exact IH].
Qed.

Lemma mesh_armatures_last (objects : list bobject) :
  forall armature_obj,
    mesh_armatures objects armature_obj
    = match List.find has_armature_modifier
              (List.rev (List.filter is_selected_mesh objects)) with
      | Some obj =>
          match List.find is_armature_modifier (ob_modifiers obj) with
          | Some modifier => snd modifier
          | None => None
          end
      | None => armature_obj
      end.
Proof.
  induction objects as [| obj rest IH]; intros armature_obj; [reflexivity |].
  cbn [mesh_armatures List.filter].
  destruct (is_selected_mesh obj); [| apply IH].
  rewrite IH. cbn [List.rev]. rewrite find_app.
  destruct (List.find has_armature_modifier (List.rev (List.filter is_selected_mesh rest)));
    [reflexivity |].
  cbn [List.find]. unfold has_armature_modifier at 1.
  rewrite find_none_existsb, modifier_armature_find.
  destruct (List.find is_armature_modifier (ob_modifiers obj)) eqn:Hf;
    cbv beta iota; [now rewrite Hf | reflexivity].
Qed.

(** X13: [armature_from_selection] returns the first selected armature
    of [bpy.data.objects]; when there is none, the object of the first
    armature modifier of the last selected mesh that has such a
    modifier, be that object [None]; and [None] when no selected mesh
    has one. *)
Theorem armature_from_selection_spec (objects : list bobject) :
  armature_from_selection objects
  = match List.find is_selected_armature objects with
    | Some obj => Some (ob_id obj)
    | None =>
        match List.find has_armature_modifier
                (List.rev (List.filter is_selected_mesh objects)) with
        | Some obj =>
            match List.find is_armature_modifier (ob_modifiers obj) with
            | Some modifier => snd modifier
            | None => None
            end
        | None => None
        end
    end.
Proof.
  unfold armature_from_selection. rewrite first_selected_armature_find.
  destruct (List.find is_selected_armature objects); [reflexivity |].
  cbn [option_map]. apply mesh_armatures_last.
Qed.

(** A selected rig wins over the meshes that come before it; among
    meshes the last one wins, also when its modifier is bound to
    nothing; what is not selected does not count. *)
Example armature_from_selection_cases :
  armature_from_selection
    [skinned_mesh 10 true (Some 1%nat); rig_object 3 false; rig_object 4 true;
     rig_object 5 true] = Some 4%nat
  /\ armature_from_selection
       [skinned_mesh 10 true (Some 1%nat); skinned_mesh 11 true (Some 2%nat);
        skinned_mesh 12 false (Some 3%nat); rig_object 4 false] = Some 2%nat
  /\ armature_from_selection
       [skinned_mesh 10 true (Some 1%nat); skinned_mesh 11 true None] = None.
Proof. repeat split. Qed.

(** ** Paths *)

Lemma split_on_cons (sep : ascii) (s : string) :
  exists h r, split_on sep s = h :: r.
Proof.
  destruct s as [| c t]; [now exists EmptyString, [] |].
  cbn [split_on]. destruct (Ascii.eqb c sep); [now eexists _, _ |].
  destruct (split_on sep t); now eexists _, _.
Qed.

Lemma join_with_cons (sep : ascii) (c : ascii) (h : string) (r : list string) :
  join_with sep (String c h :: r) = String c (join_with sep (h :: r)).
Proof. destruct r; reflexivity. Qed.

Lemma split_on_length (sep : ascii) (s : string) :
  List.length (split_on sep s) = S (count_char sep s).
Proof.
  induction s as [| c t IH]; [reflexivity |].
  cbn [split_on count_char]. destruct (Ascii.eqb c sep).
  - cbn [List.length]. now rewrite IH.
  - destruct (split_on_cons sep t) as [h [r Hs]]. rewrite Hs in IH |- *.
    cbn [List.length] in IH |- *. exact IH.
Qed.

Lemma split_on_plain (sep : ascii) (s : string) :
  count_char sep s = 0%nat -> split_on sep s = [s].
Proof.
  induction s as [| c t IH]; [reflexivity |].
  cbn [split_on count_char]. destruct (Ascii.eqb c sep); [discriminate |].
  intros Ht. now rewrite (IH Ht).
Qed.

Lemma split_on_app (sep : ascii) (a b : string) :
  count_char sep a = 0%nat ->
  split_on sep (String.append a (String sep b)) = a :: split_on sep b.
Proof.
  induction a as [| c t IH].
  - intros _. change (String.append EmptyString (String sep b)) with (String sep b).
    cbn [split_on]. now rewrite Ascii.eqb_refl.
  - change (String.append (String c t) (String sep b))
      with (String c (String.append t (String sep b))).
    cbn [split_on count_char].
    destruct (Ascii.eqb c sep); [discriminate |]. intros Ht. now rewrite (IH Ht).
Qed.

Lemma split_on_parts (sep : ascii) (s : string) :
  List.Forall (fun part => count_char sep part = 0%nat) (split_on sep s).
Proof.
  induction s as [| c t IH]; [now repeat constructor |].
  cbn [split_on]. destruct (Ascii.eqb c sep) eqn:Hc.
  - now apply List.Forall_cons.
  - destruct (split_on_cons sep t) as [h [r Hs]]. rewrite Hs in IH |- *.
    apply List.Forall_cons_iff in IH. destruct IH as [Hh Hr].
    apply List.Forall_cons; [| exact Hr]. cbn [count_char]. now rewrite Hc.
Qed.

(** [sep.join(s.split(sep))] is [s]; the parts hold no separator, and
    there is one part more than there are separators in [s]. *)
Lemma split_on_join (sep : ascii) (s : string) :
  join_with sep (split_on sep s) = s
  /\ List.Forall (fun part => count_char sep part = 0%nat) (split_on sep s)
  /\ List.length (split_on sep s) = S (count_char sep s).
Proof.
  split; [| split; [apply split_on_parts | apply split_on_length]].
  induction s as [| c t IH]; [reflexivity |].
  cbn [split_on]. destruct (Ascii.eqb_spec c sep) as [-> | Hne].
  - destruct (split_on_cons sep t) as [h [r Hs]]. rewrite Hs in IH |- *.
    change (join_with sep (EmptyString :: h :: r))
      with (String.append EmptyString (String sep (join_with sep (h :: r)))).
    rewrite IH. reflexivity.
  - destruct (split_on_cons sep t) as [h [r Hs]]. rewrite Hs in IH |- *.
    now rewrite join_with_cons, IH.
Qed.

Section PathProperties.
Variable path_join : string -> string -> string.

(** X14: [format_image_path] returns exactly for a path with one dot,
    and then the name after the dot and the [png] file of the part
    before it, less one leading slash, under the assets folder; a path
    without a dot and a path with two dots or more raise [ValueError]
    at the unpacking. *)
Theorem format_image_path_spec (assets_folder path : string) :
  ((exists r, format_image_path path_join assets_folder path = inr r)
   <-> count_char "." path = 1%nat)
  /\ (forall stem name_,
        count_char "." stem = 0%nat -> count_char "." name_ = 0%nat ->
        format_image_path path_join assets_folder (String.append stem (String "." name_))
        = inr (path_join assets_folder (String.append (strip_slash stem) ".png"), name_))
  /\ (count_char "." path = 0%nat ->
      format_image_path path_join assets_folder path
      = inl (ValueError "not enough values to unpack (expected 2, got 1)"))
  /\ ((2 <= count_char "." path)%nat ->
      format_image_path path_join assets_folder path
      = inl (ValueError "too many values to unpack (expected 2)")).
Proof.
  assert (Hlen := split_on_length "." path).
  split; [| split; [| split]].
  - unfold format_image_path.
    destruct (split_on "." path) as [| a [| b [| c r]]]; cbn [List.length] in Hlen; split.
    + intros [r Hr]. discriminate.
    + intros H1. rewrite H1 in Hlen. discriminate.
    + intros [r Hr]. discriminate.
    + intros H1. rewrite H1 in Hlen. discriminate.
    + intros _. congruence.
    + intros _. eexists. reflexivity.
    + intros [r' Hr]. discriminate.
    + intros H1. rewrite H1 in Hlen. discriminate.
  - intros stem name_ Hstem Hname. unfold format_image_path.
    now rewrite (split_on_app "." stem name_ Hstem), (split_on_plain "." name_ Hname).
  - intros H0. unfold format_image_path. rewrite H0 in Hlen.
    destruct (split_on "." path) as [| a [| b r]]; try discriminate. reflexivity.
  - intros H2. unfold format_image_path.
    destruct (split_on "." path) as [| a [| b [| c r]]]; cbn [List.length] in Hlen;
      try reflexivity; exfalso; lia.
Qed.
End PathProperties.

(** X15: [import_model] can read the name of a mesh exactly when its
    path has a dot, and reads what stands between the first dot and
    the second; a path without a dot raises [IndexError]. *)
Theorem mesh_name_of_spec (mesh_path : string) :
  ((exists name_, mesh_name_of mesh_path = inr name_) <-> (1 <= count_char "." mesh_path)%nat)
  /\ (count_char "." mesh_path = 0%nat ->
      mesh_name_of mesh_path = inl (IndexError "list index out of range"))
  /\ (forall stem name_ rest,
        count_char "." stem = 0%nat -> count_char "." name_ = 0%nat ->
        mesh_name_of (String.append stem (String "." name_)) = inr name_
        /\ mesh_name_of
             (String.append stem (String "." (String.append name_ (String "." rest))))
           = inr name_).
Proof.
  assert (Hlen := split_on_length "." mesh_path).
  split; [| split].
  - unfold mesh_name_of.
    destruct (split_on "." mesh_path) as [| a [| b r]]; cbn [List.length] in Hlen; split.
    + intros [n Hn]. discriminate.
    + intros H1. lia.
    + intros [n Hn]. discriminate.
    + intros H1. lia.
    + intros _. lia.
    + intros _. now eexists.
  - intros H0. unfold mesh_name_of. rewrite H0 in Hlen.
    destruct (split_on "." mesh_path) as [| a [| b r]]; try discriminate. reflexivity.
  - intros stem name_ rest Hstem Hname. unfold mesh_name_of. split.
    + now rewrite (split_on_app "." stem name_ Hstem), (split_on_plain "." name_ Hname).
    + now rewrite (split_on_app "." stem _ Hstem), (split_on_app "." name_ rest Hname).
Qed.

Example format_image_path_cases :
  format_image_path String.append "C:/Assets" "/Game/Skins/T_Body_D.T_Body_D"
  = inr ("C:/Assets" +:+ "Game/Skins/T_Body_D.png", "T_Body_D")
  /\ format_image_path String.append "C:/Assets" "/Game/Skins.v2/T_Body_D.T_Body_D"
     = inl (ValueError "too many values to unpack (expected 2)")
  /\ mesh_name_of "/Game/Skins.v2/SK_Body.SK_Body" = inr "v2/SK_Body".
Proof. repeat split. Qed.


(** ** What the resolvers and the fix-ups leave alone *)

Lemma keeps_shape_set_location (loc : Z * Z) : keeps_shape (set_location loc).
Proof. intros n. split; reflexivity. Qed.

Lemma keeps_shape_set_attr (k : string) (v : pyval) : keeps_shape (set_attr k v).
Proof. intros n. split; reflexivity. Qed.

Lemma keeps_shape_set_in_default (i : nat) (v : pyval) : keeps_shape (set_in_default i v).
Proof. intros n. split; reflexivity. Qed.

Lemma keeps_shape_set_out_default (i : nat) (v : pyval) : keeps_shape (set_out_default i v).
Proof. intros n. split; reflexivity. Qed.

Create HintDb frame.

#[local] Hint Resolve keeps_shape_set_location keeps_shape_set_attr
  keeps_shape_set_in_default keeps_shape_set_out_default : frame.

Section Respects.
Variable E : env.
Variable R : build -> build -> Prop.
Hypothesis R_refl : forall b, R b b.
Hypothesis R_trans : forall b1 b2 b3, R b1 b2 -> R b2 b3 -> R b1 b3.

Lemma respects_ret {A} (a : A) : respects R (mret a).
Proof. intros b. apply R_refl. Qed.

Lemma respects_raise {A} (e : exn) : respects R (@raise A e).
Proof. intros b. apply R_refl. Qed.

Lemma respects_lift {A} (r : exn + A) : respects R (lift r).
Proof. destruct r; intros b; apply R_refl. Qed.

Lemma respects_get_build : respects R get_build.
Proof. intros b. apply R_refl. Qed.

Lemma respects_get_node (id : nat) : respects R (get_node id).
Proof. intros b. unfold get_node. destruct (find_node _ _); apply R_refl. Qed.

Lemma respects_bind {A B} (c : M A) (k : A -> M B) :
  respects R c -> (forall a, respects R (k a)) -> respects R (c ≫= k).
Proof.
  intros Hc Hk b. rewrite mbind_unfold. specialize (Hc b).
  destruct (c b) as [[a | e] b1]; cbn [snd] in *; [| exact Hc].
  eapply R_trans; [exact Hc | apply Hk].
Qed.

Lemma respects_when (c : bool) (body : M unit) :
  respects R body -> respects R (when c body).
Proof. intros H. destruct c; [exact H | apply respects_ret]. Qed.

Lemma respects_for_each {A} (l : list A) (f : A -> M unit) :
  (forall x, respects R (f x)) -> respects R (for_each l f).
Proof.
  intros Hf. induction l as [| x l IH]; [apply respects_ret |].
  cbn [for_each]. apply (respects_bind (f x) (fun _ => for_each l f)); [apply Hf |].
  intros _. exact IH.
Qed.

Hypothesis R_print : forall e, respects R (print_exc e).

Lemma respects_try_except (body : M unit) :
  respects R body -> respects R (try_except body).
Proof.
  intros H b. unfold try_except. specialize (H b).
  destruct (body b) as [[u | e] b1]; cbn [snd] in *; [exact H |].
  eapply R_trans; [exact H | apply R_print].
Qed.

Hypothesis R_nodes_new : forall ty, respects R (nodes_new ty).
Hypothesis R_update : forall id f, keeps_shape f -> respects R (update_node id f).
Hypothesis R_links_new : forall o i, respects R (links_new o i).
Hypothesis R_image :
  forall img k v, k = "alpha_mode" \/ k = "colorspace_settings.name" ->
    respects R (set_image_attr img k v).
Hypothesis R_step_down :
  forall pitch, 0 <= pitch ->
    respects R (modify (fun b => with_offset (b_unused_parameter_offset b - pitch) b)).
Hypothesis R_new_group :
  forall ty nm B (k : nat -> M B),
    (forall nd, respects R (k nd)) ->
    respects R (nodes_new ty ≫= (fun nd => assign_node_tree E nd nm ≫= (fun _ => k nd))).

Ltac respects_step :=
  lazymatch goal with
  | |- respects _ (mret _) => apply respects_ret
  | |- respects _ (raise _) => apply respects_raise
  | |- respects _ (lift _) => apply respects_lift
  | |- respects _ get_build => apply respects_get_build
  | |- respects _ (get_node _) => apply respects_get_node
  | |- respects _ (nodes_new _ ≫= (fun nd => assign_node_tree _ nd _ ≫= _)) =>
      apply R_new_group; intros ?
  | |- respects _ (nodes_new _) => apply R_nodes_new
  | |- respects _ (update_node _ _) => apply R_update; auto with frame
  | |- respects _ (links_new _ _) => apply R_links_new
  | |- respects _ (set_image_attr _ _ _) => apply R_image; first [now left | now right]
  | |- respects _ (modify (fun b => with_offset (b_unused_parameter_offset b - _) b)) =>
      apply R_step_down; lia
  | |- respects _ (_ ≫= _) => apply respects_bind; [| intros ?]
  | |- respects _ (when _ _) => apply respects_when
  | |- respects _ (for_each _ _) => apply respects_for_each; intros ?
  | |- respects _ (try_except _) => apply respects_try_except
  | |- respects _ (match ?x with _ => _ end) => destruct x
  end.

Lemma respects_inputs_find (id : nat) (nm : string) : respects R (inputs_find id nm).
Proof. unfold inputs_find. repeat respects_step. Qed.

Lemma respects_inputs_get (id : nat) (nm : string) : respects R (inputs_get id nm).
Proof. unfold inputs_get. repeat respects_step. Qed.

Lemma respects_inputs_getitem (id : nat) (nm : string) : respects R (inputs_getitem id nm).
Proof.
  unfold inputs_getitem. apply respects_bind; [apply respects_inputs_get |].
  intros s. repeat respects_step.
Qed.

Lemma respects_inputs_at (id i : nat) : respects R (inputs_at id i).
Proof. unfold inputs_at. repeat respects_step. Qed.

Lemma respects_outputs_at (id i : nat) : respects R (outputs_at id i).
Proof. unfold outputs_at. repeat respects_step. Qed.

Lemma respects_socket_links (i : socket) : respects R (socket_links i).
Proof. unfold socket_links. repeat respects_step. Qed.

Lemma respects_get_socket_pos (id : nat) (index : Z) : respects R (get_socket_pos id index).
Proof. unfold get_socket_pos. cbv zeta. repeat respects_step. Qed.

Lemma respects_apply_value_func (mappings : SlotMapping_) (value : pyval) :
  respects R (apply_value_func mappings value).
Proof. unfold apply_value_func. repeat respects_step. Qed.

Lemma respects_rgba (value : pyval) : respects R (rgba value).
Proof. unfold rgba. repeat respects_step. Qed.

Lemma respects_rgb1 (value : pyval) : respects R (rgb1 value).
Proof. unfold rgb1. repeat respects_step. Qed.

Lemma respects_assign_in_default (s : socket) (v : pyval) :
  respects R (assign_in_default E s v).
Proof. unfold assign_in_default. repeat respects_step. Qed.

Lemma respects_assign_out_default (s : socket) (v : pyval) :
  respects R (assign_out_default E s v).
Proof. unfold assign_out_default. repeat respects_step. Qed.

Lemma respects_place_unused (nd : nat) (label : string) (width : option Z) (pitch : Z) :
  0 <= pitch -> respects R (place_unused nd label width pitch).
Proof. intros Hp. unfold place_unused. repeat respects_step. Qed.

Ltac respects_tac :=
  repeat first
    [ apply respects_inputs_find | apply respects_inputs_get
    | apply respects_inputs_getitem | apply respects_inputs_at
    | apply respects_outputs_at | apply respects_socket_links
    | apply respects_get_socket_pos | apply respects_apply_value_func
    | apply respects_rgba | apply respects_rgb1
    | apply respects_assign_in_default | apply respects_assign_out_default
    | apply respects_place_unused; lia
    | respects_step ].

Lemma respects_texture_param (data : param) (target_mappings : MappingCollection)
    (target_node : nat) (add_unused_params : bool) :
  respects R (texture_param E data target_mappings target_node add_unused_params).
Proof. unfold texture_param, texture_body. cbv zeta. respects_tac. Qed.

Lemma respects_scalar_param (data : param) (target_mappings : MappingCollection)
    (target_node : nat) (add_unused_params : bool) :
  respects R (scalar_param E data target_mappings target_node add_unused_params).
Proof. unfold scalar_param, scalar_body. cbv zeta. respects_tac. Qed.

Lemma respects_vector_param (data : param) (target_mappings : MappingCollection)
    (target_node : nat) (add_unused_params : bool) :
  respects R (vector_param E data target_mappings target_node add_unused_params).
Proof. unfold vector_param, vector_body. cbv zeta. respects_tac. Qed.

Lemma respects_component_mask_param (data : param) (target_mappings : MappingCollection)
    (target_node : nat) (add_unused_params : bool) :
  respects R (component_mask_param E data target_mappings target_node add_unused_params).
Proof. unfold component_mask_param, component_mask_body. cbv zeta. respects_tac. Qed.

Lemma respects_switch_param (data : param) (target_mappings : MappingCollection)
    (target_node : nat) (add_unused_params : bool) :
  respects R (switch_param E data target_mappings target_node add_unused_params).
Proof. unfold switch_param, switch_body. cbv zeta. respects_tac. Qed.

Lemma respects_setup_params (md : Material.t) (mappings : MappingCollection)
    (target_node : nat) (add_unused_params : bool) :
  respects R (setup_params E md mappings target_node add_unused_params).
Proof.
  unfold setup_params.
  repeat (apply respects_bind; [| intros _]);
    apply respects_for_each; intros x;
    [ apply respects_texture_param | apply respects_scalar_param
    | apply respects_vector_param | apply respects_component_mask_param
    | apply respects_switch_param ].
Qed.

Hypothesis R_remove : forall id, respects R (nodes_remove id).
Hypothesis R_value : forall v, respects R (modify (with_value v)).

Lemma respects_assign_input (id : nat) (nm : string) (v : pyval) :
  respects R (assign_input E id nm v).
Proof. unfold assign_input. respects_tac. Qed.

Lemma respects_first_link (ls : list link) : respects R (first_link ls).
Proof. unfold first_link. respects_tac. Qed.

Lemma respects_node_tree_name (id : nat) : respects R (node_tree_name id).
Proof. unfold node_tree_name. respects_tac. Qed.

Lemma respects_node_items_tree (id : nat) : respects R (node_items_tree E id).
Proof. unfold node_items_tree. respects_tac. Qed.

Ltac fixup_tac :=
  repeat first
    [ apply respects_assign_input | apply respects_first_link
    | apply respects_node_tree_name | apply respects_node_items_tree
    | apply respects_setup_params
    | apply R_remove | apply R_value
    | apply respects_inputs_find | apply respects_inputs_get
    | apply respects_inputs_getitem | apply respects_inputs_at
    | apply respects_outputs_at | apply respects_socket_links
    | apply respects_get_socket_pos | apply respects_apply_value_func
    | apply respects_rgba | apply respects_rgb1
    | apply respects_assign_in_default | apply respects_assign_out_default
    | respects_step ].

Lemma respects_skin_color_fixup (shader_node : nat) (meta_data : Meta.t) :
  respects R (skin_color_fixup E shader_node meta_data).
Proof. unfold skin_color_fixup. cbv zeta. fixup_tac. Qed.

Lemma respects_vertex_color_mask (shader_node : nat) (material_data : Material.t) :
  respects R (vertex_color_mask E shader_node material_data).
Proof. unfold vertex_color_mask. cbv zeta. fixup_tac. Qed.

Lemma respects_emission_crop (shader_node : nat) (material_data : Material.t) :
  respects R (emission_crop E shader_node material_data).
Proof. unfold emission_crop. cbv zeta. fixup_tac. Qed.

Lemma respects_modulate_emissive (shader_node : nat) :
  respects R (modulate_emissive shader_node).
Proof. unfold modulate_emissive. cbv zeta. fixup_tac. Qed.

Lemma respects_gradient_layers (shader_node : nat) (material_data : Material.t) :
  respects R (gradient_layers E shader_node material_data).
Proof. unfold gradient_layers. cbv zeta. fixup_tac. Qed.

Lemma respects_default_fixups (shader_node : nat) (material_data : Material.t)
    (meta_data : Meta.t) :
  respects R (default_fixups E shader_node material_data meta_data).
Proof.
  unfold default_fixups.
  repeat first
    [ apply respects_skin_color_fixup | apply respects_vertex_color_mask
    | apply respects_emission_crop | apply respects_modulate_emissive
    | apply respects_gradient_layers | apply respects_assign_input
    | respects_step ].
Qed.

Hypothesis R_toon : respects R (modify (with_is_toon true)).

Lemma respects_fixups (material_data : Material.t) (meta_data : Meta.t) :
  respects R (fixups E material_data meta_data).
Proof.
  unfold fixups. cbv zeta.
  repeat first
    [ apply respects_default_fixups | apply respects_node_tree_name
    | apply respects_assign_input | apply R_toon | respects_step ].
Qed.

End Respects.

(** *** The settings of the material and of the closure *)

Lemma update_node_cases (id : nat) (f : node -> node) (b : build) :
  update_node id f b
  = match find_node (b_nodes b) id with
    | Some _ =>
        (Ok tt,
         with_nodes
           (List.map (fun n => if Nat.eqb (nd_id n) id then f n else n) (b_nodes b)) b)
    | None => (Raise (RuntimeError "StructRNA of type Node has been removed"), b)
    end.
Proof.
  unfold update_node. rewrite mbind_unfold. unfold get_node.
  destruct (find_node (b_nodes b) id); reflexivity.
Qed.

Lemma settled_refl (b : build) : settled b b.
Proof.
  unfold settled. do 4 (split; [reflexivity |]). split; [lia |].
  exists []. now rewrite List.app_nil_r.
Qed.

Lemma settled_trans (b1 b2 b3 : build) : settled b1 b2 -> settled b2 b3 -> settled b1 b3.
Proof.
  intros (Ha & Hp & Ht & Hs & Ho & [t1 He]) (Ha' & Hp' & Ht' & Hs' & Ho' & [t2 He']).
  unfold settled. do 4 (split; [congruence |]). split; [lia |].
  exists (t1 ++ t2). now rewrite He', He, List.app_assoc.
Qed.

Ltac settled_tac :=
  intros b; unfold settled; cbn;
  do 4 (split; [reflexivity |]);
  (split; [lia |]);
  first [ exists []; now rewrite List.app_nil_r | eexists; reflexivity ].

Lemma settled_print (e : exn) : respects settled (print_exc e).
Proof. settled_tac. Qed.

Lemma settled_nodes_new (E : env) (ty : string) : respects settled (nodes_new ty).
Proof. settled_tac. Qed.

Lemma settled_update (id : nat) (f : node -> node) : respects settled (update_node id f).
Proof.
  intros b. rewrite update_node_cases.
  destruct (find_node (b_nodes b) id); [| apply settled_refl].
  revert b. settled_tac.
Qed.

Lemma settled_links_new (o i : socket) : respects settled (links_new o i).
Proof. settled_tac. Qed.

Lemma settled_image (img k : string) (v : pyval) :
  respects settled (set_image_attr img k v).
Proof. settled_tac. Qed.

Lemma settled_step_down (pitch : Z) :
  0 <= pitch ->
  respects settled (modify (fun b => with_offset (b_unused_parameter_offset b - pitch) b)).
Proof. intros Hp. settled_tac. Qed.

Lemma settled_remove (id : nat) : respects settled (nodes_remove id).
Proof. settled_tac. Qed.

Lemma settled_value (v : option pyval) : respects settled (modify (with_value v)).
Proof. settled_tac. Qed.

Lemma settled_new_group (E : env) (ty nm : string) (B : Type) (k : nat -> M B) :
  (forall nd, respects settled (k nd)) ->
  respects settled
    (nodes_new ty ≫= (fun nd => assign_node_tree E nd nm ≫= (fun _ => k nd))).
Proof.
  intros Hk.
  apply (respects_bind settled settled_trans); [apply (settled_nodes_new E) |].
  intros nd. apply (respects_bind settled settled_trans); [apply settled_update |].
  intros _. apply Hk.
Qed.

Lemma setup_params_settled (E : env) (md : Material.t) (mappings : MappingCollection)
    (target_node : nat) (add_unused_params : bool) :
  respects settled (setup_params E md mappings target_node add_unused_params).
Proof.
  apply respects_setup_params;
    [ exact settled_refl | exact settled_trans | exact settled_print
    | exact (settled_nodes_new E) | intros id f _; apply settled_update
    | exact settled_links_new | intros img k v _; apply settled_image
    | exact settled_step_down | exact (settled_new_group E) ].
Qed.

Lemma default_fixups_settled (E : env) (shader_node : nat) (md : Material.t)
    (meta : Meta.t) :
  respects settled (default_fixups E shader_node md meta).
Proof.
  apply respects_default_fixups;
    [ exact settled_refl | exact settled_trans | exact settled_print
    | exact (settled_nodes_new E) | intros id f _; apply settled_update
    | exact settled_links_new | intros img k v _; apply settled_image
    | exact settled_step_down | exact (settled_new_group E) | exact settled_remove
    | exact settled_value ].
Qed.

Lemma settled_advanced (b b' : build) : settled b b' -> advanced b b'.
Proof.
  intros (Ha & Hp & Ht & Hs & _ & He). unfold advanced.
  do 3 (split; [assumption |]). split; [congruence | exact He].
Qed.

Lemma advanced_refl (b : build) : advanced b b.
Proof. apply settled_advanced, settled_refl. Qed.

Lemma advanced_trans (b1 b2 b3 : build) : advanced b1 b2 -> advanced b2 b3 -> advanced b1 b3.
Proof.
  intros (Ha & Hp & Hs & Ht & [t1 He]) (Ha' & Hp' & Hs' & Ht' & [t2 He']).
  unfold advanced. do 3 (split; [congruence |]). split; [auto |].
  exists (t1 ++ t2). now rewrite He', He, List.app_assoc.
Qed.

Lemma respects_weaken {A} (R R' : build -> build -> Prop) (c : M A) :
  (forall b b', R b b' -> R' b b') -> respects R c -> respects R' c.
Proof. intros H Hc b. apply H, Hc. Qed.

Lemma advanced_toon : respects advanced (modify (with_is_toon true)).
Proof.
  intros b. unfold advanced. cbn. do 3 (split; [reflexivity |]).
  split; [reflexivity |]. exists []. now rewrite List.app_nil_r.
Qed.

Lemma fixups_advanced (E : env) (md : Material.t) (meta : Meta.t) :
  respects advanced (fixups E md meta).
Proof.
  apply respects_fixups;
    [ exact advanced_refl | exact advanced_trans
    | intros e; exact (respects_weaken _ _ _ settled_advanced (settled_print e))
    | intros ty; exact (respects_weaken _ _ _ settled_advanced (settled_nodes_new E ty))
    | intros id f _; exact (respects_weaken _ _ _ settled_advanced (settled_update id f))
    | intros o i; exact (respects_weaken _ _ _ settled_advanced (settled_links_new o i))
    | intros img k v _; exact (respects_weaken _ _ _ settled_advanced (settled_image img k v))
    | intros p Hp; exact (respects_weaken _ _ _ settled_advanced (settled_step_down p Hp))
    | | intros id; exact (respects_weaken _ _ _ settled_advanced (settled_remove id))
    | intros v; exact (respects_weaken _ _ _ settled_advanced (settled_value v))
    | exact advanced_toon ].
  intros ty nm B k Hk.
  apply (respects_bind advanced advanced_trans);
    [exact (respects_weaken _ _ _ settled_advanced (settled_nodes_new E ty)) |].
  intros nd. apply (respects_bind advanced advanced_trans);
    [exact (respects_weaken _ _ _ settled_advanced (settled_update nd _)) |].
  intros _. apply Hk.
Qed.

(** *** The nodes that were there *)

Lemma find_node_app_old (ns : list node) (x : node) (id : nat) :
  nd_id x <> id -> find_node (ns ++ [x]) id = find_node ns id.
Proof.
  intros Hne. unfold find_node. rewrite find_app. cbn [List.find].
  destruct (Nat.eqb_spec (nd_id x) id); [contradiction |].
  now destruct (List.find _ ns).
Qed.

Lemma find_node_map (g : node -> node) (ns : list node) (id : nat) :
  (forall n, nd_id (g n) = nd_id n) ->
  find_node (List.map g ns) id = option_map g (find_node ns id).
Proof.
  intros Hg. unfold find_node. induction ns as [| n ns IH]; [reflexivity |].
  cbn [List.map List.find]. rewrite Hg.
  destruct (Nat.eqb (nd_id n) id); [reflexivity | exact IH].
Qed.

Lemma shape_at_map (g : node -> node) (b : build) (ns : list node) (id : nat) :
  (forall n, nd_id (g n) = nd_id n) ->
  (forall n, nd_id n = id -> shape (g n) = shape n) ->
  option_map shape (find_node (List.map g ns) id) = option_map shape (find_node ns id).
Proof.
  intros Hid Hsh. rewrite (find_node_map g ns id Hid).
  destruct (find_node ns id) as [n |] eqn:Hn; [| reflexivity].
  cbn [option_map]. f_equal. apply Hsh.
  unfold find_node in Hn. apply List.find_some in Hn. destruct Hn as [_ Hn].
  now apply Nat.eqb_eq in Hn.
Qed.

Lemma wf_frame_map (g : node -> node) (ns : list node) (k : nat) :
  (forall n, nd_id (g n) = nd_id n) ->
  List.Forall (fun n => (nd_id n < k)%nat) ns ->
  List.Forall (fun n => (nd_id n < k)%nat) (List.map g ns).
Proof.
  intros Hg H. apply List.Forall_map. eapply List.Forall_impl; [| exact H].
  intros n Hn. cbv beta. now rewrite Hg.
Qed.

Lemma stable_refl (b : build) : stable b b.
Proof. intros Hwf. split; [exact Hwf |]. split; [lia | reflexivity]. Qed.

Lemma stable_trans (b1 b2 b3 : build) : stable b1 b2 -> stable b2 b3 -> stable b1 b3.
Proof.
  intros H12 H23 Hwf. destruct (H12 Hwf) as (Hwf2 & Hle & Hsh).
  destruct (H23 Hwf2) as (Hwf3 & Hle' & Hsh').
  split; [exact Hwf3 |]. split; [lia |].
  intros id Hid. rewrite Hsh' by lia. now apply Hsh.
Qed.

(** A change of the frame that leaves the nodes and the counter. *)
Lemma stable_same_nodes (b b' : build) :
  b_nodes b' = b_nodes b -> b_next b' = b_next b -> stable b b'.
Proof.
  intros Hn Hx Hwf. unfold wf_frame, shape_at. rewrite Hn, Hx.
  split; [exact Hwf |]. split; [lia | reflexivity].
Qed.

Lemma stable_print (e : exn) : respects stable (print_exc e).
Proof. intros b. now apply stable_same_nodes. Qed.

Lemma stable_links_new (o i : socket) : respects stable (links_new o i).
Proof. intros b. now apply stable_same_nodes. Qed.

Lemma stable_image (img k : string) (v : pyval) :
  respects stable (set_image_attr img k v).
Proof. intros b. now apply stable_same_nodes. Qed.

Lemma stable_step_down (pitch : Z) :
  0 <= pitch ->
  respects stable (modify (fun b => with_offset (b_unused_parameter_offset b - pitch) b)).
Proof. intros _ b. now apply stable_same_nodes. Qed.

Lemma stable_nodes_new (E : env) (ty : string) : respects stable (nodes_new ty).
Proof.
  intros b Hwf. unfold nodes_new, wf_frame, shape_at.
  cbn [snd b_nodes b_next with_next with_nodes].
  split; [| split; [lia |]].
  - apply List.Forall_app. split.
    + eapply List.Forall_impl; [| exact Hwf]. intros n Hn. cbv beta in *. lia.
    + constructor; [| constructor]. rewrite nd_id_fresh_node. lia.
  - intros id Hid. rewrite find_node_app_old; [reflexivity |].
    rewrite nd_id_fresh_node. lia.
Qed.

Lemma stable_update (id : nat) (f : node -> node) :
  keeps_shape f -> respects stable (update_node id f).
Proof.
  intros Hf b. rewrite update_node_cases.
  destruct (find_node (b_nodes b) id) as [found |]; [| apply stable_refl].
  clear found. intros Hwf. unfold wf_frame, shape_at.
  cbn [snd b_nodes b_next with_next with_nodes].
  assert (Hid : forall n, nd_id (if Nat.eqb (nd_id n) id then f n else n) = nd_id n).
  { intros n. destruct (Nat.eqb (nd_id n) id); [apply Hf | reflexivity]. }
  split; [| split; [lia |]].
  - now apply wf_frame_map.
  - intros id' _. apply (shape_at_map _ b); [exact Hid |].
    intros n' _. destruct (Nat.eqb (nd_id n') id); [apply Hf | reflexivity].
Qed.

Lemma stable_new_group (E : env) (ty nm : string) (B : Type) (k : nat -> M B) :
  (forall nd, respects stable (k nd)) ->
  respects stable
    (nodes_new ty ≫= (fun nd => assign_node_tree E nd nm ≫= (fun _ => k nd))).
Proof.
  intros Hk b. rewrite mbind_unfold. cbn [nodes_new]. rewrite mbind_unfold.
  unfold assign_node_tree. rewrite update_node_cases.
  cbn [b_nodes with_nodes with_next].
  destruct (find_node_last (b_nodes b) (b_next b) ty) as [n0 Hn0]. rewrite Hn0.
  match goal with |- stable b (snd (k _ ?b2)) => set (b2' := b2) end.
  apply (stable_trans b b2' _); [| apply Hk].
  intros Hwf. unfold b2', wf_frame, shape_at.
  cbn [snd b_nodes b_next with_next with_nodes].
  assert (Hid : forall n,
             nd_id (if Nat.eqb (nd_id n) (b_next b)
                    then set_node_tree nm (node_groups E nm) n else n) = nd_id n).
  { intros n. destruct (Nat.eqb (nd_id n) (b_next b));
      [apply nd_id_set_node_tree | reflexivity]. }
  split; [| split; [lia |]].
  - apply wf_frame_map; [exact Hid |]. apply List.Forall_app. split.
    + eapply List.Forall_impl; [| exact Hwf]. intros n Hn. cbv beta in *. lia.
    + constructor; [| constructor]. rewrite nd_id_fresh_node. lia.
  - intros id Hlt. rewrite (shape_at_map _ b); [| exact Hid |].
    + rewrite find_node_app_old; [reflexivity |]. rewrite nd_id_fresh_node. lia.
    + intros n Hn. destruct (Nat.eqb_spec (nd_id n) (b_next b)); [lia | reflexivity].
Qed.

Lemma setup_params_stable (E : env) (md : Material.t) (mappings : MappingCollection)
    (target_node : nat) (add_unused_params : bool) :
  respects stable (setup_params E md mappings target_node add_unused_params).
Proof.
  apply respects_setup_params;
    [ exact stable_refl | exact stable_trans | exact stable_print
    | exact (stable_nodes_new E) | exact stable_update
    | exact stable_links_new | intros img k v _; apply stable_image
    | exact stable_step_down | exact (stable_new_group E) ].
Qed.

Lemma for_each_ok {A} (f : A -> M unit) (l : list A) (b : build) :
  (forall x b0, fst (f x b0) = Ok tt) -> fst (for_each l f b) = Ok tt.
Proof. intros Hf. now rewrite (for_each_fold f l b Hf). Qed.

Lemma bind_ok_unit {B} (c : M unit) (k : unit -> M B) (b : build) :
  fst (c b) = Ok tt -> (c ≫= k) b = k tt (snd (c b)).
Proof.
  intros H. rewrite mbind_unfold. destruct (c b) as [[[] | e] b1]; cbn in *;
    [reflexivity | discriminate].
Qed.

Lemma setup_params_ok (E : env) (md : Material.t) (mappings : MappingCollection)
    (target_node : nat) (add_unused_params : bool) (b : build) :
  fst (setup_params E md mappings target_node add_unused_params b) = Ok tt.
Proof.
  unfold setup_params.
  repeat (rewrite bind_ok_unit by (apply for_each_ok; intros; apply try_except_returns)).
  apply for_each_ok; intros; apply try_except_returns.
Qed.

(** X16: [setup_params] returns, whatever its resolvers met, and of
    the material and the closure it touches nothing but the node tree,
    its own offset and the standard error: the attributes and the
    custom properties of the material, [self.is_toon] and the binding
    of [shader_node] are as before, the offset has not gone up, what
    was printed is still there; every node that was in the tree is
    still in it, with its type, its node tree and its sockets.  (The
    image datablocks of its samplers are outside the material; what is
    written on them is stated with the frame of an import.) *)
Theorem setup_params_frame (E : env) (md : Material.t) (mappings : MappingCollection)
    (target_node : nat) (add_unused_params : bool) (b : build) :
  wf_frame b ->
  fst (setup_params E md mappings target_node add_unused_params b) = Ok tt
  /\ settled b (snd (setup_params E md mappings target_node add_unused_params b))
  /\ wf_frame (snd (setup_params E md mappings target_node add_unused_params b))
  /\ (forall id,
        (id < b_next b)%nat ->
        shape_at (snd (setup_params E md mappings target_node add_unused_params b)) id
        = shape_at b id).
Proof.
  intros Hwf. split; [apply setup_params_ok |]. split; [apply setup_params_settled |].
  destruct (setup_params_stable E md mappings target_node add_unused_params b Hwf)
    as (Hwf' & _ & Hsh).
  split; [exact Hwf' | exact Hsh].
Qed.

(** *** The base construction *)

Lemma shape_at_find (b : build) (id : nat) (sh : string * option string * list string * nat) :
  shape_at b id = Some sh ->
  exists n, find_node (b_nodes b) id = Some n /\ shape n = sh.
Proof.
  unfold shape_at. destruct (find_node (b_nodes b) id) as [n |]; [| discriminate].
  cbn [option_map]. intros [= H]. now exists n.
Qed.

Lemma shape_fresh_group (E : env) (id : nat) (name_ : string) :
  shape (set_node_tree name_ (node_groups E name_) (fresh_node id "ShaderNodeGroup"))
  = group_shape E name_.
Proof. unfold group_shape. destruct (node_groups E name_); reflexivity. Qed.

Lemma build_base_eq (E : env) (md : Material.t) (b : build) :
  build_base E md b
  = (outputs_at (b_shader_node (selected E md (rooted E b))) 0
     ≫= (fun o => inputs_at (b_next b) 0 ≫= (fun i => links_new o i)))
      (snd (setup_params E md (family_mappings (last_match md))
              (b_shader_node (selected E md (rooted E b))) true
              (selected E md (rooted E b)))).
Proof.
  unfold build_base. rewrite mbind_unfold. cbn [nodes_new].
  rewrite mbind_unfold, update_node_cases. cbn [b_nodes with_nodes with_next].
  destruct (find_node_last (b_nodes b) (b_next b) "ShaderNodeOutputMaterial") as [n0 Hn0].
  rewrite Hn0. rewrite mbind_unfold. cbn [nodes_new]. rewrite mbind_unfold. cbn [modify].
  rewrite mbind_unfold. unfold assign_node_tree. rewrite update_node_cases.
  cbn [b_nodes b_next with_nodes with_next with_shader_node].
  match goal with
  | |- context [find_node (?l ++ [fresh_node ?id ?ty]) ?id] =>
      destruct (find_node_last l id ty) as [n1 Hn1]; rewrite Hn1
  end.
  rewrite mbind_unfold. cbn [modify]. rewrite mbind_unfold, select_mappings_eq.
  rewrite mbind_unfold. cbn [get_build].
  rewrite bind_ok_unit by apply setup_params_ok.
  reflexivity.
Qed.

Lemma rooted_facts (E : env) (b : build) :
  wf_frame b ->
  wf_frame (rooted E b)
  /\ b_next (rooted E b) = S (S (b_next b))
  /\ b_shader_node (rooted E b) = S (b_next b)
  /\ shape_at (rooted E b) (b_next b)
     = Some ("ShaderNodeOutputMaterial", None, ["Surface"; "Volume"; "Displacement"], 0%nat)
  /\ shape_at (rooted E b) (S (b_next b)) = Some (group_shape E "FP Material").
Proof.
  intros Hwf. unfold rooted, wf_frame, shape_at.
  cbn [b_nodes b_next b_shader_node with_nodes with_next with_shader_node with_offset].
  set (place := fun n : node =>
                  if Nat.eqb (nd_id n) (b_next b) then set_location (200, 0) n else n).
  set (assign := fun n : node =>
                   if Nat.eqb (nd_id n) (S (b_next b))
                   then set_node_tree "FP Material" (node_groups E "FP Material") n else n).
  assert (Hplace : forall n, nd_id (place n) = nd_id n).
  { intros n. unfold place. now destruct (Nat.eqb (nd_id n) (b_next b)). }
  assert (Hassign : forall n, nd_id (assign n) = nd_id n).
  { intros n. unfold assign. destruct (Nat.eqb (nd_id n) (S (b_next b)));
      [apply nd_id_set_node_tree | reflexivity]. }
  assert (Hold : List.Forall (fun n => (nd_id n < S (b_next b))%nat)
                   (List.map place (b_nodes b ++ [fresh_node (b_next b) "ShaderNodeOutputMaterial"]))).
  { apply wf_frame_map; [exact Hplace |]. apply List.Forall_app. split.
    - eapply List.Forall_impl; [| exact Hwf]. intros n Hn. cbv beta in *. lia.
    - constructor; [| constructor]. rewrite nd_id_fresh_node. lia. }
  split; [| split; [reflexivity | split; [reflexivity | split]]].
  - apply wf_frame_map; [exact Hassign |]. apply List.Forall_app. split.
    + eapply List.Forall_impl; [| exact Hold]. intros n Hn. cbv beta in *. lia.
    + constructor; [| constructor]. rewrite nd_id_fresh_node. lia.
  - rewrite (shape_at_map assign b); [| exact Hassign |].
    + rewrite find_node_app_old by (rewrite nd_id_fresh_node; lia).
      rewrite (shape_at_map place b); [| exact Hplace |].
      * pose proof (find_node_fresh (fun n => n) (b_nodes b)
                      (fresh_node (b_next b) "ShaderNodeOutputMaterial")) as H.
        rewrite nd_id_fresh_node, List.map_id in H. rewrite H; [reflexivity | reflexivity |].
        exact Hwf.
      * intros n _. unfold place. now destruct (Nat.eqb (nd_id n) (b_next b)).
    + intros n Hn. unfold assign. rewrite Hn.
      destruct (Nat.eqb_spec (b_next b) (S (b_next b))); [lia | reflexivity].
  - pose proof (find_node_fresh assign
                  (List.map place (b_nodes b ++ [fresh_node (b_next b) "ShaderNodeOutputMaterial"]))
                  (fresh_node (S (b_next b)) "ShaderNodeGroup")) as H.
    rewrite nd_id_fresh_node in H. rewrite H; [| exact Hassign | exact Hold].
    cbn [option_map]. unfold assign. rewrite nd_id_fresh_node, Nat.eqb_refl.
    now rewrite shape_fresh_group.
Qed.

Lemma replaced_facts (E : env) (name_ : string) (b : build) :
  wf_frame b ->
  b_next (replaced E name_ b) = S (b_next b)
  /\ b_shader_node (replaced E name_ b) = b_next b
  /\ shape_at (replaced E name_ b) (b_next b) = Some (group_shape E name_)
  /\ forall id, (id < b_next b)%nat -> id <> b_shader_node b ->
                shape_at (replaced E name_ b) id = shape_at b id.
Proof.
  intros Hwf. unfold replaced, shape_at.
  cbn [b_nodes b_next b_shader_node with_nodes with_next with_shader_node with_links].
  set (assign := fun n : node =>
                   if Nat.eqb (nd_id n) (b_next b)
                   then set_node_tree name_ (node_groups E name_) n else n).
  assert (Hassign : forall n, nd_id (assign n) = nd_id n).
  { intros n. unfold assign. destruct (Nat.eqb (nd_id n) (b_next b));
      [apply nd_id_set_node_tree | reflexivity]. }
  split; [reflexivity | split; [reflexivity | split]].
  - pose proof (find_node_fresh assign
                  (List.filter (fun n => negb (Nat.eqb (nd_id n) (b_shader_node b))) (b_nodes b))
                  (fresh_node (b_next b) "ShaderNodeGroup")) as H.
    rewrite nd_id_fresh_node in H. rewrite H; [| exact Hassign |].
    + cbn [option_map]. unfold assign. rewrite nd_id_fresh_node, Nat.eqb_refl.
      now rewrite shape_fresh_group.
    + apply Forall_filter_keep. exact Hwf.
  - intros id Hlt Hne. rewrite (shape_at_map assign b); [| exact Hassign |].
    + rewrite find_node_app_old by (rewrite nd_id_fresh_node; lia).
      f_equal. unfold find_node. clear Hwf.
      induction (b_nodes b) as [| n ns IH]; [reflexivity |].
      cbn [List.filter List.find].
      destruct (Nat.eqb_spec (nd_id n) (b_shader_node b)) as [Heq | Hneq]; cbn [negb].
      * destruct (Nat.eqb_spec (nd_id n) id); [congruence | exact IH].
      * cbn [List.find]. destruct (Nat.eqb (nd_id n) id); [reflexivity | exact IH].
    + intros n Hn. unfold assign. destruct (Nat.eqb_spec (nd_id n) (b_next b)); [lia | reflexivity].
Qed.

Lemma reselected_refl (b : build) :
  wf_frame b -> (b_shader_node b < b_next b)%nat -> reselected b b.
Proof.
  intros Hwf Hlt. unfold reselected. split; [exact Hwf |]. split; [lia |].
  split; [exact Hlt |]. split; [now left | reflexivity].
Qed.

Lemma reselected_replaced (E : env) (name_ : string) (b0 b : build) :
  reselected b0 b -> reselected b0 (replaced E name_ b).
Proof.
  intros (Hwf & Hle & Hlt & Hroot & Hsh).
  destruct (replaced_facts E name_ b Hwf) as (Hnext & Hshader & _ & Hkeep).
  unfold reselected. rewrite Hnext, Hshader.
  split; [now apply replaced_wf |]. split; [lia |]. split; [lia |]. split; [right; lia |].
  intros id Hid Hne. rewrite Hkeep; [now apply Hsh | lia |].
  destruct Hroot as [-> | Hge]; [exact Hne | lia].
Qed.

Lemma reselected_attr (k : string) (v : pyval) (b0 b : build) :
  reselected b0 b -> reselected b0 (set_frame_attr k v b).
Proof. intros H. exact H. Qed.

Lemma selected_reselected (E : env) (md : Material.t) (b : build) :
  wf_frame b -> (b_shader_node b < b_next b)%nat -> reselected b (selected E md b).
Proof.
  intros Hwf Hlt. unfold selected. cbv zeta.
  destruct (is_layered md), (is_toon_material md), (is_valet md), (is_glass md),
    (truthy (Material.UseFoliageMaterial md) && negb (truthy (is_trunk_of md)));
    repeat first [apply reselected_attr | apply reselected_replaced];
    now apply reselected_refl.
Qed.

Lemma replaced_root_shape (E : env) (name_ : string) (b : build) :
  wf_frame b ->
  shape_at (replaced E name_ b) (b_shader_node (replaced E name_ b))
  = Some (group_shape E name_).
Proof.
  intros Hwf. destruct (replaced_facts E name_ b Hwf) as (_ & Hshader & Hsh & _).
  now rewrite Hshader.
Qed.

Lemma selected_root_shape (E : env) (md : Material.t) (b : build) :
  wf_frame b ->
  shape_at (selected E md b) (b_shader_node (selected E md b))
  = match last_template md with
    | Some name_ => Some (group_shape E name_)
    | None => shape_at b (b_shader_node b)
    end.
Proof.
  intros Hwf. unfold selected, last_template, family_order.
  cbn [List.rev List.app List.find family_holds].
  destruct (is_layered md), (is_toon_material md), (is_valet md), (is_glass md),
    (truthy (is_trunk_of md)), (truthy (Material.UseFoliageMaterial md));
    cbn [andb negb replaces_root family_template];
    try reflexivity;
    unfold set_frame_attr;
    repeat match goal with
           | |- context [shape_at (with_attrs ?a ?b0) ?id] =>
               change (shape_at (with_attrs a b0) id) with (shape_at b0 id)
           | |- context [b_shader_node (with_attrs ?a ?b0)] =>
               change (b_shader_node (with_attrs a b0)) with (b_shader_node b0)
           end;
    apply replaced_root_shape; repeat apply replaced_wf; exact Hwf.
Qed.

Lemma root_template_shape (E : env) (md : Material.t) :
  group_shape E (root_template md)
  = ("ShaderNodeGroup",
     match node_groups E (root_template md) with
     | Some _ => Some (root_template md)
     | None => None
     end,
     match node_groups E (root_template md) with
     | Some g => ng_inputs g
     | None => []
     end,
     root_outputs E md).
Proof. unfold group_shape, root_outputs. now destruct (node_groups E (root_template md)). Qed.

(** X17: the base construction returns exactly when the data file has
    the template of the last family that replaces the root node,
    ["FP Material"] when there is none, and the template has an output;
    otherwise reading [shader_node.outputs[0]] raises [IndexError].
    When it returns, the last link of the tree runs from output 0 of
    the root node, a group node on that template, to the first input
    of the output node. *)
Theorem build_base_outcome (E : env) (md : Material.t) (b : build) :
  wf_frame b ->
  fst (build_base E md b)
  = (if Nat.ltb 0 (root_outputs E md) then Ok tt
     else Raise (IndexError "bpy_prop_collection[index]: index out of range"))
  /\ (fst (build_base E md b) = Ok tt
      <-> exists g, node_groups E (root_template md) = Some g /\ (0 < ng_outputs g)%nat)
  /\ (fst (build_base E md b) = Ok tt ->
      shape_at (snd (build_base E md b)) (b_shader_node (snd (build_base E md b)))
      = Some (group_shape E (root_template md))
      /\ exists links_,
           b_links (snd (build_base E md b))
           = links_ ++ [mkLink (b_shader_node (snd (build_base E md b))) 0 (b_next b) 0]).
Proof.
  intros Hwf.
  destruct (rooted_facts E b Hwf) as (Hwf1 & Hnext1 & Hroot1 & Hout1 & Hgrp1).
  assert (Hlt1 : (b_shader_node (rooted E b) < b_next (rooted E b))%nat) by lia.
  destruct (selected_reselected E md (rooted E b) Hwf1 Hlt1)
    as (Hwf2 & Hle2 & Hlt2 & _ & Hkeep2).
  pose proof (selected_root_shape E md (rooted E b) Hwf1) as Hroot2.
  assert (Hshape2 : shape_at (selected E md (rooted E b))
                      (b_shader_node (selected E md (rooted E b)))
                    = Some (group_shape E (root_template md))).
  { rewrite Hroot2. unfold root_template.
    destruct (last_template md); [reflexivity |]. cbn [default].
    now rewrite Hroot1. }
  assert (Hout2 : shape_at (selected E md (rooted E b)) (b_next b)
                  = Some ("ShaderNodeOutputMaterial", None,
                          ["Surface"; "Volume"; "Displacement"], 0%nat)).
  { rewrite Hkeep2; [exact Hout1 | lia | lia]. }
  set (b2 := selected E md (rooted E b)) in *.
  destruct (setup_params_stable E md (family_mappings (last_match md))
              (b_shader_node b2) true b2 Hwf2) as (Hwf3 & Hle3 & Hkeep3).
  pose proof (setup_params_settled E md (family_mappings (last_match md))
                (b_shader_node b2) true b2) as (_ & _ & _ & Hsh3 & _).
  rewrite build_base_eq. fold b2.
  set (b3 := snd (setup_params E md (family_mappings (last_match md))
                    (b_shader_node b2) true b2)) in *.
  assert (Hshape3 : shape_at b3 (b_shader_node b2) = Some (group_shape E (root_template md))).
  { rewrite Hkeep3; [exact Hshape2 | exact Hlt2]. }
  assert (Hout3 : shape_at b3 (b_next b)
                  = Some ("ShaderNodeOutputMaterial", None,
                          ["Surface"; "Volume"; "Displacement"], 0%nat)).
  { rewrite Hkeep3; [exact Hout2 | lia]. }
  destruct (shape_at_find _ _ _ Hshape3) as [root [Hfind Hrs]].
  destruct (shape_at_find _ _ _ Hout3) as [out [Hfindo Hos]].
  rewrite root_template_shape in Hrs. unfold shape in Hrs, Hos.
  injection Hrs as _ _ _ Houtputs. injection Hos as _ _ Hinputs _.
  assert (Hrun :
    (outputs_at (b_shader_node b2) 0
     ≫= (fun o => inputs_at (b_next b) 0 ≫= (fun i => links_new o i))) b3
    = if Nat.ltb 0 (root_outputs E md)
      then (Ok tt,
            with_links
              (List.filter (fun l => negb (is_input_of (b_next b, 0%nat) l)) (b_links b3)
                 ++ [mkLink (b_shader_node b2) 0 (b_next b) 0]) b3)
      else (Raise (IndexError "bpy_prop_collection[index]: index out of range"), b3)).
  { rewrite mbind_unfold. unfold outputs_at. rewrite mbind_unfold. unfold get_node.
    rewrite Hfind, Houtputs.
    destruct (Nat.ltb 0 (root_outputs E md)); [| reflexivity].
    cbn [mret M_ret ret]. rewrite mbind_unfold. unfold inputs_at.
    rewrite mbind_unfold. unfold get_node. rewrite Hfindo, Hinputs. reflexivity. }
  rewrite Hrun. split; [| split].
  - now destruct (Nat.ltb 0 (root_outputs E md)).
  - unfold root_outputs. destruct (node_groups E (root_template md)) as [g |].
    + destruct (Nat.ltb_spec 0 (ng_outputs g)); cbn [fst]; split.
      * intros _. now exists g.
      * reflexivity.
      * discriminate.
      * intros [g' [[= <-] Hg]]. lia.
    + cbn [Nat.ltb Nat.leb fst]. split; [discriminate | intros [g [Hg _]]; discriminate].
  - destruct (Nat.ltb 0 (root_outputs E md)); cbn [fst snd]; [| discriminate].
    intros _. split.
    + change (shape_at b3 (b_shader_node b3) = Some (group_shape E (root_template md))).
      rewrite Hsh3. exact Hshape3.
    + eexists. cbn [b_links with_links b_shader_node]. rewrite Hsh3. reflexivity.
Qed.

Lemma build_base_outcome_witness :
  wf_frame empty_frame
  /\ fst (build_base sample_env layered_toon_material empty_frame) = Ok tt.
Proof.
  assert (Hwf : wf_frame empty_frame) by constructor.
  split; [exact Hwf |].
  destruct (build_base_outcome sample_env layered_toon_material empty_frame Hwf)
    as [H _].
  rewrite H. reflexivity.
Defined.

Lemma setup_params_frame_witness :
  wf_frame (root_frame "FP Material")
  /\ fst (setup_params sample_env patchy_material default_mappings 0 true
            (root_frame "FP Material")) = Ok tt
  /\ b_shader_node (snd (setup_params sample_env patchy_material default_mappings 0 true
                           (root_frame "FP Material")))
     = b_shader_node (root_frame "FP Material").
Proof.
  split; [apply root_frame_wf |].
  destruct (setup_params_frame sample_env patchy_material default_mappings 0 true
              (root_frame "FP Material") (root_frame_wf "FP Material"))
    as (Hok & (_ & _ & _ & Hs & _) & _).
  split; [exact Hok | exact Hs].
Defined.

(** Without the ["FP Toon"] template in the data file the base
    construction of a toon material raises at the last line but one. *)
Example build_base_without_template :
  fst (build_base
         (mkEnv (fun nm => if String.eqb nm "FP Toon" then None else sample_groups nm)
            (import_image sample_env) (options sample_env) (casefold sample_env)
            (socket_accepts sample_env))
         layered_toon_material empty_frame)
  = Raise (IndexError "bpy_prop_collection[index]: index out of range").
Proof. vm_compute. reflexivity. Qed.


(** ** The settings of the material after the construction *)

Lemma selected_attrs_eq (E : env) (md : Material.t) (b : build) :
  b_attrs (selected E md b) = selected_attrs md (b_attrs b)
  /\ b_props (selected E md b) = b_props b
  /\ b_is_toon (selected E md b) = b_is_toon b
  /\ b_stderr (selected E md b) = b_stderr b.
Proof.
  unfold selected, selected_attrs. cbv zeta.
  destruct (is_layered md), (is_toon_material md), (is_valet md), (is_glass md),
    (truthy (Material.UseFoliageMaterial md) && negb (truthy (is_trunk_of md)));
    repeat split; reflexivity.
Qed.

Lemma selected_attrs_merge (md : Material.t) (meta : Meta.t) (attrs : gmap string pyval) :
  selected_attrs (merge_overrides md meta) attrs = selected_attrs md attrs.
Proof. rewrite merge_overrides_lists. reflexivity. Qed.

Lemma build_base_settings (E : env) (md : Material.t) (b : build) :
  b_attrs (snd (build_base E md b)) = selected_attrs md (b_attrs b)
  /\ b_props (snd (build_base E md b)) = b_props b
  /\ b_is_toon (snd (build_base E md b)) = b_is_toon b
  /\ exists tail, b_stderr (snd (build_base E md b)) = b_stderr b ++ tail.
Proof.
  rewrite build_base_eq.
  set (b2 := selected E md (rooted E b)).
  pose proof (setup_params_settled E md (family_mappings (last_match md))
                (b_shader_node b2) true b2) as H23.
  set (b3 := snd (setup_params E md (family_mappings (last_match md))
                    (b_shader_node b2) true b2)) in *.
  assert (Htail : respects settled
                    (outputs_at (b_shader_node b2) 0
                     ≫= (fun o => inputs_at (b_next b) 0 ≫= (fun i => links_new o i)))).
  { apply (respects_bind settled settled_trans);
      [apply (respects_outputs_at settled settled_refl settled_trans) |].
    intros o. apply (respects_bind settled settled_trans);
      [apply (respects_inputs_at settled settled_refl settled_trans) |].
    intros i. apply settled_links_new. }
  pose proof (settled_trans _ _ _ H23 (Htail b3)) as (Ha & Hp & Ht & _ & _ & He).
  destruct (selected_attrs_eq E md (rooted E b)) as (Ha2 & Hp2 & Ht2 & He2).
  fold b2 in Ha2, Hp2, Ht2, He2.
  rewrite Ha, Hp, Ht, Ha2, Hp2, Ht2. repeat split.
  destruct He as [tail He]. exists tail. now rewrite He, He2.
Qed.

Lemma mark_crunch_verts_settings (E : env) (b : build) :
  b_attrs (snd (mark_crunch_verts E b)) = b_attrs b
  /\ b_props (snd (mark_crunch_verts E b)) = <["Crunch Verts" := VBool true]> (b_props b)
  /\ b_is_toon (snd (mark_crunch_verts E b)) = b_is_toon b
  /\ exists tail, b_stderr (snd (mark_crunch_verts E b)) = b_stderr b ++ tail.
Proof.
  unfold mark_crunch_verts. rewrite mbind_unfold. cbn [get_build].
  rewrite mbind_unfold. cbn [modify].
  pose proof (respects_assign_input E settled settled_refl settled_trans
                (fun id f _ => settled_update id f) (b_shader_node b) "Alpha" (VNum 0)
                (with_props (<["Crunch Verts" := VBool true]> (b_props b)) b))
    as (Ha & Hp & Ht & _ & _ & He).
  rewrite Ha, Hp, Ht. repeat split. exact He.
Qed.

(** What the graph construction leaves of the material, returning or
    raising. *)
Lemma build_graph_leaves (E : env) (material_name : string) (md : Material.t)
    (meta : Meta.t) (b : build) :
  b_attrs (snd (build_graph E material_name md meta b)) = selected_attrs md (b_attrs b)
  /\ b_props (snd (build_graph E material_name md meta b))
     = (if is_vertex_crunch material_name md && is_ok (fst (build_base E md b))
        then <["Crunch Verts" := VBool true]> (b_props b)
        else b_props b)
  /\ (b_is_toon b = true -> b_is_toon (snd (build_graph E material_name md meta b)) = true)
  /\ exists tail,
       b_stderr (snd (build_graph E material_name md meta b)) = b_stderr b ++ tail.
Proof.
  destruct (build_base_settings E md b) as (Ha & Hp & Ht & [t1 He]).
  unfold build_graph. rewrite mbind_unfold.
  destruct (build_base E md b) as [[[] | e] b1]; cbn [fst snd is_ok] in *.
  - rewrite Bool.andb_true_r. unfold post_process.
    destruct (is_vertex_crunch material_name md).
    + destruct (mark_crunch_verts_settings E b1) as (Ha' & Hp' & Ht' & [t2 He']).
      rewrite Ha', Hp', Ht', Ha, Hp, Ht. repeat split; [auto |].
      exists (t1 ++ t2). now rewrite He', He, List.app_assoc.
    + destruct (fixups_advanced E md meta b1) as (Ha' & Hp' & _ & Ht' & [t2 He']).
      rewrite Ha', Hp', Ha, Hp. repeat split.
      * intros Hb. apply Ht'. now rewrite Ht.
      * exists (t1 ++ t2). now rewrite He', He, List.app_assoc.
  - rewrite Bool.andb_false_r, Ha, Hp, Ht. repeat split; [auto |]. now exists t1.
Qed.

(** X18: what the graph construction leaves of the material, returning
    or raising.  The attributes are those it found with the settings of
    the selection: blend method and back faces for glass, translucency
    for foliage that is no trunk.  The custom properties are those it
    found, with ["Crunch Verts"] set exactly when the vertex-crunch
    test holds and the base construction has returned.  [self.is_toon]
    is not taken back and nothing printed is lost. *)
Theorem build_graph_settings (E : env) (material_name : string) (md : Material.t)
    (meta : Meta.t) (b : build) :
  b_attrs (snd (build_graph E material_name md meta b)) = selected_attrs md (b_attrs b)
  /\ b_props (snd (build_graph E material_name md meta b))
     = (if is_vertex_crunch material_name md && is_ok (fst (build_base E md b))
        then <["Crunch Verts" := VBool true]> (b_props b)
        else b_props b)
  /\ (b_is_toon b = true -> b_is_toon (snd (build_graph E material_name md meta b)) = true)
  /\ exists tail,
       b_stderr (snd (build_graph E material_name md meta b)) = b_stderr b ++ tail.
Proof. exact (build_graph_leaves E material_name md meta b). Qed.

(** ** The state after an import *)

Lemma import_material_miss (E : env) (slot_ : nat) (md : Material.t) (meta : Meta.t)
    (st : state) (current : nat) :
  imported_materials st !! snd (fingerprint md meta) = None ->
  slot_material (get_slot st slot_) = Some current ->
  snd (fst (import_material E slot_ md meta st))
  = end_build
      (fst (claim_material E slot_ (fst (fingerprint md meta)) (snd (fingerprint md meta))
              current (set_slot slot_ (mkSlot "OBJECT" (Some current)) st)))
      (snd (build_graph E (fst (fingerprint md meta)) (merge_overrides md meta) meta
              (begin_build
                 (snd (claim_material E slot_ (fst (fingerprint md meta))
                         (snd (fingerprint md meta)) current
                         (set_slot slot_ (mkSlot "OBJECT" (Some current)) st)))
                 (fst (claim_material E slot_ (fst (fingerprint md meta))
                         (snd (fingerprint md meta)) current
                         (set_slot slot_ (mkSlot "OBJECT" (Some current)) st))))))
      (snd (claim_material E slot_ (fst (fingerprint md meta)) (snd (fingerprint md meta))
              current (set_slot slot_ (mkSlot "OBJECT" (Some current)) st))).
Proof.
  intros Hmiss Hslot. unfold import_material. rewrite Hslot.
  destruct (fingerprint md meta) as [material_name material_hash]. cbn [fst snd] in *.
  change (imported_materials (set_slot slot_ (mkSlot "OBJECT" (Some current)) st))
    with (imported_materials st).
  rewrite Hmiss.
  destruct (claim_material E slot_ material_name material_hash current _) as [h st2].
  cbn [fst snd].
  now destruct (build_graph E material_name (merge_overrides md meta) meta
                  (begin_build st2 h)) as [r bf].
Qed.

Lemma get_material_end_build (h : nat) (b : build) (st : state) :
  get_material (end_build h b st) h
  = mkMaterial (mat_name (get_material st h)) (b_attrs b) (b_props b) (b_nodes b) (b_links b).
Proof. unfold get_material, end_build. cbn [materials]. now rewrite lookup_insert_eq. Qed.

(** X19: the material of a cache miss.  After the import the slot holds
    the material that the cache has under the key; it draws with nodes,
    its shadow method is ["CLIP"], its blend method is ["BLEND"] for a
    glass material and ["CLIP"] for every other, a glass material shows
    no back faces and foliage that is no trunk is translucent, whether
    the graph construction has returned or raised. *)
Theorem import_material_miss_settings (E : env) (slot_ : nat) (md : Material.t)
    (meta : Meta.t) (st : state) (current : nat) :
  imported_materials st !! snd (fingerprint md meta) = None ->
  slot_material (get_slot st slot_) = Some current ->
  exists h,
    slot_material (get_slot (snd (fst (import_material E slot_ md meta st))) slot_) = Some h
    /\ imported_materials (snd (fst (import_material E slot_ md meta st)))
         !! snd (fingerprint md meta) = Some h
    /\ mat_attrs (get_material (snd (fst (import_material E slot_ md meta st))) h)
         !! "use_nodes" = Some (VBool true)
    /\ mat_attrs (get_material (snd (fst (import_material E slot_ md meta st))) h)
         !! "shadow_method" = Some (VStr "CLIP")
    /\ mat_attrs (get_material (snd (fst (import_material E slot_ md meta st))) h)
         !! "blend_method" = Some (VStr (if is_glass md then "BLEND" else "CLIP"))
    /\ (is_glass md = true ->
        mat_attrs (get_material (snd (fst (import_material E slot_ md meta st))) h)
          !! "show_transparent_back" = Some (VBool false))
    /\ (truthy (Material.UseFoliageMaterial md) && negb (truthy (is_trunk_of md)) = true ->
        mat_attrs (get_material (snd (fst (import_material E slot_ md meta st))) h)
          !! "use_sss_translucency" = Some (VBool true)).
Proof.
  intros Hmiss Hslot. rewrite (import_material_miss E slot_ md meta st current Hmiss Hslot).
  set (st1 := set_slot slot_ (mkSlot "OBJECT" (Some current)) st).
  assert (Hslot1 : slot_material (get_slot st1 slot_) = Some current).
  { unfold st1. now rewrite get_slot_set_slot. }
  pose proof (claim_material_slot E slot_ (fst (fingerprint md meta))
                (snd (fingerprint md meta)) current st1 Hslot1) as Hs.
  pose proof (claim_material_cache E slot_ (fst (fingerprint md meta))
                (snd (fingerprint md meta)) current st1) as Hc.
  destruct (claim_material E slot_ (fst (fingerprint md meta)) (snd (fingerprint md meta))
              current st1) as [h st2].
  cbn [fst snd] in *. exists h.
  destruct (build_graph_leaves E (fst (fingerprint md meta)) (merge_overrides md meta)
              meta (begin_build st2 h)) as (Ha & _).
  rewrite selected_attrs_merge in Ha.
  rewrite get_material_end_build. cbn [mat_attrs]. rewrite Ha.
  split; [exact Hs |].
  split; [change (imported_materials (end_build h _ st2)) with (imported_materials st2);
          rewrite Hc; apply lookup_insert_eq |].
  unfold selected_attrs, begin_build. cbn [b_attrs].
  destruct (is_glass md),
    (truthy (Material.UseFoliageMaterial md) && negb (truthy (is_trunk_of md)));
    repeat split; try discriminate; intros;
    repeat first [ rewrite lookup_insert_eq; reflexivity
                 | rewrite lookup_insert_ne by discriminate ].
Qed.

Lemma import_material_miss_settings_witness :
  imported_materials visor_state !! snd (fingerprint glass_material no_meta) = None
  /\ slot_material (get_slot visor_state 7) = Some 0%nat
  /\ exists h,
       slot_material
         (get_slot (snd (fst (import_material sample_env 7 glass_material no_meta
                                visor_state))) 7) = Some h
       /\ mat_attrs (get_material (snd (fst (import_material sample_env 7 glass_material
                                                no_meta visor_state))) h)
            !! "blend_method" = Some (VStr "BLEND").
Proof.
  split; [reflexivity |]. split; [reflexivity |].
  destruct (import_material_miss_settings sample_env 7 glass_material no_meta visor_state
              0%nat eq_refl eq_refl) as [h (Hs & _ & _ & _ & Hb & _)].
  exists h. split; [exact Hs | exact Hb].
Defined.

Lemma claim_material_frame (E : env) (slot_ : nat) (material_name : string)
    (material_hash : Z) (current : nat) (st : state) :
  (forall s, s <> slot_ ->
     slots (snd (claim_material E slot_ material_name material_hash current st)) !! s
     = slots st !! s)
  /\ (forall h m, materials st !! h = Some m ->
        materials (snd (claim_material E slot_ material_name material_hash current st)) !! h
        = Some m)
  /\ (fst (claim_material E slot_ material_name material_hash current st) = current
      \/ materials st
           !! fst (claim_material E slot_ material_name material_hash current st) = None)
  /\ is_toon (snd (claim_material E slot_ material_name material_hash current st))
     = is_toon st
  /\ stderr (snd (claim_material E slot_ material_name material_hash current st))
     = stderr st.
Proof.
  unfold claim_material.
  destruct (negb (String.eqb (casefold E (mat_name (get_material st current)))
                    (casefold E material_name))).
  - unfold materials_new. cbn [fst snd slots materials set_slot register is_toon stderr].
    assert (Hfresh : materials st !! fresh (dom (materials st)) = None).
    { apply not_elem_of_dom. apply is_fresh. }
    split; [intros s Hs; now rewrite lookup_insert_ne |].
    split; [| split; [now right | split; reflexivity]].
    intros h m Hm. rewrite lookup_insert_ne; [exact Hm |]. intros <-. congruence.
  - cbn [fst snd slots materials register is_toon stderr].
    split; [reflexivity |]. split; [auto |]. split; [now left | split; reflexivity].
Qed.

Lemma claim_material_link (E : env) (slot_ : nat) (material_name : string)
    (material_hash : Z) (current : nat) (st : state) :
  slot_link (get_slot st slot_) = "OBJECT" ->
  slot_link (get_slot (snd (claim_material E slot_ material_name material_hash current st))
               slot_) = "OBJECT".
Proof.
  intros H. unfold claim_material.
  destruct (negb (String.eqb (casefold E (mat_name (get_material st current)))
                    (casefold E material_name))).
  - unfold materials_new. cbn [fst snd]. unfold register. unfold get_slot at 1.
    cbn [slots set_slot]. now rewrite lookup_insert_eq.
  - exact H.
Qed.

(** The slots, the materials and the cache after an import. *)
Lemma import_material_touches (E : env) (slot_ : nat) (md : Material.t) (meta : Meta.t)
    (st : state) :
  (forall s, s <> slot_ ->
     slots (snd (fst (import_material E slot_ md meta st))) !! s = slots st !! s)
  /\ slot_link (get_slot (snd (fst (import_material E slot_ md meta st))) slot_) = "OBJECT"
  /\ (forall h m, materials st !! h = Some m ->
        materials (snd (fst (import_material E slot_ md meta st))) !! h = Some m
        \/ (imported_materials st !! snd (fingerprint md meta) = None
            /\ slot_material (get_slot st slot_) = Some h
            /\ slot_material (get_slot (snd (fst (import_material E slot_ md meta st))) slot_)
               = Some h))
  /\ (forall k, k <> snd (fingerprint md meta) ->
        imported_materials (snd (fst (import_material E slot_ md meta st))) !! k
        = imported_materials st !! k).
Proof.
  destruct (imported_materials st !! snd (fingerprint md meta)) as [existing |] eqn:Hc.
  - rewrite (import_material_hit E slot_ md meta st existing Hc). cbn [fst snd].
    split; [intros s Hs; cbn [set_slot slots]; now rewrite lookup_insert_ne |].
    split; [now rewrite get_slot_set_slot |]. split; [intros h m Hm; now left |].
    reflexivity.
  - destruct (slot_material (get_slot st slot_)) as [current |] eqn:Hs.
    + rewrite (import_material_miss E slot_ md meta st current Hc Hs).
      set (st1 := set_slot slot_ (mkSlot "OBJECT" (Some current)) st).
      assert (Hslot1 : slot_material (get_slot st1 slot_) = Some current).
      { unfold st1. now rewrite get_slot_set_slot. }
      destruct (claim_material_frame E slot_ (fst (fingerprint md meta))
                  (snd (fingerprint md meta)) current st1) as (Hsl & Hmat & Hh & _).
      pose proof (claim_material_slot E slot_ (fst (fingerprint md meta))
                    (snd (fingerprint md meta)) current st1 Hslot1) as Hsm.
      pose proof (claim_material_cache E slot_ (fst (fingerprint md meta))
                    (snd (fingerprint md meta)) current st1) as Hcache.
      assert (Hlink : slot_link
                        (get_slot (snd (claim_material E slot_ (fst (fingerprint md meta))
                                          (snd (fingerprint md meta)) current st1)) slot_)
                      = "OBJECT").
      { apply claim_material_link. unfold st1. now rewrite get_slot_set_slot. }
      destruct (claim_material E slot_ (fst (fingerprint md meta))
                  (snd (fingerprint md meta)) current st1) as [h st2].
      cbn [fst snd] in *.
      split; [| split; [exact Hlink | split]].
      * intros s Hne. change (slots (end_build h _ st2)) with (slots st2).
        rewrite (Hsl s Hne). unfold st1. cbn [set_slot slots]. now rewrite lookup_insert_ne.
      * intros h0 m Hm. unfold end_build at 1. cbn [materials].
        destruct (decide (h0 = h)) as [-> | Hne].
        -- right. split; [reflexivity |].
           destruct Hh as [-> | Hnone];
             [split; [reflexivity | exact Hsm] |].
           change (materials st1) with (materials st) in Hnone. congruence.
        -- left. rewrite lookup_insert_ne by congruence. apply Hmat. exact Hm.
      * intros k Hk. change (imported_materials (end_build h _ st2))
          with (imported_materials st2).
        rewrite Hcache. now rewrite lookup_insert_ne.
    + unfold import_material. rewrite Hs.
      destruct (fingerprint md meta) as [material_name material_hash]. cbn [fst snd] in *.
      change (imported_materials (set_slot slot_ (mkSlot "OBJECT" None) st))
        with (imported_materials st).
      rewrite Hc. cbn [fst snd].
      split; [intros s Hne; cbn [set_slot slots]; now rewrite lookup_insert_ne |].
      split; [now rewrite get_slot_set_slot |]. split; [intros h m Hm; now left |].
      reflexivity.
Qed.

(** *** The image datablocks *)

Lemma images_kept_refl (b : build) : images_kept b b.
Proof. intros img k _ _. reflexivity. Qed.

Lemma images_kept_trans (b1 b2 b3 : build) :
  images_kept b1 b2 -> images_kept b2 b3 -> images_kept b1 b3.
Proof. intros H12 H23 img k Ha Hc. now rewrite (H23 img k Ha Hc), (H12 img k Ha Hc). Qed.

Lemma images_kept_same (b b' : build) : b_images b' = b_images b -> images_kept b b'.
Proof. intros H img k _ _. now rewrite H. Qed.

Lemma images_kept_update (id : nat) (f : node -> node) :
  respects images_kept (update_node id f).
Proof.
  intros b. rewrite update_node_cases.
  destruct (find_node (b_nodes b) id); now apply images_kept_same.
Qed.

Lemma images_kept_image (img k : string) (v : pyval) :
  k = "alpha_mode" \/ k = "colorspace_settings.name" ->
  respects images_kept (set_image_attr img k v).
Proof.
  intros Hk b img' k' Ha Hc. unfold set_image_attr, modify, image_attr.
  cbn [snd b_images with_images].
  destruct (decide (img' = img)) as [-> | Hne].
  - rewrite lookup_insert_eq, lookup_insert_ne by (destruct Hk; congruence).
    destruct (b_images b !! img); [reflexivity | apply lookup_empty].
  - now rewrite lookup_insert_ne by congruence.
Qed.

Lemma images_kept_new_group (E : env) (ty nm : string) (B : Type) (k : nat -> M B) :
  (forall nd, respects images_kept (k nd)) ->
  respects images_kept
    (nodes_new ty ≫= (fun nd => assign_node_tree E nd nm ≫= (fun _ => k nd))).
Proof.
  intros Hk.
  apply (respects_bind images_kept images_kept_trans);
    [intros b; now apply images_kept_same |].
  intros nd. apply (respects_bind images_kept images_kept_trans);
    [apply images_kept_update |].
  intros _. apply Hk.
Qed.

Lemma setup_params_images (E : env) (md : Material.t) (mappings : MappingCollection)
    (target_node : nat) (add_unused_params : bool) :
  respects images_kept (setup_params E md mappings target_node add_unused_params).
Proof.
  apply respects_setup_params;
    [ exact images_kept_refl | exact images_kept_trans
    | intros e b; now apply images_kept_same
    | intros ty b; now apply images_kept_same
    | intros id f _; apply images_kept_update
    | intros o i b; now apply images_kept_same
    | exact images_kept_image
    | intros p _ b; now apply images_kept_same
    | exact (images_kept_new_group E) ].
Qed.

Lemma fixups_images (E : env) (md : Material.t) (meta : Meta.t) :
  respects images_kept (fixups E md meta).
Proof.
  apply respects_fixups;
    [ exact images_kept_refl | exact images_kept_trans
    | intros e b; now apply images_kept_same
    | intros ty b; now apply images_kept_same
    | intros id f _; apply images_kept_update
    | intros o i b; now apply images_kept_same
    | exact images_kept_image
    | intros p _ b; now apply images_kept_same
    | exact (images_kept_new_group E)
    | intros id b; now apply images_kept_same
    | intros v b; now apply images_kept_same
    | intros b; now apply images_kept_same ].
Qed.

Lemma selected_images (E : env) (md : Material.t) (b : build) :
  b_images (selected E md b) = b_images b.
Proof.
  unfold selected. cbv zeta.
  destruct (is_layered md), (is_toon_material md), (is_valet md), (is_glass md),
    (truthy (Material.UseFoliageMaterial md) && negb (truthy (is_trunk_of md)));
    reflexivity.
Qed.

Lemma build_graph_images (E : env) (material_name : string) (md : Material.t)
    (meta : Meta.t) (b : build) :
  images_kept b (snd (build_graph E material_name md meta b)).
Proof.
  assert (Hbase : images_kept b (snd (build_base E md b))).
  { rewrite build_base_eq.
    set (b2 := selected E md (rooted E b)).
    apply (images_kept_trans b b2 _).
    - apply images_kept_same. unfold b2. now rewrite selected_images.
    - assert (Htail : respects images_kept
                          (outputs_at (b_shader_node b2) 0
                           ≫= (fun o => inputs_at (b_next b) 0
                                        ≫= (fun i => links_new o i)))).
      { apply (respects_bind images_kept images_kept_trans);
          [apply (respects_outputs_at images_kept images_kept_refl images_kept_trans) |].
        intros o. apply (respects_bind images_kept images_kept_trans);
          [apply (respects_inputs_at images_kept images_kept_refl images_kept_trans) |].
        intros i b3. now apply images_kept_same. }
      exact (images_kept_trans _ _ _
               (setup_params_images E md (family_mappings (last_match md))
                  (b_shader_node b2) true b2)
               (Htail _)). }
  unfold build_graph. rewrite mbind_unfold.
  destruct (build_base E md b) as [[[] | e] b1]; cbn [snd] in *; [| exact Hbase].
  apply (images_kept_trans b b1 _); [exact Hbase |].
  unfold post_process. destruct (is_vertex_crunch material_name md).
  - unfold mark_crunch_verts. rewrite mbind_unfold. cbn [get_build].
    rewrite mbind_unfold. cbn [modify].
    apply (images_kept_trans b1
             (with_props (<["Crunch Verts" := VBool true]> (b_props b1)) b1) _);
      [now apply images_kept_same |].
    apply (respects_assign_input E images_kept images_kept_refl images_kept_trans
             (fun id f _ => images_kept_update id f)).
  - apply fixups_images.
Qed.

Lemma claim_material_images (E : env) (slot_ : nat) (material_name : string)
    (material_hash : Z) (current : nat) (st : state) :
  images (snd (claim_material E slot_ material_name material_hash current st)) = images st.
Proof.
  unfold claim_material.
  destruct (negb (String.eqb (casefold E (mat_name (get_material st current)))
                    (casefold E material_name))); reflexivity.
Qed.

Lemma import_material_images (E : env) (slot_ : nat) (md : Material.t) (meta : Meta.t)
    (st : state) (img k : string) :
  k <> "alpha_mode" -> k <> "colorspace_settings.name" ->
  image_attr (images (snd (fst (import_material E slot_ md meta st)))) img k
  = image_attr (images st) img k.
Proof.
  intros Ha Hcs.
  destruct (imported_materials st !! snd (fingerprint md meta)) as [existing |] eqn:Hc.
  - now rewrite (import_material_hit E slot_ md meta st existing Hc).
  - destruct (slot_material (get_slot st slot_)) as [current |] eqn:Hs.
    + rewrite (import_material_miss E slot_ md meta st current Hc Hs).
      pose proof (claim_material_images E slot_ (fst (fingerprint md meta))
                    (snd (fingerprint md meta)) current
                    (set_slot slot_ (mkSlot "OBJECT" (Some current)) st)) as Himg.
      destruct (claim_material E slot_ (fst (fingerprint md meta))
                  (snd (fingerprint md meta)) current
                  (set_slot slot_ (mkSlot "OBJECT" (Some current)) st)) as [h st2].
      cbn [fst snd] in *.
      change (images (end_build h ?bf st2)) with (b_images bf).
      rewrite (build_graph_images E (fst (fingerprint md meta)) (merge_overrides md meta)
                 meta (begin_build st2 h) img k Ha Hcs).
      unfold begin_build. cbn [b_images]. now rewrite Himg.
    + unfold import_material. rewrite Hs.
      destruct (fingerprint md meta) as [material_name material_hash]. cbn [fst snd] in *.
      change (imported_materials (set_slot slot_ (mkSlot "OBJECT" None) st))
        with (imported_materials st).
      now rewrite Hc.
Qed.

(** X20: an import touches one slot and one material at most.  Every
    other slot is as it was, the slot itself is linked to the object;
    a material that was there is there with its attributes, its
    properties and its node tree as they were, unless it is the one the
    slot holds after a cache miss, whose graph has been rebuilt; and no
    cache entry but that of the key of the import is written.  The
    image datablocks are no part of a material, the samplers of all
    materials share them: an import can write the alpha mode and the
    colour space of an image that other materials sample, and nothing
    else of it. *)
Theorem import_material_frame (E : env) (slot_ : nat) (md : Material.t) (meta : Meta.t)
    (st : state) :
  (forall s, s <> slot_ ->
     slots (snd (fst (import_material E slot_ md meta st))) !! s = slots st !! s)
  /\ slot_link (get_slot (snd (fst (import_material E slot_ md meta st))) slot_) = "OBJECT"
  /\ (forall h m, materials st !! h = Some m ->
        materials (snd (fst (import_material E slot_ md meta st))) !! h = Some m
        \/ (imported_materials st !! snd (fingerprint md meta) = None
            /\ slot_material (get_slot st slot_) = Some h
            /\ slot_material (get_slot (snd (fst (import_material E slot_ md meta st))) slot_)
               = Some h))
  /\ (forall k, k <> snd (fingerprint md meta) ->
        imported_materials (snd (fst (import_material E slot_ md meta st))) !! k
        = imported_materials st !! k)
  /\ (forall img k,
        k <> "alpha_mode" -> k <> "colorspace_settings.name" ->
        image_attr (images (snd (fst (import_material E slot_ md meta st)))) img k
        = image_attr (images st) img k).
Proof.
  destruct (import_material_touches E slot_ md meta st) as (H1 & H2 & H3 & H4).
  split; [exact H1 |]. split; [exact H2 |]. split; [exact H3 |]. split; [exact H4 |].
  intros img k. apply import_material_images.
Qed.

(** Two materials sample one file, the first as colour and the second
    as data.  The import of the second leaves the record of the first
    as it was, and the image that the sampler of the first refers to
    reads as data from then on. *)
Example shared_image_colour_space :
  materials (snd (fst (import_material sample_env 8 data_material no_meta
                         (snd (fst (import_material sample_env 7 colour_material no_meta
                                      two_material_state)))))) !! 0%nat
  = materials (snd (fst (import_material sample_env 7 colour_material no_meta
                           two_material_state))) !! 0%nat
  /\ image_attr
       (images (snd (fst (import_material sample_env 7 colour_material no_meta
                            two_material_state))))
       "Assets/Game/T/Shared.png" "colorspace_settings.name" = Some (VStr "sRGB")
  /\ image_attr
       (images (snd (fst (import_material sample_env 8 data_material no_meta
                            (snd (fst (import_material sample_env 7 colour_material no_meta
                                         two_material_state)))))))
       "Assets/Game/T/Shared.png" "colorspace_settings.name" = Some (VStr "Non-Color").
Proof. vm_compute. repeat split. Qed.

Lemma import_material_grows (E : env) (slot_ : nat) (md : Material.t) (meta : Meta.t)
    (st : state) :
  (is_toon st = true -> is_toon (snd (fst (import_material E slot_ md meta st))) = true)
  /\ (exists tail, stderr (snd (fst (import_material E slot_ md meta st))) = stderr st ++ tail)
  /\ (forall h, is_Some (materials st !! h) ->
        is_Some (materials (snd (fst (import_material E slot_ md meta st))) !! h)).
Proof.
  destruct (imported_materials st !! snd (fingerprint md meta)) as [existing |] eqn:Hc.
  - rewrite (import_material_hit E slot_ md meta st existing Hc). cbn [fst snd].
    split; [auto |]. split; [exists []; now rewrite List.app_nil_r | auto].
  - destruct (slot_material (get_slot st slot_)) as [current |] eqn:Hs.
    + rewrite (import_material_miss E slot_ md meta st current Hc Hs).
      set (st1 := set_slot slot_ (mkSlot "OBJECT" (Some current)) st).
      destruct (claim_material_frame E slot_ (fst (fingerprint md meta))
                  (snd (fingerprint md meta)) current st1) as (_ & Hmat & _ & Ht & He).
      destruct (claim_material E slot_ (fst (fingerprint md meta))
                  (snd (fingerprint md meta)) current st1) as [h st2].
      cbn [fst snd] in *.
      destruct (build_graph_leaves E (fst (fingerprint md meta)) (merge_overrides md meta)
                  meta (begin_build st2 h)) as (_ & _ & Htoon & [tail Herr]).
      unfold end_build. cbn [is_toon stderr materials].
      split; [| split].
      * intros Hst. apply Htoon. unfold begin_build. cbn [b_is_toon]. now rewrite Ht.
      * exists tail. rewrite Herr. unfold begin_build. cbn [b_stderr]. now rewrite He.
      * intros h0 [m Hm]. destruct (decide (h0 = h)) as [-> | Hne].
        -- rewrite lookup_insert_eq. eauto.
        -- rewrite lookup_insert_ne by congruence. rewrite (Hmat h0 m Hm). eauto.
    + unfold import_material. rewrite Hs.
      destruct (fingerprint md meta) as [material_name material_hash]. cbn [fst snd] in *.
      change (imported_materials (set_slot slot_ (mkSlot "OBJECT" None) st))
        with (imported_materials st).
      rewrite Hc. cbn [fst snd].
      split; [auto |]. split; [exists []; now rewrite List.app_nil_r | auto].
Qed.

(** X21: a run only adds.  Over any sequence of imports [self.is_toon],
    once set, stays set; what was printed stays printed, in front of
    what is printed later; no material is removed and no cache entry is
    removed or changed. *)
Theorem import_all_grows (calls : list (env * nat * Material.t * Meta.t)) (st : state) :
  (is_toon st = true -> is_toon (import_all calls st) = true)
  /\ (exists tail, stderr (import_all calls st) = stderr st ++ tail)
  /\ (forall h, is_Some (materials st !! h) ->
        is_Some (materials (import_all calls st) !! h))
  /\ (forall k h, imported_materials st !! k = Some h ->
        imported_materials (import_all calls st) !! k = Some h).
Proof.
  split; [| split; [| split; [| intros k h; apply import_all_keeps_cache]]];
    revert st; induction calls as [| [[[E slot_] md] meta] calls IH]; intros st;
    unfold import_all in *; cbn [List.fold_left];
    try (destruct (import_material_grows E slot_ md meta st) as (Ht & [t1 He] & Hm)).
  - auto.
  - intros Hst. apply IH. now apply Ht.
  - exists []. now rewrite List.app_nil_r.
  - destruct (IH (snd (fst (import_material E slot_ md meta st)))) as [t2 He2].
    exists (t1 ++ t2). now rewrite He2, He, List.app_assoc.
  - auto.
  - intros h Hh. apply IH. now apply Hm.
Qed.


(** ** More on the lookups *)

Lemma str_in_Permutation (x : string) (names names' : list string) :
  Permutation names names' -> str_in x names = str_in x names'.
Proof.
  intros Hp. unfold str_in.
  destruct (List.existsb (String.eqb x) names) eqn:H1;
    destruct (List.existsb (String.eqb x) names') eqn:H2; try reflexivity; exfalso.
  - apply List.existsb_exists in H1. destruct H1 as [y [Hin Hy]].
    assert (H : List.existsb (String.eqb x) names' = true).
    { apply List.existsb_exists. exists y. split; [| exact Hy].
      eapply Permutation_in; [exact Hp | exact Hin]. }
    congruence.
  - apply List.existsb_exists in H2. destruct H2 as [y [Hin Hy]].
    assert (H : List.existsb (String.eqb x) names = true).
    { apply List.existsb_exists. exists y. split; [| exact Hy].
      eapply Permutation_in; [symmetry; exact Hp | exact Hin]. }
    congruence.
Qed.

Lemma find_none_all {A} (f : A -> bool) (l : list A) :
  (forall x, List.In x l -> f x = false) -> List.find f l = None.
Proof.
  induction l as [| x l IH]; intros H; [reflexivity |]. cbn [List.find].
  rewrite (H x) by now left. apply IH. intros y Hy. apply H. now right.
Qed.

(** X22: [get_param_multiple] answers with the first parameter of the
    material, in the order of the material, whose name is one of the
    names asked for; the order of the names does not count, a name
    asked for alone gives what [get_param] gives, and the answer is
    [None] exactly as [get_param] answers when no parameter carries
    one of the names. *)
Theorem get_param_multiple_first (source : list param) (names : list string) :
  get_param_multiple source names
  = match List.find (fun param => str_in (Name param) names) source with
    | Some found => Value found
    | None => VNone
    end
  /\ (forall names', Permutation names names' ->
        get_param_multiple source names = get_param_multiple source names')
  /\ (forall n, get_param_multiple source [n] = get_param source n)
  /\ (forall pre found post,
        source = pre ++ found :: post ->
        str_in (Name found) names = true ->
        (forall p, List.In p pre -> str_in (Name p) names = false) ->
        get_param_multiple source names = Value found).
Proof.
  assert (Hfind : forall names0,
             get_param_multiple source names0
             = match List.find (fun param => str_in (Name param) names0) source with
               | Some found => Value found
               | None => VNone
               end).
  { intros names0. unfold get_param_multiple. now rewrite first_find. }
  split; [apply Hfind |]. split; [| split].
  - intros names' Hp. rewrite !Hfind.
    assert (Heq : List.find (fun param => str_in (Name param) names) source
                  = List.find (fun param => str_in (Name param) names') source).
    { clear Hfind. induction source as [| p source IH]; [reflexivity |].
      cbn [List.find]. rewrite (str_in_Permutation (Name p) names names' Hp).
      now rewrite IH. }
    now rewrite Heq.
  - intros n. rewrite Hfind, get_param_find.
    assert (Heq : List.find (fun param => str_in (Name param) [n]) source
                  = List.find (name_is n) source).
    { clear Hfind. induction source as [| p source IH]; [reflexivity |].
      cbn [List.find]. unfold str_in at 1, name_is at 1. cbn [List.existsb].
      rewrite Bool.orb_false_r. now rewrite IH. }
    now rewrite Heq.
  - intros pre found post -> Hfound Hpre. rewrite Hfind, find_app.
    rewrite (find_none_all _ pre Hpre). cbn [List.find]. now rewrite Hfound.
Qed.

(** ** The fix-ups by template *)

Lemma stable_lasting (b b' : build) : stable b b' -> lasting b b'.
Proof.
  intros H Hwf. destruct (H Hwf) as (Hwf' & Hle & Hsh).
  split; [exact Hwf' |]. split; [exact Hle |]. intros id Hid. left. now apply Hsh.
Qed.

Lemma lasting_refl (b : build) : lasting b b.
Proof. apply stable_lasting, stable_refl. Qed.

Lemma lasting_trans (b1 b2 b3 : build) : lasting b1 b2 -> lasting b2 b3 -> lasting b1 b3.
Proof.
  intros H12 H23 Hwf. destruct (H12 Hwf) as (Hwf2 & Hle & Hsh).
  destruct (H23 Hwf2) as (Hwf3 & Hle' & Hsh').
  split; [exact Hwf3 |]. split; [lia |].
  intros id Hid. destruct (Hsh' id) as [H | H]; [lia | | now right].
  rewrite H. now apply Hsh.
Qed.

Lemma find_node_filter (ns : list node) (gone id : nat) :
  find_node (List.filter (fun n => negb (Nat.eqb (nd_id n) gone)) ns) id
  = if Nat.eqb id gone then None else find_node ns id.
Proof.
  unfold find_node. induction ns as [| n ns IH].
  - cbn. now destruct (Nat.eqb id gone).
  - cbn [List.filter List.find].
    destruct (Nat.eqb_spec (nd_id n) gone) as [Hg | Hg]; cbn [negb].
    + rewrite IH. destruct (Nat.eqb_spec id gone) as [Hi | Hi]; [reflexivity |].
      destruct (Nat.eqb_spec (nd_id n) id); [congruence | reflexivity].
    + cbn [List.find]. destruct (Nat.eqb_spec (nd_id n) id) as [Hn | Hn].
      * destruct (Nat.eqb_spec id gone); [congruence | reflexivity].
      * exact IH.
Qed.

Lemma lasting_remove (id : nat) : respects lasting (nodes_remove id).
Proof.
  intros b Hwf. unfold nodes_remove, modify, wf_frame, shape_at.
  cbn [snd b_nodes b_next with_nodes with_links].
  split; [now apply Forall_filter_keep |]. split; [lia |].
  intros id' _. rewrite find_node_filter.
  destruct (Nat.eqb id' id); [now right | now left].
Qed.

Lemma lasting_value (v : option pyval) : respects lasting (modify (with_value v)).
Proof. intros b. now apply stable_lasting, stable_same_nodes. Qed.

Lemma lasting_new_group (E : env) (ty nm : string) (B : Type) (k : nat -> M B) :
  (forall nd, respects lasting (k nd)) ->
  respects lasting
    (nodes_new ty ≫= (fun nd => assign_node_tree E nd nm ≫= (fun _ => k nd))).
Proof.
  intros Hk b.
  pose proof (stable_new_group E ty nm unit (fun _ => mret tt)
                (fun _ => respects_ret stable stable_refl tt) b) as Hpre.
  revert Hpre. rewrite !mbind_unfold. cbn [nodes_new]. rewrite !mbind_unfold.
  destruct (assign_node_tree E (b_next b) nm
              (with_next (S (b_next b))
                 (with_nodes (b_nodes b ++ [fresh_node (b_next b) ty]) b)))
    as [[[] | e] b2]; cbn [snd mret M_ret ret]; intros Hpre.
  - apply (lasting_trans b b2 _); [now apply stable_lasting | apply Hk].
  - now apply stable_lasting.
Qed.

Lemma default_fixups_lasting (E : env) (shader_node : nat) (md : Material.t)
    (meta : Meta.t) :
  respects lasting (default_fixups E shader_node md meta).
Proof.
  apply respects_default_fixups;
    [ exact lasting_refl | exact lasting_trans
    | intros e; exact (respects_weaken _ _ _ stable_lasting (stable_print e))
    | intros ty; exact (respects_weaken _ _ _ stable_lasting (stable_nodes_new E ty))
    | intros id f Hf; exact (respects_weaken _ _ _ stable_lasting (stable_update id f Hf))
    | intros o i; exact (respects_weaken _ _ _ stable_lasting (stable_links_new o i))
    | intros img k v _; exact (respects_weaken _ _ _ stable_lasting (stable_image img k v))
    | intros p Hp; exact (respects_weaken _ _ _ stable_lasting (stable_step_down p Hp))
    | exact (lasting_new_group E) | exact lasting_remove | exact lasting_value ].
Qed.

Lemma shader_tree_find (b : build) (nm : string) :
  shader_tree b = Some nm ->
  exists n, find_node (b_nodes b) (b_shader_node b) = Some n
            /\ node_tree n = Some nm /\ nd_id n = b_shader_node b.
Proof.
  unfold shader_tree. destruct (find_node (b_nodes b) (b_shader_node b)) as [n |] eqn:Hn;
    [| discriminate].
  intros H. exists n. split; [reflexivity |]. split; [exact H |].
  unfold find_node in Hn. apply List.find_some in Hn. now apply Nat.eqb_eq.
Qed.

Lemma node_tree_name_found (b : build) (id : nat) (n : node) (nm : string) :
  find_node (b_nodes b) id = Some n -> node_tree n = Some nm ->
  node_tree_name id b = (Ok nm, b).
Proof.
  intros Hn Ht. unfold node_tree_name. rewrite mbind_unfold. unfold get_node.
  now rewrite Hn, Ht.
Qed.

(** X23: the fix-ups go by the template of the root node.  On a root
    node of another template than ["FP Material"] and ["FP Toon"] they
    return and change nothing.  [self.is_toon] is raised on a root node
    of ["FP Toon"] whose brightness could be set, and in no other
    case: the fix-ups of ["FP Material"] leave it as it is. *)
Theorem fixups_by_template (E : env) (md : Material.t) (meta : Meta.t) (b : build)
    (nm : string) :
  wf_frame b ->
  shader_tree b = Some nm ->
  b_is_toon (snd (fixups E md meta b))
  = b_is_toon b || (String.eqb nm "FP Toon" && is_ok (fst (fixups E md meta b)))
  /\ (nm <> "FP Material" -> nm <> "FP Toon" -> fixups E md meta b = (Ok tt, b)).
Proof.
  intros Hwf Htree.
  destruct (shader_tree_find b nm Htree) as [n [Hfind [Hnt Hid]]].
  assert (Hlt : (b_shader_node b < b_next b)%nat).
  { unfold find_node in Hfind. apply List.find_some in Hfind. destruct Hfind as [Hin _].
    unfold wf_frame in Hwf. rewrite List.Forall_forall in Hwf.
    specialize (Hwf n Hin). cbv beta in Hwf. lia. }
  unfold fixups. cbv zeta. rewrite mbind_unfold. cbn [get_build].
  rewrite mbind_unfold, (node_tree_name_found b _ n nm Hfind Hnt).
  destruct (String.eqb_spec nm "FP Material") as [-> | Hmat].
  - cbn [when]. rewrite mbind_unfold.
    pose proof (default_fixups_settled E (b_shader_node b) md meta b) as (_ & _ & Ht & _).
    pose proof (default_fixups_lasting E (b_shader_node b) md meta b Hwf) as (_ & _ & Hsh).
    destruct (default_fixups E (b_shader_node b) md meta b) as [[[] | e] b1];
      cbn [fst snd] in *.
    + split; [| congruence].
      rewrite mbind_unfold. unfold node_tree_name. rewrite mbind_unfold. unfold get_node.
      destruct (Hsh (b_shader_node b) Hlt) as [Hsame | Hgone].
      * unfold shape_at in Hsame. rewrite Hfind in Hsame.
        destruct (find_node (b_nodes b1) (b_shader_node b)) as [n1 |]; [| discriminate].
        cbn [option_map] in Hsame. injection Hsame as _ Hnt1 _ _.
        rewrite Hnt1, Hnt. cbn [mret M_ret ret String.eqb Ascii.eqb Bool.eqb when fst snd].
        cbn. now rewrite Ht, Bool.orb_false_r.
      * unfold shape_at in Hgone.
        destruct (find_node (b_nodes b1) (b_shader_node b)) as [n1 |]; [discriminate |].
        cbn [fst snd]. now rewrite Ht, Bool.orb_false_r.
    + split; [| congruence]. cbn. now rewrite Ht, Bool.orb_false_r.
  - cbn [when]. rewrite mbind_unfold. cbn [mret M_ret ret].
    rewrite mbind_unfold, (node_tree_name_found b _ n nm Hfind Hnt).
    destruct (String.eqb_spec nm "FP Toon") as [-> | Htoon].
    + cbn [when]. split; [| congruence]. rewrite mbind_unfold.
      pose proof (respects_assign_input E settled settled_refl settled_trans
                    (fun id f _ => settled_update id f) (b_shader_node b) "Brightness"
                    (options E "ToonBrightness") b) as (_ & _ & Ht & _).
      destruct (assign_input E (b_shader_node b) "Brightness" (options E "ToonBrightness") b)
        as [[[] | e] b1]; cbn [fst snd modify with_is_toon b_is_toon is_ok andb] in *.
      * now rewrite Bool.orb_true_r.
      * now rewrite Ht, Bool.orb_false_r.
    + cbn [when mret M_ret ret fst snd andb]. split; [now rewrite Bool.orb_false_r |].
      reflexivity.
Qed.

Lemma fixups_by_template_witness :
  wf_frame (root_frame "FP Toon")
  /\ shader_tree (root_frame "FP Toon") = Some "FP Toon"
  /\ b_is_toon (snd (fixups sample_env body_material no_meta (root_frame "FP Toon")))
     = b_is_toon (root_frame "FP Toon")
       || (String.eqb "FP Toon" "FP Toon"
           && is_ok (fst (fixups sample_env body_material no_meta (root_frame "FP Toon")))).
Proof.
  split; [apply root_frame_wf |]. split; [reflexivity |].
  destruct (fixups_by_template sample_env body_material no_meta (root_frame "FP Toon")
              "FP Toon" (root_frame_wf "FP Toon") eq_refl) as [H _].
  exact H.
Defined.

(** On the sample data the brightness of a toon root is set and the
    flag goes up; a glass root is left as it is. *)
Example fixups_samples :
  b_is_toon (snd (fixups sample_env body_material no_meta (root_frame "FP Toon"))) = true
  /\ fixups sample_env body_material no_meta (root_frame "FP Glass")
     = (Ok tt, root_frame "FP Glass").
Proof. split; vm_compute; reflexivity. Qed.

(** ** A scalar without a rule, exposure on *)

Lemma map_update_last (id : nat) (f : node -> node) (l : list node) (x : node) :
  List.Forall (fun n => (nd_id n < id)%nat) l ->
  nd_id x = id ->
  List.map (fun n => if Nat.eqb (nd_id n) id then f n else n) (l ++ [x]) = l ++ [f x].
Proof.
  intros Hl Hx. rewrite List.map_app. cbn [List.map]. rewrite Hx, Nat.eqb_refl. f_equal.
  induction Hl as [| n l Hn Hl IH]; [reflexivity |].
  cbn [List.map]. rewrite IH. destruct (Nat.eqb_spec (nd_id n) id); [lia | reflexivity].
Qed.

Lemma find_node_end (l : list node) (x : node) (id : nat) :
  List.Forall (fun n => (nd_id n < id)%nat) l ->
  nd_id x = id ->
  find_node (l ++ [x]) id = Some x.
Proof.
  intros Hl Hx. pose proof (find_node_fresh (fun n => n) l x (fun n => eq_refl)) as H.
  rewrite List.map_id, Hx in H. apply H. exact Hl.
Qed.

Lemma update_node_last (id : nat) (f : node -> node) (b : build) (l : list node)
    (x : node) :
  b_nodes b = l ++ [x] ->
  List.Forall (fun n => (nd_id n < id)%nat) l ->
  nd_id x = id ->
  update_node id f b = (Ok tt, with_nodes (l ++ [f x]) b).
Proof.
  intros Hb Hl Hx. rewrite update_node_cases, Hb, (find_node_end l x id Hl Hx).
  now rewrite (map_update_last id f l x Hl Hx).
Qed.

(** X24: a scalar that has no rule in the table, with the exposure on.
    The resolver returns and adds one value node at the end of the
    tree and no link; the nodes that were there are untouched.  When
    the output of the node takes the value, the node carries it, is
    labelled with the name of the parameter, is 250 wide and stands at
    x 400 and the running offset, which then steps down by 100.  When
    it does not, the [TypeError] is printed, the node stays as it was
    created, and the offset stays. *)
Theorem scalar_param_exposed (E : env) (data : param) (target_mappings : MappingCollection)
    (target_node : nat) (b : build) :
  wf_frame b ->
  first (scalars target_mappings) (fun x => String.eqb (name x) (Name data)) = None ->
  scalar_param E data target_mappings target_node true b
  = if socket_accepts E "ShaderNodeValue" None true 0 (Value data)
    then
      (Ok tt,
       with_offset (b_unused_parameter_offset b - 100)
         (with_new_node
            (exposed_value_node (b_next b) (Name data) (Value data)
               (b_unused_parameter_offset b)) b))
    else
      (Ok tt,
       with_stderr (b_stderr b ++ [TypeError "default_value"])
         (with_new_node (fresh_node (b_next b) "ShaderNodeValue") b)).
Proof.
  intros Hwf Hnone. unfold scalar_param, scalar_body, try_except. cbv zeta.
  rewrite Hnone. cbn [when].
  assert (Hfresh : fresh_node (b_next b) "ShaderNodeValue"
                   = mkNode (b_next b) "ShaderNodeValue" None [] 1 (0, 0) ∅ ∅ ∅)
    by reflexivity.
  rewrite mbind_unfold. cbn [nodes_new].
  set (b1 := with_next (S (b_next b))
               (with_nodes (b_nodes b ++ [fresh_node (b_next b) "ShaderNodeValue"]) b)).
  assert (Hfind1 : find_node (b_nodes b1) (b_next b)
                   = Some (fresh_node (b_next b) "ShaderNodeValue")).
  { unfold b1. cbn [b_nodes with_nodes with_next].
    apply find_node_end; [exact Hwf | apply nd_id_fresh_node]. }
  rewrite mbind_unfold. unfold outputs_at. rewrite mbind_unfold. unfold get_node at 1.
  rewrite Hfind1.
  change (outputs (fresh_node (b_next b) "ShaderNodeValue")) with 1%nat.
  cbn [Nat.ltb Nat.leb mret M_ret ret].
  rewrite mbind_unfold. unfold assign_out_default. rewrite mbind_unfold.
  unfold get_node at 1. cbn [fst snd]. rewrite Hfind1.
  change (bl_idname (fresh_node (b_next b) "ShaderNodeValue")) with "ShaderNodeValue".
  change (node_tree (fresh_node (b_next b) "ShaderNodeValue")) with (@None string).
  destruct (socket_accepts E "ShaderNodeValue" None true 0 (Value data)).
  - erewrite (update_node_last (b_next b) _ b1 (b_nodes b));
      [| reflexivity | exact Hwf | reflexivity].
    unfold place_unused. rewrite mbind_unfold.
    erewrite (update_node_last (b_next b) _ _ (b_nodes b));
      [| reflexivity | exact Hwf | reflexivity].
    rewrite mbind_unfold.
    erewrite (update_node_last (b_next b) _ _ (b_nodes b));
      [| reflexivity | exact Hwf | reflexivity].
    rewrite mbind_unfold. cbn [get_build]. rewrite mbind_unfold.
    erewrite (update_node_last (b_next b) _ _ (b_nodes b));
      [| reflexivity | exact Hwf | reflexivity].
    reflexivity.
  - reflexivity.
Qed.

Lemma scalar_param_exposed_witness :
  wf_frame (root_frame "FP Material")
  /\ first (scalars default_mappings) (fun x => String.eqb (name x) "Thickness") = None
  /\ fst (scalar_param sample_env (P "Thickness" (VNum 2)) default_mappings 0 true
            (root_frame "FP Material")) = Ok tt.
Proof.
  split; [apply root_frame_wf |]. split; [reflexivity |].
  rewrite (scalar_param_exposed sample_env (P "Thickness" (VNum 2)) default_mappings 0
             (root_frame "FP Material") (root_frame_wf "FP Material") eq_refl).
  reflexivity.
Defined.


(** ** One material for several slots *)

Lemma import_material_key (E : env) (slot_ : nat) (md : Material.t) (meta : Meta.t)
    (st : state) :
  fingerprint (snd (import_material E slot_ md meta st)) meta = fingerprint md meta.
Proof.
  unfold import_material.
  destruct (fingerprint md meta) as [material_name material_hash] eqn:Hf.
  destruct (imported_materials _ !! material_hash); [exact Hf |].
  destruct (slot_material (get_slot st slot_)) as [current |]; [| exact Hf].
  destruct (claim_material E slot_ material_name material_hash current _) as [h st2].
  destruct (build_graph E material_name (merge_overrides md meta) meta (begin_build st2 h))
    as [r bf].
  cbn [snd]. rewrite merge_overrides_lists. exact Hf.
Qed.

Lemma import_material_ok_registers (E : env) (slot_ : nat) (md : Material.t) (meta : Meta.t)
    (st : state) :
  fst (fst (import_material E slot_ md meta st)) = Ok tt ->
  exists h,
    imported_materials (snd (fst (import_material E slot_ md meta st)))
      !! snd (fingerprint md meta) = Some h
    /\ slot_material (get_slot (snd (fst (import_material E slot_ md meta st))) slot_)
       = Some h.
Proof.
  intros Hok. apply import_material_registers.
  destruct (imported_materials st !! snd (fingerprint md meta)) eqn:Hc; [left; eauto |].
  destruct (slot_material (get_slot st slot_)) eqn:Hs; [right; eauto |].
  exfalso. revert Hok. unfold import_material. rewrite Hs.
  destruct (fingerprint md meta) as [material_name material_hash]. cbn [fst snd] in *.
  change (imported_materials (set_slot slot_ (mkSlot "OBJECT" None) st))
    with (imported_materials st).
  rewrite Hc. discriminate.
Qed.

Lemma assign_slots_facts (h : nat) (slots_ : list nat) (st : state) :
  materials (assign_slots h slots_ st) = materials st
  /\ imported_materials (assign_slots h slots_ st) = imported_materials st
  /\ is_toon (assign_slots h slots_ st) = is_toon st
  /\ stderr (assign_slots h slots_ st) = stderr st
  /\ (forall s, List.In s slots_ ->
        get_slot (assign_slots h slots_ st) s = mkSlot "OBJECT" (Some h))
  /\ (forall s, ~ List.In s slots_ ->
        slots (assign_slots h slots_ st) !! s = slots st !! s).
Proof.
  unfold assign_slots. revert st. induction slots_ as [| x rest IH]; intros st.
  - cbn. repeat split; try reflexivity. intros s [].
  - cbn [List.fold_left].
    destruct (IH (set_slot x (mkSlot "OBJECT" (Some h)) st))
      as (Hm & Hc & Ht & He & Hin & Hout).
    rewrite Hm, Hc, Ht, He. do 4 (split; [reflexivity |]). split.
    + intros s [<- | Hs].
      * destruct (List.in_dec Nat.eq_dec x rest) as [Hx | Hx]; [now apply Hin |].
        unfold get_slot. rewrite (Hout x Hx). cbn [set_slot slots].
        now rewrite lookup_insert_eq.
      * now apply Hin.
    + intros s Hs. rewrite Hout by (intros H; apply Hs; now right).
      cbn [set_slot slots]. rewrite lookup_insert_ne; [reflexivity |].
      intros ->. apply Hs. now left.
Qed.

Lemma import_into_slots_hits (E : env) (slots_ : list nat) (md : Material.t)
    (meta : Meta.t) (st : state) (h : nat) :
  imported_materials st !! snd (fingerprint md meta) = Some h ->
  import_into_slots E slots_ md meta st = (Ok tt, assign_slots h slots_ st, md).
Proof.
  revert st. induction slots_ as [| s rest IH]; intros st Hc; [reflexivity |].
  cbn [import_into_slots]. rewrite (import_material_hit E s md meta st h Hc).
  unfold assign_slots. cbn [List.fold_left]. apply IH. exact Hc.
Qed.

Lemma import_into_slots_after_first (E : env) (slot_ : nat) (rest : list nat)
    (md : Material.t) (meta : Meta.t) (st : state) :
  fst (fst (import_material E slot_ md meta st)) = Ok tt ->
  exists h,
    import_into_slots E (slot_ :: rest) md meta st
    = (Ok tt,
       assign_slots h rest (snd (fst (import_material E slot_ md meta st))),
       snd (import_material E slot_ md meta st))
    /\ imported_materials (snd (fst (import_material E slot_ md meta st)))
         !! snd (fingerprint md meta) = Some h
    /\ slot_material (get_slot (snd (fst (import_material E slot_ md meta st))) slot_)
       = Some h.
Proof.
  intros Hok.
  destruct (import_material_ok_registers E slot_ md meta st Hok) as [h [Hc Hs]].
  pose proof (import_material_key E slot_ md meta st) as Hkey.
  exists h. split; [| split; [exact Hc | exact Hs]].
  cbn [import_into_slots].
  destruct (import_material E slot_ md meta st) as [[r st1] md1]. cbn [fst snd] in *.
  subst r. apply import_into_slots_hits. now rewrite Hkey.
Qed.

Lemma import_material_other_slots (E : env) (slot_ : nat) (md : Material.t) (meta : Meta.t)
    (st : state) (s : nat) :
  s <> slot_ ->
  slots (snd (fst (import_material E slot_ md meta st))) !! s = slots st !! s.
Proof.
  intros Hne.
  destruct (imported_materials st !! snd (fingerprint md meta)) as [existing |] eqn:Hc.
  - rewrite (import_material_hit E slot_ md meta st existing Hc). cbn [fst snd set_slot slots].
    now rewrite lookup_insert_ne.
  - destruct (slot_material (get_slot st slot_)) as [current |] eqn:Hs.
    + rewrite (import_material_miss E slot_ md meta st current Hc Hs).
      destruct (claim_material_frame E slot_ (fst (fingerprint md meta))
                  (snd (fingerprint md meta)) current
                  (set_slot slot_ (mkSlot "OBJECT" (Some current)) st)) as (Hsl & _).
      change (slots (end_build ?h ?b ?st2)) with (slots st2).
      rewrite (Hsl s Hne). cbn [set_slot slots]. now rewrite lookup_insert_ne.
    + unfold import_material. rewrite Hs.
      destruct (fingerprint md meta) as [material_name material_hash]. cbn [fst snd] in *.
      change (imported_materials (set_slot slot_ (mkSlot "OBJECT" None) st))
        with (imported_materials st).
      rewrite Hc. cbn [fst snd set_slot slots]. now rewrite lookup_insert_ne.
Qed.

Lemma import_into_slots_other_slots (E : env) (slots_ : list nat) (md : Material.t)
    (meta : Meta.t) (st : state) (s : nat) :
  ~ List.In s slots_ ->
  slots (snd (fst (import_into_slots E slots_ md meta st))) !! s = slots st !! s.
Proof.
  revert md st. induction slots_ as [| x rest IH]; intros md st Hs; [reflexivity |].
  cbn [import_into_slots].
  pose proof (import_material_other_slots E x md meta st s) as Hx.
  destruct (import_material E x md meta st) as [[[[] | e] st1] md1]; cbn [fst snd] in *.
  - rewrite IH by (intros H; apply Hs; now right).
    apply Hx. intros ->. apply Hs. now left.
  - apply Hx. intros ->. apply Hs. now left.
Qed.

(** X25: one material for several slots.  When the first import of the
    loop returns, every later one is a cache hit, although the dict
    has been merged in between: the loop returns, builds no further
    graph, and every slot of the loop ends linked to the object and
    holding the one material the cache has under the key; the other
    slots are as the first import left them. *)
Theorem import_into_slots_share (E : env) (slot_ : nat) (rest : list nat)
    (md : Material.t) (meta : Meta.t) (st : state) :
  fst (fst (import_material E slot_ md meta st)) = Ok tt ->
  exists h,
    import_into_slots E (slot_ :: rest) md meta st
    = (Ok tt,
       assign_slots h rest (snd (fst (import_material E slot_ md meta st))),
       snd (import_material E slot_ md meta st))
    /\ imported_materials (snd (fst (import_into_slots E (slot_ :: rest) md meta st)))
         !! snd (fingerprint md meta) = Some h
    /\ materials (snd (fst (import_into_slots E (slot_ :: rest) md meta st)))
       = materials (snd (fst (import_material E slot_ md meta st)))
    /\ (forall s, List.In s (slot_ :: rest) ->
          slot_material
            (get_slot (snd (fst (import_into_slots E (slot_ :: rest) md meta st))) s)
          = Some h)
    /\ (forall s, ~ List.In s rest ->
          slots (snd (fst (import_into_slots E (slot_ :: rest) md meta st))) !! s
          = slots (snd (fst (import_material E slot_ md meta st))) !! s).
Proof.
  intros Hok.
  destruct (import_into_slots_after_first E slot_ rest md meta st Hok) as [h (Heq & Hc & Hs)].
  exists h.
  rewrite Heq. cbn [fst snd].
  destruct (assign_slots_facts h rest (snd (fst (import_material E slot_ md meta st))))
    as (Hm & Hcache & _ & _ & Hin & Hout).
  split; [reflexivity |]. split; [now rewrite Hcache |]. split; [exact Hm |]. split.
  - intros s [<- | Hr].
    + destruct (List.in_dec Nat.eq_dec slot_ rest) as [Hx | Hx]; [now rewrite Hin |].
      unfold get_slot. rewrite (Hout slot_ Hx). exact Hs.
    + now rewrite Hin.
  - exact Hout.
Qed.

Lemma import_into_slots_share_witness :
  fst (fst (import_material sample_env 7 glass_material no_meta (one_slot_state "M_Body")))
  = Ok tt
  /\ exists h,
       forall s, List.In s [7; 8]%nat ->
         slot_material
           (get_slot (snd (fst (import_into_slots sample_env [7; 8]%nat glass_material
                                  no_meta (one_slot_state "M_Body")))) s)
         = Some h.
Proof.
  assert (Hok : fst (fst (import_material sample_env 7 glass_material no_meta
                            (one_slot_state "M_Body"))) = Ok tt) by (vm_compute; reflexivity).
  split; [exact Hok |].
  destruct (import_into_slots_share sample_env 7 [8%nat] glass_material no_meta
              (one_slot_state "M_Body") Hok) as [h (_ & _ & _ & Hall & _)].
  exists h. exact Hall.
Defined.

(** X26: a variant override material goes into the slots of the mesh
    whose material bears the name to swap, up to case, as the names
    stand before the first import.  No other slot is touched, also
    when an import raises; without such a slot nothing happens; and
    when the loop returns, the chosen slots hold one and the same
    material. *)
Theorem import_variant_override_spec (E : env) (material_slots : list nat)
    (material_name_to_swap : string) (md : Material.t) (meta : Meta.t) (st : state) :
  (forall s,
      String.eqb (casefold E (slot_name st s)) (casefold E material_name_to_swap) = false ->
      slots (snd (fst (import_variant_override E material_slots material_name_to_swap
                         md meta st))) !! s
      = slots st !! s)
  /\ ((forall s, List.In s material_slots ->
         String.eqb (casefold E (slot_name st s)) (casefold E material_name_to_swap) = false) ->
      import_variant_override E material_slots material_name_to_swap md meta st
      = (Ok tt, st, md))
  /\ (fst (fst (import_variant_override E material_slots material_name_to_swap md meta st))
      = Ok tt ->
      forall s s',
        List.In s material_slots -> List.In s' material_slots ->
        String.eqb (casefold E (slot_name st s)) (casefold E material_name_to_swap) = true ->
        String.eqb (casefold E (slot_name st s')) (casefold E material_name_to_swap) = true ->
        slot_material
          (get_slot (snd (fst (import_variant_override E material_slots
                                 material_name_to_swap md meta st))) s)
        = slot_material
            (get_slot (snd (fst (import_variant_override E material_slots
                                   material_name_to_swap md meta st))) s')
        /\ is_Some
             (slot_material
                (get_slot (snd (fst (import_variant_override E material_slots
                                       material_name_to_swap md meta st))) s))).
Proof.
  unfold import_variant_override. cbv zeta. rewrite where_filter.
  set (chosen := List.filter _ material_slots).
  assert (Hchosen : forall s, List.In s chosen
                              <-> List.In s material_slots
                                  /\ String.eqb (casefold E (slot_name st s))
                                       (casefold E material_name_to_swap) = true).
  { intros s. unfold chosen. apply List.filter_In. }
  split; [| split].
  - intros s Hs. apply import_into_slots_other_slots.
    intros Hin. apply Hchosen in Hin. destruct Hin as [_ Hin]. congruence.
  - intros Hnone. assert (Hnil : chosen = []).
    { destruct chosen as [| c rest] eqn:Hc; [reflexivity |]. exfalso.
      assert (Hin : List.In c (c :: rest)) by now left.
      apply Hchosen in Hin. destruct Hin as [Hin Hm]. rewrite (Hnone c Hin) in Hm.
      discriminate. }
    now rewrite Hnil.
  - intros Hok s s' Hs Hs' Hm Hm'.
    assert (Hin : List.In s chosen) by (apply Hchosen; now split).
    assert (Hin' : List.In s' chosen) by (apply Hchosen; now split).
    clear Hchosen. destruct chosen as [| c rest]; [destruct Hin |].
    assert (Hfirst : fst (fst (import_material E c md meta st)) = Ok tt).
    { revert Hok. cbn [import_into_slots].
      destruct (import_material E c md meta st) as [[[[] | e] st1] md1];
        [reflexivity | discriminate]. }
    destruct (import_into_slots_after_first E c rest md meta st Hfirst)
      as [h (Heq & Hc & Hsl)].
    rewrite Heq. cbn [fst snd].
    destruct (assign_slots_facts h rest (snd (fst (import_material E c md meta st))))
      as (_ & _ & _ & _ & Hall & Hout).
    assert (Hh : forall x, List.In x (c :: rest) ->
                 slot_material
                   (get_slot (assign_slots h rest
                                (snd (fst (import_material E c md meta st)))) x) = Some h).
    { intros x [<- | Hx].
      - destruct (List.in_dec Nat.eq_dec c rest) as [Hc' | Hc']; [now rewrite Hall |].
        unfold get_slot. rewrite (Hout c Hc'). exact Hsl.
      - now rewrite Hall. }
    rewrite (Hh s Hin), (Hh s' Hin'). split; [reflexivity | eauto].
Qed.

(** Slots 7 and 8 bear the name, slot 9 does not exist: both get the
    new material, and a name no slot bears changes nothing. *)
Example variant_override_samples :
  slots (snd (fst (import_variant_override sample_env [7; 8; 9]%nat "m_body"
                     glass_material no_meta (one_slot_state "M_Body"))))
  = {[ 7%nat := mkSlot "OBJECT" (Some 1%nat); 8%nat := mkSlot "OBJECT" (Some 1%nat) ]}
  /\ import_variant_override sample_env [7; 8; 9]%nat "M_Head" glass_material no_meta
       (one_slot_state "M_Body")
     = (Ok tt, one_slot_state "M_Body", glass_material).
Proof. split; vm_compute; reflexivity. Qed.
